(** * payout-engine: a shallow embedding of the orchestration core

    The development follows the Python sources of [app/engine],
    [app/routing], [app/audit] and [app/providers]:

    - [Py]            the few Python built-ins the code relies on
                      (truthiness, [str.strip], [str.upper], [min], [round]);
    - [check_eligibility]   app/engine/eligibility.py;
    - [select_rail]         app/routing/rail_selector.py and country_rails.py;
    - [with_retry]          app/engine/retry.py;
    - [execute_run], [_process_single_payout]   app/engine/orchestrator.py.

    Conventions.  A Python [str] is a [string]; [str.strip] and [str.upper]
    are modelled on the ASCII range (country codes, rail names and
    identifiers are ASCII), other bytes are left as they are.  A Python
    [float] is a binary64 primitive float.  [Optional[T]] is [option T].
    Mutable ORM objects live in the session, modelled as finite maps and
    lists inside a [World] that is threaded through the effectful code. *)

From Stdlib Require Import ZArith Ascii String Lia.
From Stdlib Require Import Floats.PrimFloat Floats.SpecFloat Floats.FloatOps.
From Stdlib Require Import Floats.FloatAxioms.
From stdpp Require Import base option list gmap strings.

Open Scope Z_scope.

(* ===================================================================== *)
(** * Python built-ins *)
(* ===================================================================== *)

Module Py.

(** [bool(s)] for an [Optional[str]]: [None] and the empty string are
    falsy. *)
Definition truthy_str (o : option string) : bool :=
  match o with
  | Some (String _ _) => true
  | Some EmptyString | None => false
  end.

(** [o or d] for an [Optional[str]] [o] and a string [d]. *)
Definition str_or (o : option string) (d : string) : string :=
  match o with
  | Some (String c s) => String c s
  | Some EmptyString | None => d
  end.

(** [o or p] for two [Optional[str]]. *)
Definition opt_or (o p : option string) : option string :=
  if truthy_str o then o else p.

(** What [f"{o}"] prints for an [Optional[str]]. *)
Definition fmt_opt_str (o : option string) : string :=
  match o with Some s => s | None => "None" end.

(** [bool(x)] for a float: zero (of either sign) is falsy, NaN is truthy. *)
Definition truthy_float (x : float) : bool := negb (PrimFloat.eqb x 0%float).

(** [bool(n)] for an [Optional[int]]. *)
Definition truthy_int (o : option Z) : bool :=
  match o with Some n => negb (n =? 0) | None => false end.

(** [min(a, b)] on floats: the first argument is kept unless the second
    is strictly smaller. *)
Definition min (a b : float) : float :=
  if PrimFloat.ltb b a then b else a.

(** ASCII white space as [str.strip] sees it: TAB, LF, VT, FF, CR,
    FS, GS, RS, US and SPACE. *)
Definition is_space (c : ascii) : bool :=
  let n := N_of_ascii c in
  ((9 <=? n) && (n <=? 13) || (28 <=? n) && (n <=? 32))%N.

Fixpoint lstrip (s : string) : string :=
  match s with
  | String c s' => if is_space c then lstrip s' else s
  | EmptyString => EmptyString
  end.

(** [rstrip]: a character is dropped when it is white space and
    everything after it has been dropped. *)
Fixpoint rstrip (s : string) : string :=
  match s with
  | EmptyString => EmptyString
  | String c s' =>
      match rstrip s' with
      | EmptyString => if is_space c then EmptyString else String c EmptyString
      | r => String c r
      end
  end.

Definition strip (s : string) : string := rstrip (lstrip s).

Definition upper_ascii (c : ascii) : ascii :=
  let n := N_of_ascii c in
  if ((97 <=? n) && (n <=? 122))%N then ascii_of_N (n - 32) else c.

Fixpoint upper (s : string) : string :=
  match s with
  | EmptyString => EmptyString
  | String c s' => String (upper_ascii c) (upper s')
  end.

(** [s[:n]]. *)
Definition prefix (n : nat) (s : string) : string := String.substring 0 n s.

(** [int(round(x))] on a float: round to the nearest integer, ties to
    even; [None] when [x] is NaN or infinite (Python raises [ValueError],
    respectively [OverflowError]). *)
Definition round_half_even (m : positive) (e : Z) : Z :=
  if 0 <=? e then Z.pos m * 2 ^ e
  else
    let d := 2 ^ (- e) in
    let q := Z.pos m / d in
    let r := Z.pos m mod d in
    match 2 * r ?= d with
    | Lt => q
    | Gt => q + 1
    | Eq => if Z.even q then q else q + 1
    end.

(** [float(n)] for an integer: the nearest binary64 value, ties to even. *)
Definition float_of_int (n : Z) : float :=
  SF2Prim (binary_normalize prec emax n 0 false).

Definition int_round (x : float) : option Z :=
  match Prim2SF x with
  | S754_nan | S754_infinity _ => None
  | S754_zero _ => Some 0
  | S754_finite s m e =>
      let n := round_half_even m e in Some (if s then - n else n)
  end.

End Py.

(* ===================================================================== *)
(** * app/models/enums.py *)
(* ===================================================================== *)

Inductive PayoutStatus :=
  PENDING | ELIGIBLE | PROCESSING | COMPLETED | FAILED | SKIPPED.

Inductive RunStatus := RUN_RUNNING | RUN_COMPLETED | RUN_FAILED.

Inductive SkipReason :=
  | INVALID_METHOD
  | WRONG_STATUS
  | INVALID_AMOUNT
  | MISSING_EXTERNAL_ACCOUNT
  | EXISTING_PAYMENT_ORDER
  | MISSING_COUNTRY.

#[global] Instance PayoutStatus_eq_dec : EqDecision PayoutStatus.
Proof. solve_decision. Defined.
#[global] Instance RunStatus_eq_dec : EqDecision RunStatus.
Proof. solve_decision. Defined.
#[global] Instance SkipReason_eq_dec : EqDecision SkipReason.
Proof. solve_decision. Defined.

(** The [.value] of each member. *)
Definition PayoutStatus_value (s : PayoutStatus) : string :=
  match s with
  | PENDING => "pending" | ELIGIBLE => "eligible" | PROCESSING => "processing"
  | COMPLETED => "completed" | FAILED => "failed" | SKIPPED => "skipped"
  end.

Definition SkipReason_value (r : SkipReason) : string :=
  match r with
  | INVALID_METHOD => "invalid_method"
  | WRONG_STATUS => "wrong_status"
  | INVALID_AMOUNT => "invalid_amount"
  | MISSING_EXTERNAL_ACCOUNT => "missing_external_account"
  | EXISTING_PAYMENT_ORDER => "existing_payment_order"
  | MISSING_COUNTRY => "missing_country"
  end.

(* ===================================================================== *)
(** * The Python runtime the code reads from *)
(* ===================================================================== *)

(** What the code obtains from the interpreter and the operating system and
    cannot compute itself: the printed form of a float, decimal rounding of
    a float, the wall clock and the random UUID source.  The [k]-th reading
    of the clock and the [k]-th UUID drawn are given by functions of [k]. *)
Class PyRuntime := {
  float_str : float → string;          (* f"{x}" *)
  round2 : float → float;              (* round(x, 2) *)
  strftime_minute : nat → string;      (* the k-th reading of
                                          datetime.now(timezone.utc), printed
                                          with '%Y-%m-%d %H:%M UTC' *)
  uuid4_hex : nat → string;            (* the k-th uuid.uuid4().hex *)
  fmt_hundredths : Z → string;         (* f"{n / 100:.2f}" for an int n *)
}.

(** A [datetime] value is identified with the reading of the clock that
    produced it. *)
Definition datetime := nat.

(* ===================================================================== *)
(** * app/engine/eligibility.py *)
(* ===================================================================== *)

Definition ALLOWED_METHODS : gset string := {[ "ACH"; "Wire" ]}.

Record EligibilityResult := {
  eligible : bool;
  skip_reason : option SkipReason;
  message : string;
}.

Section Eligibility.
  Context `{PyRuntime}.

Definition fmt_opt_float (o : option float) : string :=
  match o with Some x => float_str x | None => "None" end.

Definition check_eligibility
    (payment_method : option string)
    (amount : option float)
    (external_account_id : option string)
    (country : option string)
    (existing_payment_order_id : option string) : EligibilityResult :=
  (* Idempotency: already has a payment order *)
  if Py.truthy_str existing_payment_order_id then
    {| eligible := false;
       skip_reason := Some EXISTING_PAYMENT_ORDER;
       message := "Payment order already exists: "
                  +:+ Py.fmt_opt_str existing_payment_order_id |}
  (* Valid payment method *)
  else if negb (Py.truthy_str payment_method)
          || negb (bool_decide (default "" payment_method ∈ ALLOWED_METHODS)) then
    {| eligible := false;
       skip_reason := Some INVALID_METHOD;
       message := "Invalid payment method: " +:+ Py.fmt_opt_str payment_method |}
  (* Positive amount *)
  else if match amount with
          | None => true
          | Some a => PrimFloat.leb a 0%float
          end then
    {| eligible := false;
       skip_reason := Some INVALID_AMOUNT;
       message := "Invalid amount: " +:+ fmt_opt_float amount |}
  (* External account required *)
  else if negb (Py.truthy_str external_account_id) then
    {| eligible := false;
       skip_reason := Some MISSING_EXTERNAL_ACCOUNT;
       message := "No external bank account on file" |}
  (* Country required for routing *)
  else if negb (Py.truthy_str country) then
    {| eligible := false;
       skip_reason := Some MISSING_COUNTRY;
       message := "Missing country code" |}
  else
    {| eligible := true; skip_reason := None; message := "" |}.

End Eligibility.

(* ===================================================================== *)
(** * app/routing/country_rails.py *)
(* ===================================================================== *)

(** A [RailConfig] is a [TypedDict] with [total=False]: [currency] and
    [purpose] are read with [dict.get] and may be absent; [subtype] is read
    with [cfg["subtype"]] and every entry of the table has it. *)
Record RailConfig := {
  rc_type : string;
  rc_subtype : string;
  rc_currency : option string;
  rc_purpose : option string;
}.

Definition cross_border (subtype currency : string) : RailConfig :=
  {| rc_type := "cross_border"; rc_subtype := subtype;
     rc_currency := Some currency; rc_purpose := None |}.

Definition SEPA_COUNTRIES : list string :=
  [ "DE"; "FR"; "ES"; "NL"; "IT"; "AT"; "BE"; "IE"; "PT"; "FI";
    "GR"; "LU"; "CY"; "MT"; "SK"; "LT"; "SI"; "EE"; "LV" ].

Definition GLOBAL_ACH_ENTRIES : list (string * RailConfig) :=
  map (λ c, (c, cross_border "sepa" "EUR")) SEPA_COUNTRIES ++
  [ ("GB", cross_border "bacs" "GBP");
    ("CA", {| rc_type := "cross_border"; rc_subtype := "eft";
              rc_currency := Some "CAD"; rc_purpose := Some "250" |});
    ("CH", cross_border "sic" "CHF");
    ("PL", cross_border "pl_elixir" "PLN");
    ("AU", cross_border "au_becs" "AUD");
    ("SG", cross_border "sg_giro" "SGD");
    ("IN", cross_border "neft" "INR");
    ("JP", cross_border "zengin" "JPY");
    ("DK", cross_border "dk_nets" "DKK");
    ("NZ", cross_border "nz_becs" "NZD");
    ("NO", cross_border "nics" "NOK");
    ("HK", cross_border "chats" "HKD");
    ("SE", cross_border "se_bankgirot" "SEK");
    ("RO", cross_border "ro_sent" "RON");
    ("MX", cross_border "mx_ccen" "MXN");
    ("IL", cross_border "masav" "ILS");
    ("ID", cross_border "sknbi" "IDR");
    ("HU", cross_border "hu_ics" "HUF") ].

Definition GLOBAL_ACH_MAP : gmap string RailConfig :=
  list_to_map GLOBAL_ACH_ENTRIES.

(* ===================================================================== *)
(** * app/routing/rail_selector.py *)
(* ===================================================================== *)

Record RailDecision := {
  payment_type : string;
  subtype : option string;
  currency : string;
  purpose : option string;
  fx_indicator : option string;
  label : string;
}.

Definition normalize_country (country_code : option string) : string :=
  Py.upper (Py.strip (Py.str_or country_code "")).

Definition select_rail
    (country_code : option string)
    (payment_method : option string)
    (has_aba_routing : bool) : RailDecision :=
  let country := normalize_country country_code in
  (* Priority 1: Foreign investor with US bank account → domestic ACH *)
  if has_aba_routing && negb (bool_decide (country = "US")) then
    {| payment_type := "ach"; subtype := Some "CCD"; currency := "USD";
       purpose := None; fx_indicator := None;
       label := "ACH (US) — foreign investor (" +:+ country +:+ ") with US bank" |}
  (* Priority 2: US investor → domestic ACH *)
  else if bool_decide (country = "US") then
    {| payment_type := "ach"; subtype := Some "CCD"; currency := "USD";
       purpose := None; fx_indicator := None;
       label := "ACH (US)" |}
  else
    (* Priority 3: Supported cross-border country → local rail *)
    match GLOBAL_ACH_MAP !! country with
    | Some cfg =>
        let subtype := rc_subtype cfg in
        let currency := default "USD" (rc_currency cfg) in
        {| payment_type := "cross_border"; subtype := Some subtype;
           currency := currency; purpose := rc_purpose cfg;
           fx_indicator := Some "fixed_to_variable";
           label := "Cross-Border " +:+ Py.upper subtype +:+ " (" +:+ currency +:+ ")" |}
    | None =>
        (* Fallback: International wire (USD) *)
        {| payment_type := "wire"; subtype := None; currency := "USD";
           purpose := None; fx_indicator := None;
           label := "Wire (International) — " +:+ Py.str_or (Some country) "unknown" |}
    end.


(* ===================================================================== *)
(** * app/models/payout.py *)
(* ===================================================================== *)

(** The ORM classes, one module per class.  Columns that only the storage
    layer writes ([created_at], [updated_at], [started_at], the
    auto-incremented [AuditLog.id]) are left out. *)

Module Investor.
Record t := {
  id : string;
  name : string;
  country : option string;
  payment_method : option string;
  external_account_id : option string;
  has_aba_routing : option Z;
}.
End Investor.

Module LiquidationEvent.
Record t := {
  id : string;
  name : string;
  total_amount : float;
  payout_date : option string;
  status : option string;
}.
End LiquidationEvent.

Module PayoutRun.
Record t := {
  id : string;
  liquidation_event_id : string;
  status : RunStatus;
  created_count : Z;
  skipped_count : Z;
  failed_count : Z;
  skip_breakdown : option (list (string * Z));
  completed_at : option datetime;
}.
End PayoutRun.

Module Payout.
Record t := {
  id : string;
  run_id : option string;
  liquidation_event_id : string;
  investor_id : string;
  investor_name : option string;
  amount : float;
  currency : option string;
  country : option string;
  payment_method : option string;
  has_aba_routing : option Z;
  external_account_id : option string;
  (* Routing result *)
  rail : option string;
  rail_subtype : option string;
  rail_currency : option string;
  fx_indicator : option string;
  (* Execution result *)
  status : PayoutStatus;
  skip_reason : option string;
  payment_order_id : option string;
  payment_order_type : option string;
  notes : option string;
}.

(** Attribute assignments [payout.x = v]. *)
Definition set_run_id (v : option string) (p : t) : t :=
  {| id := id p; run_id := v;
     liquidation_event_id := liquidation_event_id p;
     investor_id := investor_id p; investor_name := investor_name p;
     amount := amount p; currency := currency p; country := country p;
     payment_method := payment_method p;
     has_aba_routing := has_aba_routing p;
     external_account_id := external_account_id p;
     rail := rail p; rail_subtype := rail_subtype p;
     rail_currency := rail_currency p; fx_indicator := fx_indicator p;
     status := status p; skip_reason := skip_reason p;
     payment_order_id := payment_order_id p;
     payment_order_type := payment_order_type p; notes := notes p |}.

Definition set_status (v : PayoutStatus) (p : t) : t :=
  {| id := id p; run_id := run_id p;
     liquidation_event_id := liquidation_event_id p;
     investor_id := investor_id p; investor_name := investor_name p;
     amount := amount p; currency := currency p; country := country p;
     payment_method := payment_method p;
     has_aba_routing := has_aba_routing p;
     external_account_id := external_account_id p;
     rail := rail p; rail_subtype := rail_subtype p;
     rail_currency := rail_currency p; fx_indicator := fx_indicator p;
     status := v; skip_reason := skip_reason p;
     payment_order_id := payment_order_id p;
     payment_order_type := payment_order_type p; notes := notes p |}.

Definition set_skip_reason (v : option string) (p : t) : t :=
  {| id := id p; run_id := run_id p;
     liquidation_event_id := liquidation_event_id p;
     investor_id := investor_id p; investor_name := investor_name p;
     amount := amount p; currency := currency p; country := country p;
     payment_method := payment_method p;
     has_aba_routing := has_aba_routing p;
     external_account_id := external_account_id p;
     rail := rail p; rail_subtype := rail_subtype p;
     rail_currency := rail_currency p; fx_indicator := fx_indicator p;
     status := status p; skip_reason := v;
     payment_order_id := payment_order_id p;
     payment_order_type := payment_order_type p; notes := notes p |}.

Definition set_notes (v : option string) (p : t) : t :=
  {| id := id p; run_id := run_id p;
     liquidation_event_id := liquidation_event_id p;
     investor_id := investor_id p; investor_name := investor_name p;
     amount := amount p; currency := currency p; country := country p;
     payment_method := payment_method p;
     has_aba_routing := has_aba_routing p;
     external_account_id := external_account_id p;
     rail := rail p; rail_subtype := rail_subtype p;
     rail_currency := rail_currency p; fx_indicator := fx_indicator p;
     status := status p; skip_reason := skip_reason p;
     payment_order_id := payment_order_id p;
     payment_order_type := payment_order_type p; notes := v |}.

Definition set_payment_order_id (v : option string) (p : t) : t :=
  {| id := id p; run_id := run_id p;
     liquidation_event_id := liquidation_event_id p;
     investor_id := investor_id p; investor_name := investor_name p;
     amount := amount p; currency := currency p; country := country p;
     payment_method := payment_method p;
     has_aba_routing := has_aba_routing p;
     external_account_id := external_account_id p;
     rail := rail p; rail_subtype := rail_subtype p;
     rail_currency := rail_currency p; fx_indicator := fx_indicator p;
     status := status p; skip_reason := skip_reason p;
     payment_order_id := v;
     payment_order_type := payment_order_type p; notes := notes p |}.

(** The five assignments that store a routing decision. *)
Definition set_routing (rail' subtype' currency' fx' type' : option string)
    (p : t) : t :=
  {| id := id p; run_id := run_id p;
     liquidation_event_id := liquidation_event_id p;
     investor_id := investor_id p; investor_name := investor_name p;
     amount := amount p; currency := currency p; country := country p;
     payment_method := payment_method p;
     has_aba_routing := has_aba_routing p;
     external_account_id := external_account_id p;
     rail := rail'; rail_subtype := subtype';
     rail_currency := currency'; fx_indicator := fx';
     status := status p; skip_reason := skip_reason p;
     payment_order_id := payment_order_id p;
     payment_order_type := type'; notes := notes p |}.
End Payout.

(** Structured audit details ([dict] values handed to [json.dumps]). *)
#[local] Unset Elimination Schemes.
Inductive JSON :=
  | JNull
  | JStr (s : string)
  | JInt (n : Z)
  | JFloat (x : float)
  | JObj (fields : list (string * JSON)).
#[local] Set Elimination Schemes.

Definition JOptStr (o : option string) : JSON :=
  match o with Some s => JStr s | None => JNull end.

Module AuditLog.
Record t := {
  payout_id : option string;
  run_id : option string;
  action : string;
  details : option JSON;
  timestamp : datetime;
}.
End AuditLog.

(* ===================================================================== *)
(** * app/engine/retry.py: the exception classes *)
(* ===================================================================== *)

Definition MAX_RETRIES : Z := 5.
Definition BASE_DELAY : float := 1%float.
Definition MAX_DELAY : float := 30%float.

(** [ProviderError] and its two subclasses.  [RateLimitError] always has
    status 429 and is retriable; [PermanentError] is never retriable. *)
Inductive ProviderError :=
  | BaseProviderError (message : string) (status_code : Z) (retriable : bool)
  | RateLimitError (message : string) (retry_after : option float)
  | PermanentError (message : string) (status_code : Z).

Definition err_message (e : ProviderError) : string :=
  match e with
  | BaseProviderError m _ _ | RateLimitError m _ | PermanentError m _ => m
  end.

Definition err_status_code (e : ProviderError) : Z :=
  match e with
  | BaseProviderError _ c _ | PermanentError _ c => c
  | RateLimitError _ _ => 429
  end.

Definition err_retriable (e : ProviderError) : bool :=
  match e with
  | BaseProviderError _ _ r => r
  | RateLimitError _ _ => true
  | PermanentError _ _ => false
  end.

(** [isinstance(e, PermanentError)]. *)
Definition is_PermanentError (e : ProviderError) : bool :=
  match e with PermanentError _ _ => true | _ => false end.

(** Exceptions: a provider error, or any other [Exception] with its class
    name and message. *)
Inductive Exn :=
  | ExcProvider (e : ProviderError)
  | ExcOther (class_name : string) (msg : string).

(** [str(e)]. *)
Definition exn_str (e : Exn) : string :=
  match e with
  | ExcProvider e => err_message e
  | ExcOther _ m => m
  end.

Inductive Res (A : Type) :=
  | Return (a : A)
  | Raise (e : Exn).
Arguments Return {A} a.
Arguments Raise {A} e.

(* ===================================================================== *)
(** * app/providers/base.py *)
(* ===================================================================== *)

Module PaymentOrderRequest.
Record t := {
  payment_type : string;
  subtype : option string;
  amount_cents : Z;
  currency : string;
  direction : string;
  originating_account_id : string;
  receiving_account_id : string;
  effective_date : option string;
  description : string;
  statement_descriptor : string;
  purpose : option string;
  fx_indicator : option string;
  metadata : option (list (string * string));
}.
End PaymentOrderRequest.

Module PaymentOrderResponse.
Record t := {
  payment_order_id : string;
  status : string;
  provider : string;
  message : string;
}.
End PaymentOrderResponse.

(** The abstract base class [PaymentProvider]: one capability, over a
    provider state [PS] that the call may change. *)
Class PaymentProvider (PS : Type) := {
  provider_name : PS → string;
  create_payment_order :
    PS → PaymentOrderRequest.t → Res PaymentOrderResponse.t * PS;
}.

(* ===================================================================== *)
(** * The world: session, provider and observable effects *)
(* ===================================================================== *)

(** What the provider and the event loop see of a run, oldest first. *)
Inductive IO :=
  | IOCall (request : PaymentOrderRequest.t)   (* provider.create_payment_order *)
  | IOSleep (seconds : float).                 (* asyncio.sleep *)

(** A payout row is identified by the pair (liquidation_event_id,
    investor_id), which the table's [UniqueConstraint] makes a key; the
    session's [Payout] objects are the entries of the map, so two references
    to the same row are the same key. *)
Abbreviation PayoutKey := (string * string)%type.

Section Engine.
  Context {PS : Type} `{PaymentProvider PS} `{PyRuntime}.

Record World := {
  liquidation_events : gmap string LiquidationEvent.t;
  investors : list Investor.t;
  payouts : gmap PayoutKey Payout.t;
  payout_runs : list PayoutRun.t;
  audit_logs : list AuditLog.t;
  provider_state : PS;
  io_trace : list IO;
  clock : nat;       (* clock readings taken so far *)
  uuids : nat;       (* UUIDs drawn so far *)
}.

Definition with_payouts (f : gmap PayoutKey Payout.t → gmap PayoutKey Payout.t)
    (w : World) : World :=
  {| liquidation_events := liquidation_events w; investors := investors w;
     payouts := f (payouts w); payout_runs := payout_runs w;
     audit_logs := audit_logs w; provider_state := provider_state w;
     io_trace := io_trace w; clock := clock w; uuids := uuids w |}.

Definition with_payout_runs (f : list PayoutRun.t → list PayoutRun.t)
    (w : World) : World :=
  {| liquidation_events := liquidation_events w; investors := investors w;
     payouts := payouts w; payout_runs := f (payout_runs w);
     audit_logs := audit_logs w; provider_state := provider_state w;
     io_trace := io_trace w; clock := clock w; uuids := uuids w |}.

Definition with_audit_logs (f : list AuditLog.t → list AuditLog.t)
    (w : World) : World :=
  {| liquidation_events := liquidation_events w; investors := investors w;
     payouts := payouts w; payout_runs := payout_runs w;
     audit_logs := f (audit_logs w); provider_state := provider_state w;
     io_trace := io_trace w; clock := clock w; uuids := uuids w |}.

Definition with_provider (ps : PS) (io : list IO) (w : World) : World :=
  {| liquidation_events := liquidation_events w; investors := investors w;
     payouts := payouts w; payout_runs := payout_runs w;
     audit_logs := audit_logs w; provider_state := ps;
     io_trace := io_trace w ++ io; clock := clock w; uuids := uuids w |}.

Definition with_clock (n : nat) (w : World) : World :=
  {| liquidation_events := liquidation_events w; investors := investors w;
     payouts := payouts w; payout_runs := payout_runs w;
     audit_logs := audit_logs w; provider_state := provider_state w;
     io_trace := io_trace w; clock := n; uuids := uuids w |}.

Definition with_uuids (n : nat) (w : World) : World :=
  {| liquidation_events := liquidation_events w; investors := investors w;
     payouts := payouts w; payout_runs := payout_runs w;
     audit_logs := audit_logs w; provider_state := provider_state w;
     io_trace := io_trace w; clock := clock w; uuids := n |}.

  (** ** A state and exception monad for the coroutines *)

Definition M (A : Type) : Type := World → Res A * World.

#[export] Instance M_ret : MRet M := λ A a w, (Return a, w).

#[export] Instance M_bind : MBind M := λ A B f m w,
  match m w with
  | (Return a, w') => f a w'
  | (Raise e, w') => (Raise e, w')
  end.

Definition raise {A} (e : Exn) : M A := λ w, (Raise e, w).

(** [try: x = m; ok(x)  except Exception as e: handler(e)], for a body
    whose only raising statement is [m]. *)
Definition try_except {A B} (m : M A) (ok : A → M B) (handler : Exn → M B)
    : M B :=
  λ w, match m w with
       | (Return a, w1) => ok a w1
       | (Raise e, w1) => handler e w1
       end.
Definition gets {A} (f : World → A) : M A := λ w, (Return (f w), w).
Definition modify (f : World → World) : M unit := λ w, (Return tt, f w).

(** [datetime.now(timezone.utc)]. *)
Definition now : M datetime :=
  λ w, (Return (clock w), with_clock (S (clock w)) w).

(** [uuid.uuid4().hex]. *)
Definition uuid4 : M string :=
  λ w, (Return (uuid4_hex (uuids w)), with_uuids (S (uuids w)) w).

(** [str(u)] of a UUID with hexadecimal digits [h]. *)
Definition uuid_str (h : string) : string :=
  String.substring 0 8 h +:+ "-" +:+ String.substring 8 4 h +:+ "-" +:+
  String.substring 12 4 h +:+ "-" +:+ String.substring 16 4 h +:+ "-" +:+
  String.substring 20 12 h.

(** [asyncio.sleep(seconds)]. *)
Definition sleep (seconds : float) : M unit :=
  modify (λ w, with_provider (provider_state w) [IOSleep seconds] w).

(** [await provider.create_payment_order(request)]. *)
Definition call_provider (request : PaymentOrderRequest.t)
    : M PaymentOrderResponse.t :=
  λ w, let '(r, ps) := create_payment_order (provider_state w) request in
       (r, with_provider ps [IOCall request] w).

  (* =================================================================== *)
  (** * app/audit/logger.py *)
  (* =================================================================== *)

Definition log_event (action : string) (run_id payout_id : option string)
    (details : list (string * JSON)) : M AuditLog.t :=
  t ← now;
  let entry :=
    {| AuditLog.run_id := run_id;
       AuditLog.payout_id := payout_id;
       AuditLog.action := action;
       AuditLog.details :=
         match details with [] => None | _ => Some (JObj details) end;
       AuditLog.timestamp := t |} in
  modify (with_audit_logs (λ l, l ++ [entry])) ;;
  mret entry.

Definition append_note (existing_notes : option string) (message : string)
    : M string :=
  t ← now;
  let new_note := "[" +:+ strftime_minute t +:+ "] " +:+ message in
  if negb (Py.truthy_str existing_notes) then mret new_note
  else mret (Py.fmt_opt_str existing_notes +:+ String "010" new_note).

  (* =================================================================== *)
  (** * app/engine/retry.py *)
  (* =================================================================== *)

(** The wait before the next attempt, from the current [delay] and the
    error just caught. *)
Definition sleep_for (delay : float) (e : ProviderError) : float :=
  match e with
  | RateLimitError _ (Some retry_after) =>
      if Py.truthy_float retry_after then Py.min retry_after MAX_DELAY
      else Py.min delay MAX_DELAY
  | _ => Py.min delay MAX_DELAY
  end.

(** The [for attempt in range(max_retries + 1)] loop, [todo] iterations
    from [attempt] on. *)
Fixpoint retry_loop {A} (func : M A) (max_retries : Z)
    (todo : nat) (attempt : Z) (delay : float)
    (last_error : option ProviderError) : M A :=
  match todo with
  | O =>
      raise (ExcProvider
               (default (BaseProviderError "Unknown error after retries" 500 true)
                        last_error))
  | S todo' =>
      λ w,
        match func w with
        | (Return v, w1) => (Return v, w1)
        | (Raise (ExcProvider e), w1) =>
            if negb (err_retriable e) then (Raise (ExcProvider e), w1)
            else if attempt <? max_retries then
              (sleep (sleep_for delay e) ;;
               retry_loop func max_retries todo' (attempt + 1)
                 (Py.min (delay * 2)%float MAX_DELAY) (Some e)) w1
            else (Raise (ExcProvider e), w1)
        | (Raise other, w1) => (Raise other, w1)
        end
  end.

Definition with_retry {A} (func : M A) (max_retries : Z) : M A :=
  retry_loop func max_retries (Z.to_nat (max_retries + 1)) 0 BASE_DELAY None.

(* =================================================================== *)
  (** * app/engine/orchestrator.py *)
  (* =================================================================== *)

(** [int(round(amount * 100))]. *)
Definition _cents (amount : float) : M Z :=
  let x := (amount * 100)%float in
  match Py.int_round x with
  | Some n => mret n
  | None =>
      if PrimFloat.is_nan x
      then raise (ExcOther "ValueError" "cannot convert float NaN to integer")
      else raise (ExcOther "OverflowError" "cannot convert float infinity to integer")
  end.

(** The session's [Payout] object behind a reference.  A reference handed
    out by [execute_run] always has its object; the [LookupError] is the
    model's answer for one that has not. *)
Definition get_payout (k : PayoutKey) : M Payout.t :=
  λ w, match payouts w !! k with
       | Some p => (Return p, w)
       | None => (Raise (ExcOther "LookupError" "no such payout"), w)
       end.

(** Writing the attributes of the object behind [k]. *)
Definition set_payout (k : PayoutKey) (p : Payout.t) : M unit :=
  modify (with_payouts (insert k p)).

(** [Counter[key] += 1], keys in insertion order. *)
Fixpoint counter_incr (key : string) (c : list (string * Z))
    : list (string * Z) :=
  match c with
  | [] => [(key, 1)]
  | (k, n) :: c' =>
      if bool_decide (k = key) then (k, n + 1) :: c'
      else (k, n) :: counter_incr key c'
  end.

(** The [PaymentOrderRequest(...)] that [_process_single_payout] builds
    in its step 3. *)
Definition payment_order_request (rail : RailDecision) (payout : Payout.t)
    (event : LiquidationEvent.t) (amount_cents : Z)
    : PaymentOrderRequest.t :=
  {| PaymentOrderRequest.payment_type := payment_type rail;
     PaymentOrderRequest.subtype := subtype rail;
     PaymentOrderRequest.amount_cents := amount_cents;
     PaymentOrderRequest.currency := currency rail;
     PaymentOrderRequest.direction := "credit";
     PaymentOrderRequest.originating_account_id := "internal_usd_001";
     PaymentOrderRequest.receiving_account_id :=
       Py.str_or (Payout.external_account_id payout) "";
     PaymentOrderRequest.effective_date :=
       LiquidationEvent.payout_date event;
     PaymentOrderRequest.description :=
       "Payout to " +:+ Py.str_or (Payout.investor_name payout)
                           (Payout.investor_id payout);
     PaymentOrderRequest.statement_descriptor :=
       Py.prefix 10 (Payout.investor_id payout);
     PaymentOrderRequest.purpose := purpose rail;
     PaymentOrderRequest.fx_indicator := fx_indicator rail;
     PaymentOrderRequest.metadata :=
       Some [ ("event_id", Payout.liquidation_event_id payout);
              ("investor_id", Payout.investor_id payout);
              ("country", Py.str_or (Payout.country payout) "") ] |}.

Definition _process_single_payout (run : PayoutRun.t) (k : PayoutKey)
    (event : LiquidationEvent.t) : M string :=
  payout ← get_payout k;
  (* Step 1: Eligibility check *)
  let result := check_eligibility
                  (Payout.payment_method payout)
                  (Some (Payout.amount payout))
                  (Payout.external_account_id payout)
                  (Payout.country payout)
                  (Payout.payment_order_id payout) in
  if negb (eligible result) then
    note ← append_note (Payout.notes payout) ("Skipped: " +:+ message result);
    let payout :=
      Payout.set_notes (Some note)
        (Payout.set_skip_reason (SkipReason_value <$> skip_reason result)
           (Payout.set_status SKIPPED payout)) in
    set_payout k payout ;;
    log_event "eligibility_failed" (Some (PayoutRun.id run))
      (Some (Payout.id payout))
      [ ("reason", JStr (default "unknown"
                           (SkipReason_value <$> skip_reason result)));
        ("message", JStr (message result)) ] ;;
    mret "skipped"
  else
    (* Step 2: Rail selection *)
    let rail := select_rail (Payout.country payout)
                  (Payout.payment_method payout)
                  (Py.truthy_int (Payout.has_aba_routing payout)) in
    let payout :=
      Payout.set_routing
        (Py.opt_or (subtype rail) (Some (payment_type rail)))
        (subtype rail) (Some (currency rail)) (fx_indicator rail)
        (Some (label rail)) payout in
    set_payout k payout ;;
    log_event "rail_selected" (Some (PayoutRun.id run))
      (Some (Payout.id payout))
      [ ("country", JOptStr (Payout.country payout));
        ("rail", JStr (payment_type rail));
        ("subtype", JOptStr (subtype rail));
        ("currency", JStr (currency rail));
        ("fx", JOptStr (fx_indicator rail));
        ("label", JStr (label rail)) ] ;;
    (* Step 3: Create payment order via provider *)
    amount_cents ← _cents (Payout.amount payout);
    let request := payment_order_request rail payout event amount_cents in
    let payout := Payout.set_status PROCESSING payout in
    set_payout k payout ;;
    try_except (with_retry (call_provider request) MAX_RETRIES)
      (λ response,
          (let order_id := PaymentOrderResponse.payment_order_id response in
           let payout :=
             Payout.set_status COMPLETED
               (Payout.set_payment_order_id (Some order_id) payout) in
           note ← append_note (Payout.notes payout)
                    ("Payment order created: " +:+ order_id);
           let payout := Payout.set_notes (Some note) payout in
           set_payout k payout ;;
           log_event "payment_created" (Some (PayoutRun.id run))
             (Some (Payout.id payout))
             [ ("payment_order_id", JStr order_id);
               ("provider", JStr (PaymentOrderResponse.provider response));
               ("type", JStr (payment_type rail));
               ("currency", JStr (currency rail));
               ("amount", JFloat (Payout.amount payout)) ] ;;
           mret "created"))
      (λ exn,
          (let payout := Payout.set_status FAILED payout in
           match exn with
           | ExcProvider (PermanentError _ _ as e) =>
               note ← append_note (Payout.notes payout)
                        ("Permanent failure: " +:+ err_message e);
               set_payout k (Payout.set_notes (Some note) payout) ;;
               log_event "payment_failed_permanent" (Some (PayoutRun.id run))
                 (Some (Payout.id payout))
                 [ ("error", JStr (err_message e));
                   ("status_code", JInt (err_status_code e)) ] ;;
               mret "failed"
           | ExcProvider e =>
               note ← append_note (Payout.notes payout)
                        ("Provider error after retries: " +:+ err_message e);
               set_payout k (Payout.set_notes (Some note) payout) ;;
               log_event "payment_failed_retries_exhausted"
                 (Some (PayoutRun.id run)) (Some (Payout.id payout))
                 [ ("error", JStr (err_message e));
                   ("status_code", JInt (err_status_code e)) ] ;;
               mret "failed"
           | ExcOther _ _ =>
               note ← append_note (Payout.notes payout)
                        ("Unexpected error: " +:+ exn_str exn);
               set_payout k (Payout.set_notes (Some note) payout) ;;
               log_event "payment_failed_unexpected" (Some (PayoutRun.id run))
                 (Some (Payout.id payout))
                 [ ("error", JStr (exn_str exn)) ] ;;
               mret "failed"
           end)).

(** The [Payout(...)] that the loop below creates for a recipient
    without a row; [n] is [len(investors)] and [h] the hexadecimal form
    of the UUID drawn for its [id]. *)
Definition new_payout (run : PayoutRun.t) (event : LiquidationEvent.t)
    (liquidation_event_id : string) (n : Z) (inv : Investor.t)
    (h : string) : Payout.t :=
  let share := (LiquidationEvent.total_amount event
                / Py.float_of_int (Z.max n 1))%float in
  {| Payout.id := Py.prefix 12 h;
     Payout.run_id := Some (PayoutRun.id run);
     Payout.liquidation_event_id := liquidation_event_id;
     Payout.investor_id := Investor.id inv;
     Payout.investor_name := Some (Investor.name inv);
     Payout.amount := round2 share;
     Payout.currency := Some "USD";
     Payout.country := Investor.country inv;
     Payout.payment_method := Investor.payment_method inv;
     Payout.has_aba_routing := Investor.has_aba_routing inv;
     Payout.external_account_id := Investor.external_account_id inv;
     Payout.rail := None; Payout.rail_subtype := None;
     Payout.rail_currency := None; Payout.fx_indicator := None;
     Payout.status := PENDING;
     Payout.skip_reason := None;
     Payout.payment_order_id := None;
     Payout.payment_order_type := None;
     Payout.notes := None |}.

(** The loop "Ensure a Payout record exists for each investor".
    [existing_payouts] is the dictionary built before the loop from the
    rows of this event (nothing in the loop changes an existing row
    except for its [run_id], so the dictionary's entry is the row);
    [n] is [len(investors)].  The result is the list [payouts] of
    references and the references of the rows added to the session. *)
Fixpoint ensure_payouts (run : PayoutRun.t) (event : LiquidationEvent.t)
    (liquidation_event_id : string)
    (existing_payouts : string → option Payout.t) (n : Z)
    (todo : list Investor.t) : M (list PayoutKey * list PayoutKey) :=
  match todo with
  | [] => mret ([], [])
  | inv :: todo' =>
      let k := (liquidation_event_id, Investor.id inv) in
      added ←
        match existing_payouts (Investor.id inv) with
        | Some payout =>
            (* Associate with this run if not already completed *)
            (if bool_decide (Payout.status payout ∉ [COMPLETED; SKIPPED])
             then set_payout k
                    (Payout.set_run_id (Some (PayoutRun.id run)) payout)
             else mret tt) ;;
            mret []
        | None =>
            (* Create new payout *)
            h ← uuid4;
            set_payout k (new_payout run event liquidation_event_id n inv h) ;;
            mret [k]
        end;
      '(payouts, added') ← ensure_payouts run event liquidation_event_id
                             existing_payouts n todo';
      mret (k :: payouts, added ++ added')
  end.

(** [session.flush()] after the loop: two new rows for one investor
    violate the unique constraint. *)
Definition flush_new_payouts (added : list PayoutKey) : M unit :=
  if bool_decide (NoDup added) then mret tt
  else raise (ExcOther "IntegrityError" "UNIQUE constraint failed: uq_event_investor").

(** The running totals of the loop "Process each payout". *)
Record Tally := {
  successes : Z;
  skipped : Z;
  failures : Z;
  skip_counts : list (string * Z);
}.

Fixpoint process_payouts (run : PayoutRun.t) (event : LiquidationEvent.t)
    (todo : list PayoutKey) (t : Tally) : M Tally :=
  match todo with
  | [] => mret t
  | k :: todo' =>
      result ← _process_single_payout run k event;
      t' ←
        (if bool_decide (result = "created") then
           mret {| successes := successes t + 1; skipped := skipped t;
                   failures := failures t; skip_counts := skip_counts t |}
         else if bool_decide (result = "skipped") then
           payout ← get_payout k;
           mret {| successes := successes t; skipped := skipped t + 1;
                   failures := failures t;
                   skip_counts :=
                     if Py.truthy_str (Payout.skip_reason payout)
                     then counter_incr
                            (Py.fmt_opt_str (Payout.skip_reason payout))
                            (skip_counts t)
                     else skip_counts t |}
         else if bool_decide (result = "failed") then
           mret {| successes := successes t; skipped := skipped t;
                   failures := failures t + 1; skip_counts := skip_counts t |}
         else mret t);
      process_payouts run event todo' t'
  end.

(** [session.add(run)] and [session.flush()]: the run becomes the last
    row of [payout_runs].  Its id is a UUID just drawn, which is taken to
    be new, so that the flush does not fail on the primary key. *)
Definition add_run (run : PayoutRun.t) : M unit :=
  modify (with_payout_runs (λ l, l ++ [run])).

(** The assignments to the attributes of the run.  The run is an object
    of the session: its row, which is the last one, as nothing else adds
    a run in between, shows the new values at once. *)
Definition update_run (run : PayoutRun.t) : M unit :=
  modify (with_payout_runs (λ l, removelast l ++ [run])).

(** [session.commit()].  The world is the session, which shows its
    pending changes as it shows the committed ones: a commit changes
    nothing in it. *)
Definition commit : M unit := mret tt.

(** The [PayoutRun(...)] that [execute_run] creates; [h] is the
    hexadecimal form of the UUID drawn for its [id].  The counts take the
    column default 0. *)
Definition new_run (liquidation_event_id : string) (h : string)
    : PayoutRun.t :=
  {| PayoutRun.id := uuid_str h;
     PayoutRun.liquidation_event_id := liquidation_event_id;
     PayoutRun.status := RUN_RUNNING;
     PayoutRun.created_count := 0;
     PayoutRun.skipped_count := 0;
     PayoutRun.failed_count := 0;
     PayoutRun.skip_breakdown := None;
     PayoutRun.completed_at := None |}.

(** The two assignments of the branch "event not found". *)
Definition failed_run (run : PayoutRun.t) (t : datetime) : PayoutRun.t :=
  {| PayoutRun.id := PayoutRun.id run;
     PayoutRun.liquidation_event_id := PayoutRun.liquidation_event_id run;
     PayoutRun.status := RUN_FAILED;
     PayoutRun.created_count := PayoutRun.created_count run;
     PayoutRun.skipped_count := PayoutRun.skipped_count run;
     PayoutRun.failed_count := PayoutRun.failed_count run;
     PayoutRun.skip_breakdown := PayoutRun.skip_breakdown run;
     PayoutRun.completed_at := Some t |}.

(** The assignments "Update run summary" of [execute_run]: the counts,
    the skip breakdown ([None] for an empty counter), the status and the
    completion time. *)
Definition completed_run (run : PayoutRun.t) (tally : Tally)
    (t : datetime) : PayoutRun.t :=
  {| PayoutRun.id := PayoutRun.id run;
     PayoutRun.liquidation_event_id := PayoutRun.liquidation_event_id run;
     PayoutRun.status := RUN_COMPLETED;
     PayoutRun.created_count := successes tally;
     PayoutRun.skipped_count := skipped tally;
     PayoutRun.failed_count := failures tally;
     PayoutRun.skip_breakdown :=
       match skip_counts tally with
       | [] => None
       | c => Some c
       end;
     PayoutRun.completed_at := Some t |}.

Definition execute_run (liquidation_event_id : string) : M PayoutRun.t :=
  (* Create run record *)
  h ← uuid4;
  let run := new_run liquidation_event_id h in
  add_run run ;;
  log_event "run_started" (Some (PayoutRun.id run)) None
    [ ("liquidation_event_id", JStr liquidation_event_id) ] ;;
  (* Load the liquidation event *)
  event ← gets (λ w, liquidation_events w !! liquidation_event_id);
  match event with
  | None =>
      t ← now;
      let run := failed_run run t in
      update_run run ;;
      log_event "run_failed" (Some (PayoutRun.id run)) None
        [ ("error", JStr ("Liquidation event not found: "
                          +:+ liquidation_event_id)) ] ;;
      commit ;;
      mret run
  | Some event =>
      (* Load existing payouts for this event *)
      rows ← gets payouts;
      let existing_payouts :=
        λ investor_id, rows !! (liquidation_event_id, investor_id) in
      (* Load investors *)
      investors ← gets investors;
      (* Ensure a Payout record exists for each investor *)
      '(payouts, added) ←
        ensure_payouts run event liquidation_event_id existing_payouts
          (Z.of_nat (length investors)) investors;
      flush_new_payouts added ;;
      (* Process each payout *)
      tally ← process_payouts run event payouts
                {| successes := 0; skipped := 0; failures := 0;
                   skip_counts := [] |};
      (* Update run summary *)
      t ← now;
      let run := completed_run run tally t in
      update_run run ;;
      log_event "run_completed" (Some (PayoutRun.id run)) None
        [ ("created", JInt (successes tally));
          ("skipped", JInt (skipped tally));
          ("failed", JInt (failures tally));
          ("skip_breakdown",
            JObj (map (λ kv, (kv.1, JInt kv.2)) (skip_counts tally))) ] ;;
      commit ;;
      mret run
  end.

End Engine.

(* ===================================================================== *)
(** * app/providers/mock_provider.py *)
(* ===================================================================== *)

(** The mock provider.  Its draws from [random] and [uuid] are the streams
    [rolls] and [hexes], read at the number of calls made so far; the
    simulated latency (a sleep inside the provider) is not modelled. *)
Module MockPaymentProvider.
Record t := {
  _failure_rate : float;
  rolls : nat → float;      (* random.random() of the k-th call *)
  hexes : nat → string;     (* uuid.uuid4().hex of the k-th call *)
  calls : nat;
}.

Definition name (self : t) : string := "mock_provider".

Definition create_payment_order `{PyRuntime} (self : t)
    (request : PaymentOrderRequest.t) : Res PaymentOrderResponse.t * t :=
  let self' := {| _failure_rate := _failure_rate self; rolls := rolls self;
                  hexes := hexes self; calls := S (calls self) |} in
  let roll := rolls self (calls self) in
  (* 0.3 and 0.6 below are written as the binary64 values they denote *)
  if PrimFloat.ltb roll (_failure_rate self * 0x1.3333333333333p-2)%float then
    (* Rate limit (retriable) *)
    (Raise (ExcProvider
              (RateLimitError "Mock rate limit — too many requests"
                 (Some 1%float))), self')
  else if PrimFloat.ltb roll (_failure_rate self * 0x1.3333333333333p-1)%float then
    (* Transient server error (retriable) *)
    (Raise (ExcProvider
              (BaseProviderError
                 "Mock transient error — service temporarily unavailable"
                 503 true)), self')
  else if PrimFloat.ltb roll (_failure_rate self) then
    (* Permanent failure (not retriable) *)
    (Raise (ExcProvider
              (PermanentError
                 "Mock permanent error — invalid account details" 400)),
     self')
  else
    let po_id := "po_" +:+ PaymentOrderRequest.payment_type request +:+ "_"
                 +:+ Py.prefix 16 (hexes self (calls self)) in
    (Return
       {| PaymentOrderResponse.payment_order_id := po_id;
          PaymentOrderResponse.status := "pending";
          PaymentOrderResponse.provider := name self;
          PaymentOrderResponse.message :=
            Py.upper (PaymentOrderRequest.payment_type request)
            +:+ " payment order created ("
            +:+ PaymentOrderRequest.currency request +:+ " "
            +:+ fmt_hundredths (PaymentOrderRequest.amount_cents request)
            +:+ ")" |}, self').
End MockPaymentProvider.

#[export] Instance MockPaymentProvider_provider `{PyRuntime}
    : PaymentProvider MockPaymentProvider.t :=
  {| provider_name := MockPaymentProvider.name;
     create_payment_order := MockPaymentProvider.create_payment_order |}.

(** A deterministic test double: the provider answers the successive calls
    with the outcomes of a script, and with a [RuntimeError] once the script
    is used up. *)
#[export] Instance ScriptedProvider
    : PaymentProvider (list (Res PaymentOrderResponse.t)) :=
  {| provider_name := λ _, "scripted";
     create_payment_order := λ script _,
       match script with
       | r :: script' => (r, script')
       | [] => (Raise (ExcOther "RuntimeError" "script exhausted"), [])
       end |}.

(* ===================================================================== *)
(** * Sample data for the examples *)
(* ===================================================================== *)

Module Sample.

Definition hex_digit (n : N) : ascii :=
  ascii_of_N (if (n <? 10)%N then 48 + n else 87 + n).

Fixpoint hex_pad (digits : nat) (n : N) (acc : string) : string :=
  match digits with
  | O => acc
  | S d => hex_pad d (n / 16)%N (String (hex_digit (n mod 16)%N) acc)
  end.

(** A runtime for the examples: the clock prints its reading number, the
    UUID source counts, floats print as their integer part of cents. *)
#[export] Instance runtime : PyRuntime :=
  {| float_str := λ x,
       "float:" +:+ hex_pad 8 (Z.to_N (default 0 (Py.int_round (x * 100)%float))) "";
     round2 := λ x,
       match Py.int_round (x * 100)%float with
       | Some n => (Py.float_of_int n / 100)%float
       | None => x
       end;
     strftime_minute := λ k, "t" +:+ hex_pad 4 (N.of_nat k) "";
     uuid4_hex := λ k, hex_pad 12 (N.of_nat k) "" +:+ "00000000000000000000";
     fmt_hundredths := λ n, hex_pad 8 (Z.to_N n) "" |}.

Definition investor (id country method : string)
    (account : option string) (aba : Z) : Investor.t :=
  {| Investor.id := id; Investor.name := "Investor " +:+ id;
     Investor.country := Some country;
     Investor.payment_method := Some method;
     Investor.external_account_id := account;
     Investor.has_aba_routing := Some aba |}.

(** The fixture of tests/conftest.py. *)
Definition seeded_investors : list Investor.t :=
  [ investor "INV-001" "US" "ACH" (Some "ext_us_001") 0;
    investor "INV-010" "DE" "ACH" (Some "ext_de_001") 0;
    investor "INV-030" "GB" "ACH" (Some "ext_gb_001") 0;
    investor "INV-038" "JP" "ACH" (Some "ext_jp_001") 0;
    investor "INV-050" "JP" "ACH" (Some "ext_jp_wise") 1;
    investor "INV-052" "AE" "Wire" (Some "ext_ae_001") 0;
    investor "INV-060" "US" "ACH" None 0;
    investor "INV-061" "US" "Crypto" (Some "ext_c_001") 0 ].

Definition event : LiquidationEvent.t :=
  {| LiquidationEvent.id := "LIQ-TEST-001";
     LiquidationEvent.name := "Test Liquidation";
     LiquidationEvent.total_amount := 800000%float;
     LiquidationEvent.payout_date := Some "2024-12-15";
     LiquidationEvent.status := Some "pending" |}.

Definition world {PS} (ps : PS) (invs : list Investor.t)
    (rows : list Payout.t) : @World PS :=
  {| liquidation_events := {[ "LIQ-TEST-001" := event ]};
     investors := invs;
     payouts := list_to_map
                  (map (λ p, ((Payout.liquidation_event_id p,
                               Payout.investor_id p), p)) rows);
     payout_runs := []; audit_logs := [];
     provider_state := ps; io_trace := []; clock := 0; uuids := 0 |}.

(** An existing row of the event for a recipient. *)
Definition payout (investor_id : string) (status : PayoutStatus)
    (payment_order_id notes : option string) : Payout.t :=
  {| Payout.id := "row-" +:+ investor_id;
     Payout.run_id := Some "an-earlier-run";
     Payout.liquidation_event_id := "LIQ-TEST-001";
     Payout.investor_id := investor_id;
     Payout.investor_name := Some ("Investor " +:+ investor_id);
     Payout.amount := 1000%float;
     Payout.currency := Some "USD";
     Payout.country := Some "US";
     Payout.payment_method := Some "ACH";
     Payout.has_aba_routing := Some 0;
     Payout.external_account_id := Some "ext_us_001";
     Payout.rail := Some "CCD"; Payout.rail_subtype := Some "CCD";
     Payout.rail_currency := Some "USD"; Payout.fx_indicator := None;
     Payout.status := status;
     Payout.skip_reason := None;
     Payout.payment_order_id := payment_order_id;
     Payout.payment_order_type := Some "ACH (US)";
     Payout.notes := notes |}.

Definition request : PaymentOrderRequest.t :=
  {| PaymentOrderRequest.payment_type := "ach";
     PaymentOrderRequest.subtype := Some "CCD";
     PaymentOrderRequest.amount_cents := 100000;
     PaymentOrderRequest.currency := "USD";
     PaymentOrderRequest.direction := "credit";
     PaymentOrderRequest.originating_account_id := "internal_usd_001";
     PaymentOrderRequest.receiving_account_id := "ext_us_001";
     PaymentOrderRequest.effective_date := Some "2024-12-15";
     PaymentOrderRequest.description := "Payout to John Smith";
     PaymentOrderRequest.statement_descriptor := "INV-001";
     PaymentOrderRequest.purpose := None;
     PaymentOrderRequest.fx_indicator := None;
     PaymentOrderRequest.metadata := None |}.

Definition response : PaymentOrderResponse.t :=
  {| PaymentOrderResponse.payment_order_id := "po_ach_0001";
     PaymentOrderResponse.status := "pending";
     PaymentOrderResponse.provider := "scripted";
     PaymentOrderResponse.message := "" |}.

Definition run : PayoutRun.t :=
  {| PayoutRun.id := "a-run";
     PayoutRun.liquidation_event_id := "LIQ-TEST-001";
     PayoutRun.status := RUN_RUNNING;
     PayoutRun.created_count := 0; PayoutRun.skipped_count := 0;
     PayoutRun.failed_count := 0; PayoutRun.skip_breakdown := None;
     PayoutRun.completed_at := None |}.

(** The value a computation returned, [d] if it raised. *)
Definition returned {A} (d : A) (r : Res A) : A :=
  match r with Return a => a | Raise _ => d end.

(** [MockPaymentProvider(failure_rate=0.0, latency_ms=0)]. *)
Definition always_succeeds : MockPaymentProvider.t :=
  {| MockPaymentProvider._failure_rate := 0%float;
     MockPaymentProvider.rolls := λ _, 0.5%float;
     MockPaymentProvider.hexes :=
       λ k, hex_pad 16 (N.of_nat k) "" +:+ "0000000000000000";
     MockPaymentProvider.calls := 0 |}.

End Sample.

(* ===================================================================== *)
(** * The eligibility gate as the specification words it *)
(* ===================================================================== *)

Module Spec.

(** "existing order id is set". *)
Definition order_id_set (o : option string) : bool :=
  match o with
  | Some s => negb (bool_decide (s = ""))
  | None => false
  end.

(** "payment method is absent or not one of the two allowed values". *)
Definition method_invalid (m : option string) : bool :=
  match m with
  | Some s => negb (bool_decide (s = "ACH" ∨ s = "Wire"))
  | None => true
  end.

(** "amount is absent, zero, or negative". *)
Definition amount_invalid (a : option float) : bool :=
  match a with
  | Some x => PrimFloat.eqb x 0%float || PrimFloat.ltb x 0%float
  | None => true
  end.

(** "absent or empty". *)
Definition absent_or_empty (o : option string) : bool :=
  match o with
  | Some s => bool_decide (s = "")
  | None => true
  end.

(** The five checks of section 4.1, in their order. *)
Definition gate_checks (payment_method : option string)
    (amount : option float) (external_account_id country : option string)
    (existing_order_id : option string) : list (bool * SkipReason) :=
  [ (order_id_set existing_order_id, EXISTING_PAYMENT_ORDER);
    (method_invalid payment_method, INVALID_METHOD);
    (amount_invalid amount, INVALID_AMOUNT);
    (absent_or_empty external_account_id, MISSING_EXTERNAL_ACCOUNT);
    (absent_or_empty country, MISSING_COUNTRY) ].

(** "first failing check wins". *)
Fixpoint first_failing (checks : list (bool * SkipReason))
    : option SkipReason :=
  match checks with
  | [] => None
  | (fails, reason) :: checks' =>
      if fails then Some reason else first_failing checks'
  end.

End Spec.


(* ===================================================================== *)
(** * Vocabulary for the statements about rails *)
(* ===================================================================== *)

(** The three kinds of decision, without the label. *)
Definition is_domestic_ach (d : RailDecision) : Prop :=
  payment_type d = "ach" ∧ subtype d = Some "CCD" ∧ currency d = "USD"
  ∧ fx_indicator d = None.

Definition is_cross_border_of (cfg : RailConfig) (d : RailDecision) : Prop :=
  payment_type d = "cross_border" ∧ subtype d = Some (rc_subtype cfg)
  ∧ Some (currency d) = rc_currency cfg ∧ purpose d = rc_purpose cfg
  ∧ fx_indicator d = Some "fixed_to_variable".

Definition is_wire_fallback (d : RailDecision) : Prop :=
  payment_type d = "wire" ∧ currency d = "USD" ∧ subtype d = None
  ∧ fx_indicator d = None.


(* ===================================================================== *)
(** * Vocabulary for the statements about retries and runs *)
(* ===================================================================== *)

(** [provider.create_payment_order] raising the provider error [e]. *)
Definition fails (e : ProviderError) : Res PaymentOrderResponse.t :=
  Raise (ExcProvider e).

Section Scripts.
  Context {PS : Type} `{PaymentProvider PS}.

(** From state [ps], the provider answers successive calls with
    [request] by the outcomes of [script], in order. *)
Fixpoint answers (ps : PS) (request : PaymentOrderRequest.t)
    (script : list (Res PaymentOrderResponse.t)) : Prop :=
  match script with
  | [] => True
  | r :: script' =>
      (create_payment_order ps request).1 = r
      ∧ answers (create_payment_order ps request).2 request script'
  end.

(** The provider state after [n] calls with [request]. *)
Fixpoint provider_after (ps : PS) (request : PaymentOrderRequest.t)
    (n : nat) : PS :=
  match n with
  | O => ps
  | S n' => provider_after (create_payment_order ps request).2 request n'
  end.

(** From every state in [good] the provider succeeds, returns a
    non-empty order id and stays in [good]. *)
Definition succeeds_from (good : PS → Prop) : Prop :=
  ∀ ps request, good ps →
    ∃ response,
      (create_payment_order ps request).1 = Return response
      ∧ PaymentOrderResponse.payment_order_id response ≠ ""
      ∧ good (create_payment_order ps request).2.
End Scripts.

(** The states of the mock provider from which it cannot fail: a failure
    rate of zero and rolls that are not negative (as [random.random()]
    gives them). *)
Definition mock_never_fails (ps : MockPaymentProvider.t) : Prop :=
  MockPaymentProvider._failure_rate ps = 0%float
  ∧ ∀ n, PrimFloat.ltb (MockPaymentProvider.rolls ps n) 0%float = false.

Definition is_call (io : IO) : bool :=
  match io with IOCall _ => true | IOSleep _ => false end.

(** The number of provider invocations in a trace. *)
Definition count_calls (trace : list IO) : nat := length (filter is_call trace).

(** The waits of a trace, in order. *)
Definition sleeps_of (trace : list IO) : list float :=
  omap (λ io, match io with IOSleep d => Some d | IOCall _ => None end) trace.

(** The requests of a trace, in order. *)
Definition calls_of (trace : list IO) : list PaymentOrderRequest.t :=
  omap (λ io, match io with IOCall r => Some r | IOSleep _ => None end) trace.

(** What a computation added to the trace of [w]. *)
Definition new_io {PS} (w w' : @World PS) : list IO :=
  drop (length (io_trace w)) (io_trace w').

(** The waits the retry loop performs for the retriable errors [errs],
    starting from the delay [delay]. *)
Fixpoint waits (delay : float) (errs : list ProviderError) : list float :=
  match errs with
  | [] => []
  | e :: errs' =>
      sleep_for delay e :: waits (Py.min (delay * 2)%float MAX_DELAY) errs'
  end.

(** The trace of a call that fails with each error in turn and is retried. *)
Definition retried (request : PaymentOrderRequest.t) (ws : list float)
    : list IO :=
  flat_map (λ d, [IOCall request; IOSleep d]) ws.

(** The current delay after [i] retriable failures. *)
Fixpoint delay_after (i : nat) : float :=
  match i with
  | O => BASE_DELAY
  | S i' => Py.min (delay_after i' * 2)%float MAX_DELAY
  end.

Module RetrySpec.
(** "base delay 1, doubling after each retriable failure, capped at 30":
    the wait after the [i]-th failure, [i] counted from 1. *)
Definition backoff (i : nat) : float :=
  Py.float_of_int (Z.min (2 ^ (Z.of_nat i - 1)) 30).

(** The wait as the claim states it: a rate-limit error that carries a
    hint waits [min(hint, 30)]. *)
Definition claimed_wait (i : nat) (e : ProviderError) : float :=
  match e with
  | RateLimitError _ (Some hint) => Py.min hint MAX_DELAY
  | _ => backoff i
  end.

(** The wait of the code: a hint of zero counts as no hint. *)
Definition wait (i : nat) (e : ProviderError) : float :=
  match e with
  | RateLimitError _ (Some hint) =>
      if PrimFloat.eqb hint 0%float then backoff i
      else Py.min hint MAX_DELAY
  | _ => backoff i
  end.
End RetrySpec.

(** The gate's verdict on a payout as [_process_single_payout] asks for
    it. *)
Definition eligibility_of `{PyRuntime} (p : Payout.t) : EligibilityResult :=
  check_eligibility (Payout.payment_method p) (Some (Payout.amount p))
    (Payout.external_account_id p) (Payout.country p)
    (Payout.payment_order_id p).

(** The decision [_process_single_payout] takes for a payout. *)
Definition rail_of (p : Payout.t) : RailDecision :=
  select_rail (Payout.country p) (Payout.payment_method p)
    (Py.truthy_int (Payout.has_aba_routing p)).

(** Two states of a payout with the same routing fields. *)
Definition same_routing (p p' : Payout.t) : Prop :=
  Payout.rail p' = Payout.rail p
  ∧ Payout.rail_subtype p' = Payout.rail_subtype p
  ∧ Payout.rail_currency p' = Payout.rail_currency p
  ∧ Payout.fx_indicator p' = Payout.fx_indicator p
  ∧ Payout.payment_order_type p' = Payout.payment_order_type p.

(** Two states of a payout that agree on what the run copies from the
    recipient and never writes again. *)
Definition same_snapshot (p p' : Payout.t) : Prop :=
  Payout.id p' = Payout.id p
  ∧ Payout.liquidation_event_id p' = Payout.liquidation_event_id p
  ∧ Payout.investor_id p' = Payout.investor_id p
  ∧ Payout.investor_name p' = Payout.investor_name p
  ∧ Payout.amount p' = Payout.amount p
  ∧ Payout.currency p' = Payout.currency p
  ∧ Payout.country p' = Payout.country p
  ∧ Payout.payment_method p' = Payout.payment_method p
  ∧ Payout.has_aba_routing p' = Payout.has_aba_routing p
  ∧ Payout.external_account_id p' = Payout.external_account_id p.

(** [new] is [old], possibly with text appended (an absent [old] counts
    as empty). *)
Definition notes_extend (old new : option string) : Prop :=
  new = old ∨ ∃ suffix, new = Some (Py.str_or old "" +:+ suffix).

(** The text [append_note] returns at clock reading [t]. *)
Definition note_text `{PyRuntime} (existing_notes : option string)
    (t : datetime) (message : string) : string :=
  let new_note := "[" +:+ strftime_minute t +:+ "] " +:+ message in
  if negb (Py.truthy_str existing_notes) then new_note
  else Py.fmt_opt_str existing_notes +:+ String "010" new_note.

(** A note with the text [message] has been appended to the notes [old]
    (an absent [old] counts as empty): [new] is [old], then [between],
    which ends the line before the note and holds what was appended
    earlier, then the note with its time stamp. *)
Definition note_appended `{PyRuntime} (old new : option string)
    (message : string) : Prop :=
  ∃ between t,
    new = Some (Py.str_or old "" +:+ between
                +:+ "[" +:+ strftime_minute t +:+ "] " +:+ message).

(** The payout after the five routing assignments. *)
Definition routed (p : Payout.t) : Payout.t :=
  Payout.set_routing
    (Py.opt_or (subtype (rail_of p)) (Some (payment_type (rail_of p))))
    (subtype (rail_of p)) (Some (currency (rail_of p)))
    (fx_indicator (rail_of p)) (Some (label (rail_of p))) p.

(** The return value of [_process_single_payout] for an outcome of the
    provider call. *)
Definition outcome_of {A} (r : Res A) : string :=
  match r with Return _ => "created" | Raise _ => "failed" end.

(** Two worlds that differ in the session only: same recipients and
    events, same provider state, same trace. *)
Definition session_only {PS} (w w' : @World PS) : Prop :=
  io_trace w' = io_trace w ∧ provider_state w' = provider_state w
  ∧ investors w' = investors w
  ∧ liquidation_events w' = liquidation_events w.

(** The sum of the three buckets of a tally. *)
Definition tally_total (t : Tally) : Z := successes t + skipped t + failures t.

(** The tally after one payout, as the loop "Process each payout" updates
    it from the result of the transition and the payout's skip reason. *)
Definition tally_add (result : string) (payout : Payout.t) (t : Tally)
    : Tally :=
  if bool_decide (result = "created") then
    {| successes := successes t + 1; skipped := skipped t;
       failures := failures t; skip_counts := skip_counts t |}
  else if bool_decide (result = "skipped") then
    {| successes := successes t; skipped := skipped t + 1;
       failures := failures t;
       skip_counts :=
         if Py.truthy_str (Payout.skip_reason payout)
         then counter_incr (Py.fmt_opt_str (Payout.skip_reason payout))
                (skip_counts t)
         else skip_counts t |}
  else if bool_decide (result = "failed") then
    {| successes := successes t; skipped := skipped t;
       failures := failures t + 1; skip_counts := skip_counts t |}
  else t.

(** A payout that needs no provider call any more: the gate rejects it,
    and if it is completed it has its order id. *)
Definition settled `{PyRuntime} (p : Payout.t) : Prop :=
  eligible (eligibility_of p) = false
  ∧ (Payout.status p = COMPLETED →
     Py.truthy_str (Payout.payment_order_id p) = true).

(** The references [execute_run] collects for a list of recipients. *)
Definition payout_keys (liquidation_event_id : string)
    (investors : list Investor.t) : list PayoutKey :=
  (λ inv, (liquidation_event_id, Investor.id inv)) <$> investors.

(** What the loop "Ensure a Payout record exists" may do to an existing
    row [p0]: nothing, or attach it to the run when it is neither
    completed nor skipped. *)
Definition reattached (run : PayoutRun.t) (p0 p : Payout.t) : Prop :=
  p = p0
  ∨ ((Payout.status p0 ∉ [COMPLETED; SKIPPED])
     ∧ p = Payout.set_run_id (Some (PayoutRun.id run)) p0).

(** The empty tally the loop starts from. *)
Definition tally0 : Tally :=
  {| successes := 0; skipped := 0; failures := 0; skip_counts := [] |}.

(** Two states of a payout between which it was at most skipped again:
    what the run copied from the recipient, the routing fields, the run
    and the order id are the same, the notes may have grown. *)
Definition reskipped (p p' : Payout.t) : Prop :=
  same_snapshot p p' ∧ same_routing p p'
  ∧ Payout.run_id p' = Payout.run_id p
  ∧ Payout.payment_order_id p' = Payout.payment_order_id p
  ∧ notes_extend (Payout.notes p) (Payout.notes p').

(* ===================================================================== *)
(** * Examples *)
(* ===================================================================== *)

Module Examples.
  Import Sample.

Definition evid : string := "LIQ-TEST-001".
Definition key1 : PayoutKey := (evid, "INV-001").

(** One recipient whose payout was completed with order id "po_123". *)
Definition w_paid : @World MockPaymentProvider.t :=
  world always_succeeds
    [investor "INV-001" "US" "ACH" (Some "ext_us_001") 0]
    [payout "INV-001" COMPLETED (Some "po_123") (Some "paid")].

(** The same recipient, with a pending payout whose order id is the
    empty string. *)
Definition w_empty_id : @World MockPaymentProvider.t :=
  world always_succeeds
    [investor "INV-001" "US" "ACH" (Some "ext_us_001") 0]
    [payout "INV-001" PENDING (Some "") None].

(** Two recipients without payouts: one eligible, one without a bank
    account. *)
Definition w_two : @World MockPaymentProvider.t :=
  world always_succeeds
    [investor "INV-001" "US" "ACH" (Some "ext_us_001") 0;
     investor "INV-060" "US" "ACH" None 0] [].

(** The fixture of the tests. *)
Definition w_seeded : @World MockPaymentProvider.t :=
  world always_succeeds seeded_investors [].

(** A scripted provider. *)
Definition w_script (script : list (Res PaymentOrderResponse.t))
    : @World (list (Res PaymentOrderResponse.t)) :=
  world script [] [].

Definition rate_limited (hint : option float) : ProviderError :=
  RateLimitError "Rate limited" hint.
Definition unavailable : ProviderError :=
  BaseProviderError "Service unavailable" 503 true.

End Examples.

(* ===================================================================== *)
(** * Further definitions of the source *)
(* ===================================================================== *)

(** [RailDecision.is_cross_border] (app/routing/rail_selector.py). *)
Definition is_cross_border (self : RailDecision) : bool :=
  bool_decide (payment_type self = "cross_border").

(** [SUPPORTED_COUNTRIES = {"US"} | set(GLOBAL_ACH_MAP.keys())]
    (app/routing/country_rails.py). *)
Definition SUPPORTED_COUNTRIES : gset string :=
  {[ "US" ]} ∪ dom GLOBAL_ACH_MAP.

(* ===================================================================== *)
(** * Further vocabulary for the statements about retries *)
(* ===================================================================== *)

(** An answer of the provider after which [with_retry] does not try
    again: a response, a provider error that is not retriable, or an
    exception of another class. *)
Definition final_answer (r : Res PaymentOrderResponse.t) : bool :=
  match r with
  | Raise (ExcProvider e) => negb (err_retriable e)
  | Raise (ExcOther _ _) | Return _ => true
  end.

(** The retry-after hint of a rate-limit error is NaN. *)
Definition hint_is_nan (e : ProviderError) : bool :=
  match e with
  | RateLimitError _ (Some hint) => PrimFloat.is_nan hint
  | _ => false
  end.

(* ===================================================================== *)
(** * Further vocabulary for the statements about runs *)
(* ===================================================================== *)

(** The audit action [_process_single_payout] records for an exception
    that left the retry wrapper, by the [except] clause that catches
    it. *)
Definition failure_action (exn : Exn) : string :=
  match exn with
  | ExcProvider (PermanentError _ _) => "payment_failed_permanent"
  | ExcProvider _ => "payment_failed_retries_exhausted"
  | ExcOther _ _ => "payment_failed_unexpected"
  end.

(** The values of [SkipReason] that the eligibility gate can give. *)
Definition GATE_REASONS : list string :=
  [ "existing_payment_order"; "invalid_method"; "invalid_amount";
    "missing_external_account"; "missing_country" ].

(** The sum of the counts of a [Counter]. *)
Definition counter_total (c : list (string * Z)) : Z :=
  foldr (λ kv n, kv.2 + n) 0 c.

(** Two states of a payout row between which no run may tell them apart
    as recipients: what was copied from the recipient is the same, and an
    order id, once set, is the same. *)
Definition kept (p p' : Payout.t) : Prop :=
  same_snapshot p p'
  ∧ (Py.truthy_str (Payout.payment_order_id p) = true →
     Payout.payment_order_id p' = Payout.payment_order_id p).

Section Frames.
  Context {PS : Type} `{PaymentProvider PS} `{PyRuntime}.

(** A computation that takes every world to one related to it by [R],
    whether it returns or raises. *)
Definition preserves {A} (R : relation (@World PS)) (m : @M PS A) : Prop :=
  ∀ w, R w (m w).2.

(** Append-only: recipients and events are the same, the audit log, the
    table of runs and the trace have only grown at their end, no payout
    row has disappeared, and the clock and the UUID source have not
    gone back. *)
Definition grows (w w' : @World PS) : Prop :=
  investors w' = investors w
  ∧ liquidation_events w' = liquidation_events w
  ∧ audit_logs w `prefix_of` audit_logs w'
  ∧ payout_runs w `prefix_of` payout_runs w'
  ∧ io_trace w `prefix_of` io_trace w'
  ∧ dom (payouts w) ⊆ dom (payouts w')
  ∧ (clock w ≤ clock w')%nat ∧ (uuids w ≤ uuids w')%nat.

(** The rows of the runs are the same. *)
Definition same_runs (w w' : @World PS) : Prop :=
  payout_runs w' = payout_runs w.

(** The audit log has grown by entries that all satisfy [P]. *)
Definition logged (P : AuditLog.t → Prop) (w w' : @World PS) : Prop :=
  ∃ new, audit_logs w' = audit_logs w ++ new ∧ Forall P new.

(** An audit entry of the run [rid] about some payout. *)
Definition payout_entry_of (rid : string) (e : AuditLog.t) : Prop :=
  AuditLog.run_id e = Some rid ∧ is_Some (AuditLog.payout_id e).

(** The first steps of [execute_run]: the run record with its fresh id,
    and the world after the run was added and flushed and the
    "run_started" entry written. *)
Definition run_started (liquidation_event_id : string) (w : @World PS)
    : PayoutRun.t * @World PS :=
  let run := new_run liquidation_event_id (uuid4_hex (uuids w)) in
  (run,
   (log_event "run_started" (Some (PayoutRun.id run)) None
      [ ("liquidation_event_id", JStr liquidation_event_id) ]
      (with_payout_runs (λ l, l ++ [run])
         (with_uuids (S (uuids w)) w))).2).

(** The last steps of [execute_run] on either path: the assignments
    that make the run record [run t], completed at the reading [t] of
    the clock, its audit entry, the commit. *)
Definition close_run (action : string) (run : datetime → PayoutRun.t)
    (details : list (string * JSON)) : @M PS PayoutRun.t :=
  t ← now;
  update_run (run t) ;;
  log_event action (Some (PayoutRun.id (run t))) None details ;;
  commit ;;
  mret (run t).

(** The details of the "run_completed" entry. *)
Definition completed_details (tally : Tally) : list (string * JSON) :=
  [ ("created", JInt (successes tally));
    ("skipped", JInt (skipped tally));
    ("failed", JInt (failures tally));
    ("skip_breakdown",
      JObj (map (λ kv, (kv.1, JInt kv.2)) (skip_counts tally))) ].

End Frames.

(** A skip breakdown [c] that fits a count [n] of skipped payouts: its
    counts add up to [n], no reason is listed twice, every reason is one
    the gate gives and every count is positive. *)
Definition breakdown_ok (c : list (string * Z)) (n : Z) : Prop :=
  counter_total c = n
  ∧ NoDup c.*1
  ∧ Forall (λ kv, kv.1 ∈ GATE_REASONS ∧ 0 < kv.2) c.

(** The amount of a payout that a run creates for an event with [n]
    recipients: [round(event.total_amount / max(n, 1), 2)]. *)
Definition share_of `{PyRuntime} (event : LiquidationEvent.t) (n : Z)
    : float :=
  round2 (LiquidationEvent.total_amount event
          / Py.float_of_int (Z.max n 1))%float.

(** A payout a run is done with: completed, skipped or failed, and with
    an order id if it is completed. *)
Definition closed (p : Payout.t) : Prop :=
  Payout.status p ∈ [COMPLETED; SKIPPED; FAILED]
  ∧ (Payout.status p = COMPLETED →
     Py.truthy_str (Payout.payment_order_id p) = true).

(** A provider whose responses all carry an order id that is not
    empty. *)
Definition gives_order_ids (PS : Type) `{PaymentProvider PS} : Prop :=
  ∀ ps request response,
    (create_payment_order ps request).1 = Return response →
    PaymentOrderResponse.payment_order_id response ≠ "".

(* ===================================================================== *)
(** * seed/seed_data.py *)
(* ===================================================================== *)

(** One entry of [INVESTORS], as the constructor call of the seeding loop reads it. *)
Definition seeded (id name : string) (country : option string)
    (payment_method : string) (external_account_id : option string)
    (has_aba_routing : Z) : Investor.t :=
  {| Investor.id := id; Investor.name := name;
     Investor.country := country;
     Investor.payment_method := Some payment_method;
     Investor.external_account_id := external_account_id;
     Investor.has_aba_routing := Some has_aba_routing |}.

Definition INVESTORS : list Investor.t :=
  [
    seeded "INV-001" "John Smith" (Some "US") "ACH" (Some "ext_us_001") 0;
    seeded "INV-002" "Sarah Johnson" (Some "US") "ACH" (Some "ext_us_002") 0;
    seeded "INV-003" "Michael Davis" (Some "US") "ACH" (Some "ext_us_003") 0;
    seeded "INV-004" "Emily Wilson" (Some "US") "Wire" (Some "ext_us_004") 0;
    seeded "INV-005" "Robert Brown" (Some "US") "ACH" (Some "ext_us_005") 0;
    seeded "INV-006" "Jessica Martinez" (Some "US") "ACH" (Some "ext_us_006") 0;
    seeded "INV-007" "David Lee" (Some "US") "ACH" (Some "ext_us_007") 0;
    seeded "INV-008" "Amanda Taylor" (Some "US") "ACH" (Some "ext_us_008") 0;
    seeded "INV-010" "Hans Mueller" (Some "DE") "ACH" (Some "ext_de_001") 0;
    seeded "INV-011" "Pierre Dupont" (Some "FR") "ACH" (Some "ext_fr_001") 0;
    seeded "INV-012" "Carlos Garcia" (Some "ES") "ACH" (Some "ext_es_001") 0;
    seeded "INV-013" "Jan van der Berg" (Some "NL") "ACH" (Some "ext_nl_001") 0;
    seeded "INV-014" "Marco Rossi" (Some "IT") "ACH" (Some "ext_it_001") 0;
    seeded "INV-015" "Lukas Gruber" (Some "AT") "ACH" (Some "ext_at_001") 0;
    seeded "INV-016" "Sophie Janssens" (Some "BE") "ACH" (Some "ext_be_001") 0;
    seeded "INV-017" "Liam O'Connor" (Some "IE") "ACH" (Some "ext_ie_001") 0;
    seeded "INV-018" "Joao Silva" (Some "PT") "ACH" (Some "ext_pt_001") 0;
    seeded "INV-019" "Mika Virtanen" (Some "FI") "ACH" (Some "ext_fi_001") 0;
    seeded "INV-020" "Nikos Papadopoulos" (Some "GR") "Wire" (Some "ext_gr_001") 0;
    seeded "INV-021" "Marc Schmit" (Some "LU") "ACH" (Some "ext_lu_001") 0;
    seeded "INV-022" "Maris Ozols" (Some "LV") "ACH" (Some "ext_lv_001") 0;
    seeded "INV-023" "Tomas Kazlauskas" (Some "LT") "ACH" (Some "ext_lt_001") 0;
    seeded "INV-030" "James Thompson" (Some "GB") "ACH" (Some "ext_gb_001") 0;
    seeded "INV-031" "Charlotte Williams" (Some "GB") "Wire" (Some "ext_gb_002") 0;
    seeded "INV-032" "Alexandre Tremblay" (Some "CA") "ACH" (Some "ext_ca_001") 0;
    seeded "INV-033" "Felix Brunner" (Some "CH") "ACH" (Some "ext_ch_001") 0;
    seeded "INV-034" "Piotr Kowalski" (Some "PL") "ACH" (Some "ext_pl_001") 0;
    seeded "INV-035" "Jack Mitchell" (Some "AU") "ACH" (Some "ext_au_001") 0;
    seeded "INV-036" "Wei Lin Tan" (Some "SG") "ACH" (Some "ext_sg_001") 0;
    seeded "INV-037" "Raj Patel" (Some "IN") "ACH" (Some "ext_in_001") 0;
    seeded "INV-038" "Yuki Tanaka" (Some "JP") "ACH" (Some "ext_jp_001") 0;
    seeded "INV-039" "Lars Andersen" (Some "DK") "ACH" (Some "ext_dk_001") 0;
    seeded "INV-040" "Olivia Campbell" (Some "NZ") "ACH" (Some "ext_nz_001") 0;
    seeded "INV-041" "Erik Hansen" (Some "NO") "ACH" (Some "ext_no_001") 0;
    seeded "INV-042" "Ka Wing Chan" (Some "HK") "ACH" (Some "ext_hk_001") 0;
    seeded "INV-043" "Anna Lindqvist" (Some "SE") "ACH" (Some "ext_se_001") 0;
    seeded "INV-044" "Andrei Popescu" (Some "RO") "ACH" (Some "ext_ro_001") 0;
    seeded "INV-045" "Maria Hernandez" (Some "MX") "ACH" (Some "ext_mx_001") 0;
    seeded "INV-046" "Noam Levy" (Some "IL") "ACH" (Some "ext_il_001") 0;
    seeded "INV-047" "Budi Santoso" (Some "ID") "ACH" (Some "ext_id_001") 0;
    seeded "INV-048" "Gabor Nagy" (Some "HU") "ACH" (Some "ext_hu_001") 0;
    seeded "INV-050" "Kenji Watanabe" (Some "JP") "ACH" (Some "ext_jp_wise_001") 1;
    seeded "INV-051" "Ana Soares" (Some "BR") "ACH" (Some "ext_br_merc_001") 1;
    seeded "INV-052" "Omar Al-Rashid" (Some "AE") "Wire" (Some "ext_ae_001") 0;
    seeded "INV-053" "Kim Soo-Jin" (Some "KR") "Wire" (Some "ext_kr_001") 0;
    seeded "INV-060" "Ghost Investor" (Some "US") "ACH" None 0;
    seeded "INV-061" "Crypto Only" (Some "US") "Crypto" (Some "ext_crypto_001") 0;
    seeded "INV-062" "Unknown Origin" None "ACH" (Some "ext_unknown_001") 0 ].

Definition LIQUIDATION_EVENTS : list LiquidationEvent.t :=
  [
    {| LiquidationEvent.id := "LIQ-2024-001";
       LiquidationEvent.name := "Asset Liquidation #127 — Q4 2024";
       LiquidationEvent.total_amount := 2450000%float;
       LiquidationEvent.payout_date := Some "2024-12-15";
       LiquidationEvent.status := Some "pending" |};
    {| LiquidationEvent.id := "LIQ-2024-002";
       LiquidationEvent.name := "Asset Liquidation #128 — Q4 2024";
       LiquidationEvent.total_amount := 890000%float;
       LiquidationEvent.payout_date := Some "2024-12-20";
       LiquidationEvent.status := Some "pending" |} ].

Section Seed.
  Context {PS : Type} `{PaymentProvider PS} `{PyRuntime}.

(** The rows a successful [seed] adds to the session. *)
Definition with_seed (invs : list Investor.t)
    (events : list LiquidationEvent.t) (w : @World PS) : @World PS :=
  {| liquidation_events :=
       foldl (λ m e, <[LiquidationEvent.id e := e]> m)
         (liquidation_events w) events;
     investors := investors w ++ invs;
     payouts := payouts w; payout_runs := payout_runs w;
     audit_logs := audit_logs w; provider_state := provider_state w;
     io_trace := io_trace w; clock := clock w; uuids := uuids w |}.

(** [seed()].  The guard looks for the investor "INV-001"; the commit
    fails, and leaves the database as it was, when two rows to insert
    share a primary key or the primary key of one is already taken. *)
Definition seed : @M PS unit :=
  λ w,
    (* Check if already seeded *)
    if bool_decide ("INV-001" ∈ Investor.id <$> investors w) then
      (Return tt, w)
    else if bool_decide
              (NoDup (Investor.id <$> INVESTORS)
               ∧ Forall (λ i, i ∉ Investor.id <$> investors w)
                   (Investor.id <$> INVESTORS)
               ∧ NoDup (LiquidationEvent.id <$> LIQUIDATION_EVENTS)
               ∧ Forall (λ i, i ∉ dom (liquidation_events w))
                   (LiquidationEvent.id <$> LIQUIDATION_EVENTS))
    then (Return tt, with_seed INVESTORS LIQUIDATION_EVENTS w)
    else (Raise (ExcOther "IntegrityError" "UNIQUE constraint failed"), w).

End Seed.

(* ===================================================================== *)
(** * Further examples *)
(* ===================================================================== *)

Module MoreExamples.
  Import Sample Examples.

Definition inv1 : Investor.t :=
  investor "INV-001" "US" "ACH" (Some "ext_us_001") 0.

(** A recipient with a pending payout, in front of a scripted
    provider. *)
Definition w_pending (script : list (Res PaymentOrderResponse.t))
    : @World (list (Res PaymentOrderResponse.t)) :=
  world script [inv1] [payout "INV-001" PENDING None None].

(** A recipient whose payout failed in an earlier run. *)
Definition w_failed : @World MockPaymentProvider.t :=
  world always_succeeds [inv1] [payout "INV-001" FAILED None None].

(** A pending payout whose amount is infinite. *)
Definition infinite_payout : Payout.t :=
  {| Payout.id := "row-INV-001";
     Payout.run_id := Some "an-earlier-run";
     Payout.liquidation_event_id := "LIQ-TEST-001";
     Payout.investor_id := "INV-001";
     Payout.investor_name := Some "Investor INV-001";
     Payout.amount := PrimFloat.infinity;
     Payout.currency := Some "USD";
     Payout.country := Some "US";
     Payout.payment_method := Some "ACH";
     Payout.has_aba_routing := Some 0;
     Payout.external_account_id := Some "ext_us_001";
     Payout.rail := None; Payout.rail_subtype := None;
     Payout.rail_currency := None; Payout.fx_indicator := None;
     Payout.status := PENDING;
     Payout.skip_reason := None;
     Payout.payment_order_id := None;
     Payout.payment_order_type := None;
     Payout.notes := None |}.

Definition w_infinite : @World MockPaymentProvider.t :=
  world always_succeeds [inv1] [infinite_payout].

(** The event of the tests without any recipient. *)
Definition w_no_recipients : @World MockPaymentProvider.t :=
  world always_succeeds [] [].

(** [MockPaymentProvider(failure_rate=1.0, latency_ms=0)] with draws
    that make every call a rate limit. *)
Definition always_rate_limited : MockPaymentProvider.t :=
  {| MockPaymentProvider._failure_rate := 1%float;
     MockPaymentProvider.rolls := λ _, 0x1p-4%float;
     MockPaymentProvider.hexes := λ _, "0000000000000000";
     MockPaymentProvider.calls := 0 |}.

Definition w_rate_limited : @World MockPaymentProvider.t :=
  world always_rate_limited [] [].

(** A database without any row. *)
Definition w_blank : @World MockPaymentProvider.t :=
  {| liquidation_events := ∅; investors := []; payouts := ∅;
     payout_runs := []; audit_logs := [];
     provider_state := always_succeeds; io_trace := [];
     clock := 0; uuids := 0 |}.

(** A database that holds the second seeded investor only. *)
Definition w_half_seeded : @World MockPaymentProvider.t :=
  world always_succeeds
    [investor "INV-002" "US" "ACH" (Some "ext_us_002") 0] [].

(** A base [ProviderError] marked not retriable. *)
Definition rejected : ProviderError :=
  BaseProviderError "Unprocessable" 422 false.

(** An exception that is no [ProviderError]. *)
Definition timed_out : Exn := ExcOther "TimeoutError" "timed out".

End MoreExamples.

(* ===================================================================== *)
(** * Properties of the Python built-ins *)
(* ===================================================================== *)

Lemma truthy_str_spec (o : option string) :
  Py.truthy_str o = Spec.order_id_set o.
Proof. by destruct o as [[|c s]|]. Qed.

Lemma truthy_str_absent (o : option string) :
  negb (Py.truthy_str o) = Spec.absent_or_empty o.
Proof. by destruct o as [[|c s]|]. Qed.

Lemma truthy_str_Some (o : option string) :
  Py.truthy_str o = true ↔ ∃ c s, o = Some (String c s).
Proof.
  destruct o as [[|c s]|]; simpl; split; try done; try by intros (? & ? & ?).
  eauto.
Qed.

Lemma allowed_method (s : string) :
  s ∈ ALLOWED_METHODS ↔ s = "ACH" ∨ s = "Wire".
Proof. unfold ALLOWED_METHODS. set_solver. Qed.

(** [x <= 0] on floats is [x == 0 or x < 0]. *)
Lemma float_leb_zero (x : float) :
  PrimFloat.leb x 0%float = PrimFloat.eqb x 0%float || PrimFloat.ltb x 0%float.
Proof.
  rewrite FloatAxioms.leb_spec, FloatAxioms.eqb_spec, FloatAxioms.ltb_spec.
  unfold SFleb, SFeqb, SFltb.
  by destruct (SFcompare (Prim2SF x) (Prim2SF 0%float)) as [[]|].
Qed.

Lemma method_check_spec (m : option string) :
  negb (Py.truthy_str m) || negb (bool_decide (default "" m ∈ ALLOWED_METHODS))
  = Spec.method_invalid m.
Proof.
  destruct m as [s|]; simpl; [|done].
  assert (Heq : bool_decide (s ∈ ALLOWED_METHODS)
                = bool_decide (s = "ACH" ∨ s = "Wire"))
    by (apply bool_decide_ext, allowed_method).
  rewrite Heq. destruct s as [|c s]; [|done].
  cbn [Py.truthy_str negb orb]. symmetry.
  apply negb_true_iff, bool_decide_eq_false. by intros [|].
Qed.

(* ===================================================================== *)
(** * Eligibility gate *)
(* ===================================================================== *)

Section EligibilityFacts.
  Context `{PyRuntime}.

(** The checks of the code, as a decision list. *)
Lemma check_eligibility_reason pm a ext c eo :
  skip_reason (check_eligibility pm a ext c eo)
  = Spec.first_failing (Spec.gate_checks pm a ext c eo).
Proof.
  unfold check_eligibility, Spec.gate_checks; simpl.
  rewrite method_check_spec, !truthy_str_absent, <- !truthy_str_spec.
  destruct (Py.truthy_str eo); [done|].
  destruct (Spec.method_invalid pm); [done|].
  assert (Ha : match a with Some x => PrimFloat.leb x 0%float | None => true end
               = Spec.amount_invalid a)
    by (destruct a; simpl; [apply float_leb_zero | done]).
  rewrite Ha. destruct (Spec.amount_invalid a); [done|].
  destruct (Spec.absent_or_empty ext); [done|].
  by destruct (Spec.absent_or_empty c).
Qed.

Lemma check_eligibility_eligible pm a ext c eo :
  eligible (check_eligibility pm a ext c eo)
  = bool_decide (skip_reason (check_eligibility pm a ext c eo) = None).
Proof.
  unfold check_eligibility.
  repeat (match goal with |- context [if ?b then _ else _] => destruct b end;
          [done|]).
  done.
Qed.

(** C4.  For all inputs the gate evaluates its five checks in the fixed
    order existing order id, payment method, amount, external account,
    country: its reason is that of the first failing check and it is
    eligible, with no reason, exactly when none fails.  In particular an
    existing order id wins over an invalid method. *)
Theorem check_eligibility_fixed_order pm a ext c eo :
  skip_reason (check_eligibility pm a ext c eo)
    = Spec.first_failing (Spec.gate_checks pm a ext c eo)
  ∧ eligible (check_eligibility pm a ext c eo)
    = bool_decide (Spec.first_failing (Spec.gate_checks pm a ext c eo) = None)
  ∧ (Spec.order_id_set eo = true →
     skip_reason (check_eligibility pm a ext c eo)
       = Some EXISTING_PAYMENT_ORDER)
  ∧ skip_reason (check_eligibility (Some "Crypto") (Some 1000%float)
                   (Some "ext_001") (Some "US") (Some "po_123"))
    = Some EXISTING_PAYMENT_ORDER.
Proof.
  split_and!.
  - apply check_eligibility_reason.
  - by rewrite check_eligibility_eligible, check_eligibility_reason.
  - intros Hset. rewrite check_eligibility_reason. simpl. by rewrite Hset.
  - reflexivity.
Qed.

(** C10.  The idempotency guard fires exactly for a non-empty order id;
    an empty order id gives the same result as an absent one and the
    payout can then be found eligible. *)
Theorem existing_order_guard_iff_nonempty pm a ext c eo :
  (skip_reason (check_eligibility pm a ext c eo) = Some EXISTING_PAYMENT_ORDER
     ↔ ∃ ch s, eo = Some (String ch s))
  ∧ check_eligibility pm a ext c (Some "") = check_eligibility pm a ext c None
  ∧ eligible (check_eligibility (Some "ACH") (Some 1000%float)
                (Some "ext_001") (Some "US") (Some "")) = true.
Proof.
  split_and!; [|done|done].
  rewrite <- truthy_str_Some. unfold check_eligibility.
  destruct (Py.truthy_str eo); [done|].
  split; [|done].
  repeat (match goal with |- context [if ?b then _ else _] => destruct b end;
          [done|]).
  done.
Qed.

End EligibilityFacts.

(* ===================================================================== *)
(** * Rail selector *)
(* ===================================================================== *)

Lemma US_not_cross_border : GLOBAL_ACH_MAP !! "US" = None.
Proof. vm_compute. reflexivity. Qed.

Lemma GLOBAL_ACH_MAP_entry (c : string) (cfg : RailConfig) :
  GLOBAL_ACH_MAP !! c = Some cfg → (c, cfg) ∈ GLOBAL_ACH_ENTRIES.
Proof. apply elem_of_list_to_map_2. Qed.

(** Every entry of the table names its currency. *)
Lemma GLOBAL_ACH_MAP_currency (c : string) (cfg : RailConfig) :
  GLOBAL_ACH_MAP !! c = Some cfg →
  rc_currency cfg = Some (default "USD" (rc_currency cfg)).
Proof.
  intros Hin%GLOBAL_ACH_MAP_entry.
  assert (Hall : Forall (λ e, rc_currency e.2
                              = Some (default "USD" (rc_currency e.2)))
                   GLOBAL_ACH_ENTRIES).
  { unfold GLOBAL_ACH_ENTRIES, SEPA_COUNTRIES; cbn [map app].
    repeat (constructor; [reflexivity|]). constructor. }
  rewrite Forall_forall in Hall. apply (Hall _ Hin).
Qed.

(** Well-formed codes are their own normal form: stripping and
    upper-casing leave "US" and every key of the table as they are. *)
Lemma normalize_country_supported (c : string) :
  c = "US" ∨ is_Some (GLOBAL_ACH_MAP !! c) → normalize_country (Some c) = c.
Proof.
  intros [->|[cfg Hin%GLOBAL_ACH_MAP_entry]]; [reflexivity|].
  assert (Hall : Forall (λ e, normalize_country (Some e.1) = e.1)
                   GLOBAL_ACH_ENTRIES).
  { unfold GLOBAL_ACH_ENTRIES, SEPA_COUNTRIES; cbn [map app].
    repeat (constructor; [vm_compute; reflexivity|]). constructor. }
  rewrite Forall_forall in Hall. apply (Hall _ Hin).
Qed.

(** The selector, rule by rule, on the normalised country. *)
Lemma select_rail_aba (cc pm : option string) :
  normalize_country cc ≠ "US" →
  select_rail cc pm true
  = {| payment_type := "ach"; subtype := Some "CCD"; currency := "USD";
       purpose := None; fx_indicator := None;
       label := "ACH (US) — foreign investor (" +:+ normalize_country cc
                +:+ ") with US bank" |}.
Proof.
  intros Hne. unfold select_rail.
  rewrite (bool_decide_eq_false_2 _ Hne). reflexivity.
Qed.

Lemma select_rail_US (cc pm : option string) (aba : bool) :
  normalize_country cc = "US" →
  select_rail cc pm aba
  = {| payment_type := "ach"; subtype := Some "CCD"; currency := "USD";
       purpose := None; fx_indicator := None; label := "ACH (US)" |}.
Proof.
  intros Heq. unfold select_rail.
  rewrite (bool_decide_eq_true_2 _ Heq).
  destruct aba; reflexivity.
Qed.

Lemma select_rail_table (cc pm : option string) :
  normalize_country cc ≠ "US" →
  select_rail cc pm false
  = match GLOBAL_ACH_MAP !! normalize_country cc with
    | Some cfg =>
        {| payment_type := "cross_border"; subtype := Some (rc_subtype cfg);
           currency := default "USD" (rc_currency cfg);
           purpose := rc_purpose cfg;
           fx_indicator := Some "fixed_to_variable";
           label := "Cross-Border " +:+ Py.upper (rc_subtype cfg) +:+ " ("
                    +:+ default "USD" (rc_currency cfg) +:+ ")" |}
    | None =>
        {| payment_type := "wire"; subtype := None; currency := "USD";
           purpose := None; fx_indicator := None;
           label := "Wire (International) — "
                    +:+ Py.str_or (Some (normalize_country cc)) "unknown" |}
    end.
Proof.
  intros Hne. unfold select_rail.
  rewrite (bool_decide_eq_false_2 _ Hne). reflexivity.
Qed.

(** C5.  With [country] the country code as the selector compares it
    (stripped and upper-cased, which leaves a well-formed code unchanged),
    the rules apply in priority order: (1) bank-capability flag set and
    country not US: domestic ACH, CCD, USD, no FX indicator; (2) country US:
    the same, whatever the method and the flag; (3) otherwise, country in
    the cross-border table: cross-border with the entry's subtype, currency
    and purpose code and the fixed-to-variable FX indicator; (4) otherwise
    the wire fallback in USD with no subtype and no FX indicator. *)
Theorem select_rail_priority (country_code payment_method : option string)
    (has_aba_routing : bool) :
  let country := normalize_country country_code in
  let d := select_rail country_code payment_method has_aba_routing in
  (has_aba_routing = true → country ≠ "US" → is_domestic_ach d)
  ∧ (country = "US" → is_domestic_ach d)
  ∧ (∀ cfg, has_aba_routing = false → GLOBAL_ACH_MAP !! country = Some cfg →
       is_cross_border_of cfg d)
  ∧ (has_aba_routing = false → country ≠ "US" →
     GLOBAL_ACH_MAP !! country = None → is_wire_fallback d).
Proof.
  intros country d. subst country d. split; [|split; [|split]].
  - intros -> Hne. rewrite (select_rail_aba _ _ Hne).
    repeat split.
  - intros Heq. rewrite (select_rail_US _ _ _ Heq). repeat split.
  - intros cfg -> Hcfg.
    assert (Hne : normalize_country country_code ≠ "US").
    { intros Heq. rewrite Heq in Hcfg.
      rewrite US_not_cross_border in Hcfg. discriminate. }
    rewrite (select_rail_table _ _ Hne). rewrite Hcfg.
    unfold is_cross_border_of. cbn [payment_type subtype currency purpose fx_indicator].
    rewrite <- (GLOBAL_ACH_MAP_currency _ cfg Hcfg). repeat split.
  - intros -> Hne Hnone. rewrite (select_rail_table _ _ Hne). rewrite Hnone.
    repeat split.
Qed.

(** C9.  The decision does not depend on the payment method: two calls
    that differ only in it return equal decisions. *)
Theorem select_rail_ignores_method (country_code : option string)
    (method1 method2 : option string) (has_aba_routing : bool) :
  select_rail country_code method1 has_aba_routing
  = select_rail country_code method2 has_aba_routing.
Proof. reflexivity. Qed.

(* ===================================================================== *)
(** * Retry wrapper *)
(* ===================================================================== *)

Lemma count_calls_app (l1 l2 : list IO) :
  count_calls (l1 ++ l2) = (count_calls l1 + count_calls l2)%nat.
Proof. unfold count_calls. by rewrite filter_app, length_app. Qed.

Lemma sleeps_of_app (l1 l2 : list IO) :
  sleeps_of (l1 ++ l2) = sleeps_of l1 ++ sleeps_of l2.
Proof. apply omap_app. Qed.

Lemma count_calls_retried request ws :
  count_calls (retried request ws) = length ws.
Proof. induction ws as [|d ws IH]; [done|]. simpl. by rewrite <- IH. Qed.

Lemma sleeps_of_retried request ws : sleeps_of (retried request ws) = ws.
Proof. induction ws as [|d ws IH]; [done|]. simpl. by rewrite <- IH at 2. Qed.

Lemma length_waits delay errs : length (waits delay errs) = length errs.
Proof.
  revert delay. induction errs as [|e errs IH]; intros delay; [done|].
  simpl. by rewrite IH.
Qed.

(** The delays of the code are the capped powers of two. *)
Lemma delay_after_capped (i : nat) : (5 ≤ i)%nat → delay_after i = MAX_DELAY.
Proof.
  induction 1 as [|i Hle IH]; [by vm_compute|].
  simpl. rewrite IH. by vm_compute.
Qed.

Lemma delay_after_backoff (i : nat) :
  Py.min (delay_after i) MAX_DELAY = RetrySpec.backoff (S i).
Proof.
  unfold RetrySpec.backoff.
  replace (Z.of_nat (S i) - 1) with (Z.of_nat i) by lia.
  destruct (decide (i < 5)%nat) as [Hlt|Hge].
  - do 5 (destruct i as [|i]; [by vm_compute|]). lia.
  - rewrite delay_after_capped by lia.
    assert (2 ^ 5 ≤ 2 ^ Z.of_nat i) by (apply Z.pow_le_mono_r; lia).
    rewrite Z.min_r by lia. by vm_compute.
Qed.

Lemma sleep_for_wait (i : nat) (e : ProviderError) :
  sleep_for (delay_after i) e = RetrySpec.wait (S i) e.
Proof.
  unfold sleep_for, RetrySpec.wait, Py.truthy_float.
  rewrite !delay_after_backoff.
  destruct e as [| m [hint|] |]; try done.
  by destruct (PrimFloat.eqb hint 0%float).
Qed.

Lemma waits_wait (i : nat) (errs : list ProviderError) :
  waits (delay_after i) errs = imap (λ j e, RetrySpec.wait (S (i + j)) e) errs.
Proof.
  revert i. induction errs as [|e errs IH]; intros i; [done|].
  cbn [waits imap]. rewrite sleep_for_wait, Nat.add_0_r. f_equal.
  change (Py.min (delay_after i * 2) MAX_DELAY) with (delay_after (S i)).
  rewrite IH. apply imap_ext. intros j x _. simpl. do 2 f_equal. lia.
Qed.

Section RetryFacts.
  Context {PS : Type} `{PaymentProvider PS}.
  Implicit Types (w : @World PS) (request : PaymentOrderRequest.t).

Lemma with_provider_with_provider ps1 io1 ps2 io2 w :
  with_provider ps2 io2 (with_provider ps1 io1 w)
  = with_provider ps2 (io1 ++ io2) w.
Proof. unfold with_provider; simpl. by rewrite app_assoc. Qed.

Lemma with_provider_id w : with_provider (provider_state w) [] w = w.
Proof. destruct w. unfold with_provider; simpl. by rewrite app_nil_r. Qed.

Lemma new_io_with_provider ps io w : new_io w (with_provider ps io w) = io.
Proof. unfold new_io; simpl. by rewrite drop_app_length. Qed.

Lemma call_provider_eq request w :
  call_provider request w
  = ((create_payment_order (provider_state w) request).1,
     with_provider (create_payment_order (provider_state w) request).2
       [IOCall request] w).
Proof.
  unfold call_provider.
  by destruct (create_payment_order (provider_state w) request).
Qed.

(** One iteration that catches a retriable error and goes on. *)
Lemma retry_loop_retry {A} (func : M A) max_retries todo attempt delay last
    w e w1 :
  func w = (Raise (ExcProvider e), w1) →
  err_retriable e = true → attempt < max_retries →
  retry_loop func max_retries (S todo) attempt delay last w
  = retry_loop func max_retries todo (attempt + 1)
      (Py.min (delay * 2)%float MAX_DELAY) (Some e)
      (with_provider (provider_state w1) [IOSleep (sleep_for delay e)] w1).
Proof.
  intros Hf Hr Hlt. cbn [retry_loop]. rewrite Hf, Hr. simpl.
  by rewrite (proj2 (Z.ltb_lt _ _) Hlt).
Qed.

(** The loop through a run of retriable failures, each followed by a
    wait. *)
Lemma retry_loop_failures request max_retries errs :
  ∀ todo attempt delay last_error w,
    Forall (λ e, err_retriable e = true) errs →
    attempt + Z.of_nat (length errs) ≤ max_retries →
    answers (provider_state w) request (map fails errs) →
    retry_loop (call_provider request) max_retries (length errs + todo)
      attempt delay last_error w
    = retry_loop (call_provider request) max_retries todo
        (attempt + Z.of_nat (length errs))
        (fold_left (λ d _, Py.min (d * 2)%float MAX_DELAY) errs delay)
        (from_option Some last_error (last errs))
        (with_provider (provider_after (provider_state w) request (length errs))
           (retried request (waits delay errs)) w).
Proof.
  induction errs as [|e errs IH]; intros todo attempt delay last0 w Hall Hle Hans.
  - simpl. by rewrite Z.add_0_r, with_provider_id.
  - apply Forall_cons in Hall as [He Hall]. destruct Hans as [Hfst Hans].
    cbn [length] in *. cbn [Nat.add].
    rewrite (retry_loop_retry _ _ _ _ _ _ w e
               (with_provider (create_payment_order (provider_state w) request).2
                  [IOCall request] w)); [|by rewrite call_provider_eq, Hfst|done|lia].
    rewrite with_provider_with_provider.
    rewrite IH; [|done|lia|done].
    rewrite with_provider_with_provider.
    replace (attempt + 1 + Z.of_nat (length errs))
      with (attempt + Z.of_nat (S (length errs))) by lia.
    f_equal; try reflexivity.
    destruct errs as [|e' errs]; [done|].
    change (last (e :: e' :: errs)) with (last (e' :: errs)).
    destruct (last (e' :: errs)) eqn:Hl; [done|].
    by apply last_None in Hl.
Qed.

Lemma answers_app ps request script1 script2 :
    answers ps request (script1 ++ script2)
    ↔ answers ps request script1
      ∧ answers (provider_after ps request (length script1)) request script2.
  Proof.
    revert ps. induction script1 as [|r script1 IH]; intros ps; simpl.
    - tauto.
    - rewrite IH. tauto.
  Qed.

(** The loop, from the first attempt, through [errs] and up to the call
    that follows them. *)
Lemma with_retry_failures request max_retries errs w :
  Forall (λ e, err_retriable e = true) errs →
  Z.of_nat (length errs) ≤ max_retries →
  answers (provider_state w) request (map fails errs) →
  with_retry (call_provider request) max_retries w
  = retry_loop (call_provider request) max_retries
      (S (Z.to_nat max_retries - length errs)) (Z.of_nat (length errs))
      (fold_left (λ d _, Py.min (d * 2)%float MAX_DELAY) errs BASE_DELAY)
      (last errs)
      (with_provider (provider_after (provider_state w) request (length errs))
         (retried request (waits BASE_DELAY errs)) w).
Proof.
  intros Hall Hle Hans. unfold with_retry.
  replace (Z.to_nat (max_retries + 1))
    with (length errs + S (Z.to_nat max_retries - length errs))%nat by lia.
  rewrite retry_loop_failures by (done || lia).
  by destruct (last errs).
Qed.

(** [k] retriable failures and then a success, with [k] at most
    [max_retries]: the result, and the world after it. *)
Lemma with_retry_succeeds request max_retries errs response w :
  Forall (λ e, err_retriable e = true) errs →
  Z.of_nat (length errs) ≤ max_retries →
  answers (provider_state w) request (map fails errs ++ [Return response]) →
  with_retry (call_provider request) max_retries w
  = (Return response,
     with_provider
       (provider_after (provider_state w) request (S (length errs)))
       (retried request (waits BASE_DELAY errs) ++ [IOCall request]) w).
Proof.
  intros Hall Hle [Hans [Hlast _]]%answers_app.
  rewrite length_map in Hlast.
  rewrite (with_retry_failures _ _ errs) by done.
  cbn [retry_loop]. rewrite call_provider_eq. cbn [provider_state with_provider].
  rewrite Hlast, with_provider_with_provider. do 2 f_equal.
  clear. generalize (provider_state w). induction errs as [|e errs IH]; [done|].
  intros ps. apply IH.
Qed.

(** A non-retriable error at the first call. *)
Lemma with_retry_permanent request max_retries e w :
  0 ≤ max_retries → err_retriable e = false →
  answers (provider_state w) request [fails e] →
  with_retry (call_provider request) max_retries w
  = (Raise (ExcProvider e),
     with_provider (create_payment_order (provider_state w) request).2
       [IOCall request] w).
Proof.
  intros Hle Hr [Hfst _]. unfold with_retry.
  replace (Z.to_nat (max_retries + 1)) with (S (Z.to_nat max_retries)) by lia.
  cbn [retry_loop]. rewrite call_provider_eq, Hfst. unfold fails.
  cbv beta iota. by rewrite Hr.
Qed.

(** [max_retries + 1] retriable failures: the last one is propagated
    and no wait follows it. *)
Lemma with_retry_exhausted request max_retries errs e w :
  Forall (λ e, err_retriable e = true) (errs ++ [e]) →
  Z.of_nat (length errs) = max_retries →
  answers (provider_state w) request (map fails (errs ++ [e])) →
  with_retry (call_provider request) max_retries w
  = (Raise (ExcProvider e),
     with_provider
       (provider_after (provider_state w) request (S (length errs)))
       (retried request (waits BASE_DELAY errs) ++ [IOCall request]) w).
Proof.
  intros [Hall He%Forall_inv]%Forall_app Hlen. cbv beta in He.
  rewrite map_app. intros [Hans [Hlast _]]%answers_app.
  rewrite length_map in Hlast.
  rewrite (with_retry_failures _ _ errs) by (done || lia).
  cbn [retry_loop]. rewrite call_provider_eq. cbn [provider_state with_provider].
  rewrite Hlast. unfold fails. cbv beta iota. rewrite He. cbn [negb].
  match goal with
  | |- context [?a <? ?b] => destruct (Z.ltb_spec a b); [lia|]
  end.
  rewrite with_provider_with_provider. do 2 f_equal.
  clear. generalize (provider_state w). induction errs as [|e' errs IH]; [done|].
  intros ps. apply IH.
Qed.

(** C6.  With the default of 6 total tries: [k < 6] retriable failures
    followed by a success return the success after exactly [k + 1]
    invocations; a non-retriable error at the first call is propagated
    after exactly one invocation and no wait; six retriable failures
    propagate the last error after six invocations, and that error is
    retriable and no [PermanentError], which tells it from a permanent
    failure. *)
Theorem with_retry_default_attempts request w :
  (∀ errs response,
     (length errs < 6)%nat →
     Forall (λ e, err_retriable e = true) errs →
     answers (provider_state w) request (map fails errs ++ [Return response]) →
     ∃ w', with_retry (call_provider request) MAX_RETRIES w
           = (Return response, w')
           ∧ count_calls (new_io w w') = S (length errs))
  ∧ (∀ e,
       err_retriable e = false →
       answers (provider_state w) request [fails e] →
       ∃ w', with_retry (call_provider request) MAX_RETRIES w
             = (Raise (ExcProvider e), w')
             ∧ new_io w w' = [IOCall request])
  ∧ (∀ errs e,
       length errs = 5%nat →
       Forall (λ e, err_retriable e = true) (errs ++ [e]) →
       answers (provider_state w) request (map fails (errs ++ [e])) →
       ∃ w', with_retry (call_provider request) MAX_RETRIES w
             = (Raise (ExcProvider e), w')
             ∧ count_calls (new_io w w') = 6%nat
             ∧ err_retriable e = true ∧ is_PermanentError e = false).
Proof.
  split_and!.
  - intros errs response Hlen Hall Hans. eexists. split.
    + apply with_retry_succeeds; [done|unfold MAX_RETRIES; lia|done].
    + rewrite new_io_with_provider, count_calls_app, count_calls_retried,
        length_waits.
      change (count_calls [IOCall request]) with 1%nat. lia.
  - intros e Hr Hans. eexists. split.
    + by apply with_retry_permanent.
    + by rewrite new_io_with_provider.
  - intros errs e Hlen Hall Hans. eexists. split; [|split_and!].
    + apply with_retry_exhausted; [done|unfold MAX_RETRIES; lia|done].
    + rewrite new_io_with_provider, count_calls_app, count_calls_retried,
        length_waits, Hlen. reflexivity.
    + by apply Forall_app in Hall as [_ ?%Forall_inv].
    + apply Forall_app in Hall as [_ He%Forall_inv].
      by destruct e.
Qed.

(** C7, as the code has it.  The wait after the [i]-th retriable failure
    that is followed by another attempt is [min(2^(i-1), 30)]; for a
    rate-limit error with a non-zero hint it is [min(hint, 30)] for that
    one wait, the doubling going on as if there were no hint.  No wait
    follows a failure after which no attempt remains. *)
Theorem with_retry_waits request max_retries errs w :
  Forall (λ e, err_retriable e = true) errs →
  Z.of_nat (length errs) ≤ max_retries →
  (∀ response,
     answers (provider_state w) request (map fails errs ++ [Return response]) →
     sleeps_of (new_io w (with_retry (call_provider request) max_retries w).2)
     = imap (λ i e, RetrySpec.wait (S i) e) errs)
  ∧ (∀ e,
       err_retriable e = true → Z.of_nat (length errs) = max_retries →
       answers (provider_state w) request (map fails (errs ++ [e])) →
       sleeps_of (new_io w (with_retry (call_provider request) max_retries w).2)
       = imap (λ i e, RetrySpec.wait (S i) e) errs).
Proof.
  intros Hall Hle. split.
  - intros response Hans.
    rewrite (with_retry_succeeds _ _ errs response) by done.
    cbn [snd]. rewrite new_io_with_provider, sleeps_of_app, sleeps_of_retried.
    simpl. rewrite app_nil_r. apply (waits_wait 0).
  - intros e He Hlen Hans. rewrite (with_retry_exhausted _ _ errs e).
    + cbn [snd]. rewrite new_io_with_provider, sleeps_of_app, sleeps_of_retried.
      simpl. rewrite app_nil_r. apply (waits_wait 0).
    + apply Forall_app. split; [done|by constructor].
    + done.
    + done.
Qed.

End RetryFacts.

(* ===================================================================== *)
(** * The per-payout transition *)
(* ===================================================================== *)

Lemma string_app_assoc (s1 s2 s3 : string) :
  (s1 +:+ s2) +:+ s3 = s1 +:+ (s2 +:+ s3).
Proof.
  induction s1 as [|c s1 IH]; [done|].
  change (String c ((s1 +:+ s2) +:+ s3) = String c (s1 +:+ s2 +:+ s3)).
  by f_equal.
Qed.

Lemma notes_extend_note_text `{PyRuntime} existing t message :
  notes_extend existing (Some (note_text existing t message)).
Proof.
  right. unfold note_text.
  destruct existing as [[|c s]|]; simpl; eauto.
Qed.

Lemma notes_extend_refl (o : option string) : notes_extend o o.
Proof. by left. Qed.

Lemma notes_extend_trans (o1 o2 o3 : option string) :
  notes_extend o1 o2 → notes_extend o2 o3 → notes_extend o1 o3.
Proof.
  intros [->|[s1 ->]] [->|[s2 ->]]; try (by left); try (right; by eauto).
  right. destruct (Py.str_or o1 "" +:+ s1) as [|c s] eqn:Heq.
  - exists s2. cbn [Py.str_or].
    destruct (Py.str_or o1 "") as [|c1 t1]; [done|discriminate].
  - exists (s1 +:+ s2). cbn [Py.str_or]. rewrite <- Heq.
    by rewrite string_app_assoc.
Qed.

(** [append_note] on notes that extend [old] appends a note to [old]. *)
Lemma note_appended_note_text `{PyRuntime} old older t message :
  notes_extend old older →
  note_appended old (Some (note_text older t message)) message.
Proof.
  intros Hext. unfold note_appended, note_text.
  destruct Hext as [->|[suffix ->]].
  - destruct old as [[|c s]|].
    + by exists "", t.
    + by exists (String "010" ""), t.
    + by exists "", t.
  - destruct (Py.str_or old "" +:+ suffix) as [|c s] eqn:Heq.
    + exists "", t. cbn [Py.truthy_str negb].
      by destruct (Py.str_or old "").
    + exists (suffix +:+ String "010" ""), t.
      cbn [Py.truthy_str negb Py.fmt_opt_str]. rewrite <- Heq.
      f_equal.
      change (String "010" ("[" +:+ strftime_minute t +:+ "] " +:+ message))
        with (String "010" ""
              +:+ "[" +:+ strftime_minute t +:+ "] " +:+ message).
      by rewrite !string_app_assoc.
Qed.

Section StepFacts.
  Context {PS : Type} `{PaymentProvider PS} `{PyRuntime}.
  Implicit Types (w : @World PS) (p : Payout.t) (k : PayoutKey).

  #[local] Opaque check_eligibility select_rail.

Lemma session_only_refl w : session_only w w.
Proof. by unfold session_only. Qed.

Lemma session_only_trans w1 w2 w3 :
  session_only w1 w2 → session_only w2 w3 → session_only w1 w3.
Proof.
  unfold session_only. intros (-> & -> & -> & ->) (-> & -> & -> & ->). done.
Qed.

(** The retry loop changes the provider state and the trace, nothing
    else, and every call it makes is the call it was given. *)
Lemma retry_loop_frame request max_retries todo :
  ∀ attempt delay last_error w,
    ∃ r ps io,
      retry_loop (call_provider request) max_retries todo attempt delay
        last_error w = (r, with_provider ps io w)
      ∧ calls_of io = replicate (count_calls io) request.
Proof.
  induction todo as [|todo IH]; intros attempt delay last_error w.
  - exists (Raise (ExcProvider
              (default (BaseProviderError "Unknown error after retries" 500 true)
                 last_error))), (provider_state w), [].
    simpl. unfold raise. by rewrite with_provider_id.
  - cbn [retry_loop]. rewrite call_provider_eq.
    destruct (create_payment_order (provider_state w) request) as [r ps1].
    cbn [fst snd].
    destruct r as [v|[e|c m]];
      [by exists (Return v), ps1, [IOCall request]
      | |by exists (Raise (ExcOther c m)), ps1, [IOCall request]].
    destruct (err_retriable e); cbn [negb];
      [|by exists (Raise (ExcProvider e)), ps1, [IOCall request]].
    destruct (attempt <? max_retries);
      [|by exists (Raise (ExcProvider e)), ps1, [IOCall request]].
    unfold sleep, modify. unfold mbind at 1. unfold M_bind at 1.
    cbv beta iota. rewrite with_provider_with_provider.
    edestruct IH as (r & ps & io & -> & Hio).
    rewrite with_provider_with_provider.
    exists r, ps, (([IOCall request] ++ [IOSleep (sleep_for delay e)]) ++ io).
    split; [done|]. unfold calls_of, count_calls in *.
    rewrite omap_app, filter_app, length_app. simpl.
    by rewrite Hio.
Qed.

Lemma with_retry_frame request max_retries w :
  ∃ r ps io,
    with_retry (call_provider request) max_retries w
    = (r, with_provider ps io w)
    ∧ calls_of io = replicate (count_calls io) request.
Proof. apply retry_loop_frame. Qed.

Lemma append_note_eq existing message w :
    append_note existing message w
    = (Return (note_text existing (clock w) message),
       with_clock (S (clock w)) w).
  Proof.
    unfold append_note, note_text, now. unfold mbind, M_bind. cbv beta iota.
    by destruct (Py.truthy_str existing).
  Qed.

Ltac run_session :=
  repeat (first
    [ rewrite append_note_eq
    | progress cbv [log_event set_payout now modify raise mbind M_bind
                      mret M_ret]
    | progress cbv beta iota ]).

Ltac run_session_in H :=
  repeat (first
    [ rewrite append_note_eq in H
    | progress cbv [log_event set_payout now modify raise mbind M_bind
                      mret M_ret] in H
    | progress cbv beta iota in H ]).

(** An ineligible payout: marked skipped, a note appended, one audit
    entry; the provider is not called. *)
Lemma process_skipped run k event w p :
  payouts w !! k = Some p →
  eligible (eligibility_of p) = false →
  ∃ w',
    _process_single_payout run k event w = (Return "skipped", w')
    ∧ payouts w'
      = <[k := Payout.set_notes
                 (Some (note_text (Payout.notes p) (clock w)
                          ("Skipped: " +:+ message (eligibility_of p))))
                 (Payout.set_skip_reason
                    (SkipReason_value <$> skip_reason (eligibility_of p))
                    (Payout.set_status SKIPPED p))]> (payouts w)
    ∧ session_only w w'.
Proof.
  intros Hk Hel. unfold eligibility_of in *.
  unfold _process_single_payout, get_payout.
  unfold mbind at 1. unfold M_bind at 1. rewrite Hk. cbv beta iota.
  rewrite Hel. cbn [negb]. run_session.
  eexists; split; [reflexivity|]; by split.
Qed.

(** An eligible payout: routed, then submitted through the retry
    wrapper from a world [wr] that has the provider and the trace of
    [w]; the outcome of the wrapper decides between created and failed.
    An amount whose cents are not an integer aborts the transition
    before the provider is called. *)
Lemma process_eligible run k event w p :
  payouts w !! k = Some p →
  eligible (eligibility_of p) = true →
  match Py.int_round (Payout.amount p * 100)%float with
  | None =>
      ∃ e w',
        _process_single_payout run k event w = (Raise e, w')
        ∧ payouts w' = <[k := routed p]> (payouts w)
        ∧ session_only w w'
  | Some cents =>
      let request := payment_order_request (rail_of p) (routed p) event cents in
      ∃ wr r ps io p' w',
        session_only w wr
        ∧ with_retry (call_provider request) MAX_RETRIES wr
          = (r, with_provider ps io wr)
        ∧ calls_of io = replicate (count_calls io) request
        ∧ _process_single_payout run k event w = (Return (outcome_of r), w')
        ∧ payouts w' = <[k := p']> (payouts w)
        ∧ io_trace w' = io_trace w ++ io
        ∧ provider_state w' = ps
        ∧ investors w' = investors w
        ∧ liquidation_events w' = liquidation_events w
        ∧ same_snapshot p p' ∧ same_routing (routed p) p'
        ∧ Payout.run_id p' = Payout.run_id p
        ∧ Payout.skip_reason p' = Payout.skip_reason p
        ∧ notes_extend (Payout.notes p) (Payout.notes p')
        ∧ match r with
          | Return response =>
              Payout.status p' = COMPLETED
              ∧ Payout.payment_order_id p'
                = Some (PaymentOrderResponse.payment_order_id response)
          | Raise _ =>
              Payout.status p' = FAILED
              ∧ Payout.payment_order_id p' = Payout.payment_order_id p
          end
  end.
Proof.
  intros Hk Hel.
  destruct (_process_single_payout run k event w) as [res w'] eqn:Hrun.
  unfold eligibility_of in Hel.
  unfold _process_single_payout, get_payout in Hrun.
  unfold mbind at 1 in Hrun. unfold M_bind at 1 in Hrun.
  rewrite Hk in Hrun. cbv beta iota in Hrun.
  rewrite Hel in Hrun. cbn [negb] in Hrun.
  fold (rail_of p) in Hrun. fold (routed p) in Hrun.
  unfold _cents in Hrun.
  change (Payout.amount (routed p)) with (Payout.amount p) in Hrun.
  destruct (Py.int_round (Payout.amount p * 100)%float) as [cents|] eqn:Hc.
  - cbv zeta. run_session_in Hrun. unfold try_except in Hrun.
    match type of Hrun with
    | context [with_retry ?f ?m ?wr] =>
        destruct (with_retry_frame
                    (payment_order_request (rail_of p) (routed p) event cents)
                    m wr) as (r & ps & io & Hr & Hio);
        exists wr, r, ps, io
    end.
    rewrite Hr in Hrun.
    destruct r as [response|[e|c m]]; [|destruct e|]; run_session_in Hrun.
    all: injection Hrun as <- <-.
    all: eexists _, _; split; [by unfold session_only|];
      split; [exact Hr|]; split; [exact Hio|]; split; [reflexivity|].
    all: cbn [payouts with_payouts with_provider with_audit_logs with_clock
                io_trace provider_state investors liquidation_events].
    all: rewrite ?insert_insert_eq.
    all: split; [reflexivity|]; split_and!; try reflexivity;
      try (by unfold same_snapshot); try (by unfold same_routing).
    all: apply notes_extend_note_text.
  - run_session_in Hrun.
    destruct (PrimFloat.is_nan (Payout.amount p * 100)).
    all: run_session_in Hrun; injection Hrun as <- <-;
      eexists _, _; split; [reflexivity|];
      split; [reflexivity|]; by unfold session_only.
Qed.

End StepFacts.

(* ===================================================================== *)
(** * The loop "Process each payout" *)
(* ===================================================================== *)

Section LoopFacts.
  Context {PS : Type} `{PaymentProvider PS} `{PyRuntime}.
  Implicit Types (w : @World PS) (p : Payout.t) (k : PayoutKey) (t : Tally).

Lemma eligibility_of_ext p p' :
  same_snapshot p p' →
  Payout.payment_order_id p' = Payout.payment_order_id p →
  eligibility_of p' = eligibility_of p.
Proof.
  intros (_ & _ & _ & _ & Ha & _ & Hc & Hm & _ & He) Ho.
  unfold eligibility_of. by rewrite Ha, Hc, Hm, He, Ho.
Qed.

Lemma truthy_order_id_ineligible p :
  Py.truthy_str (Payout.payment_order_id p) = true →
  eligible (eligibility_of p) = false
  ∧ skip_reason (eligibility_of p) = Some EXISTING_PAYMENT_ORDER.
Proof.
  intros Ht. unfold eligibility_of, check_eligibility. by rewrite Ht.
Qed.

Lemma ineligible_reason p :
  eligible (eligibility_of p) = false →
  ∃ reason, skip_reason (eligibility_of p) = Some reason.
Proof.
  unfold eligibility_of.
  rewrite check_eligibility_eligible.
  destruct (skip_reason (check_eligibility _ _ _ _ _)); [eauto|done].
Qed.

(** One turn of the loop, given the result of the transition. *)
Lemma process_payouts_step run event k todo t w result w1 p' :
  _process_single_payout run k event w = (Return result, w1) →
  payouts w1 !! k = Some p' →
  process_payouts run event (k :: todo) t w
  = process_payouts run event todo (tally_add result p' t) w1.
Proof.
  intros Hstep Hk. cbn [process_payouts].
  unfold mbind at 1. unfold M_bind at 1. rewrite Hstep.
  unfold mbind at 1. unfold M_bind at 1. unfold tally_add.
  destruct (bool_decide (result = "created")); [done|].
  destruct (bool_decide (result = "skipped")).
  - unfold get_payout, mbind, M_bind. by rewrite Hk.
  - by destruct (bool_decide (result = "failed")).
Qed.

Lemma process_payouts_raise run event k todo t w e w1 :
  _process_single_payout run k event w = (Raise e, w1) →
  process_payouts run event (k :: todo) t w = (Raise e, w1).
Proof.
  intros Hstep. cbn [process_payouts].
  unfold mbind at 1. unfold M_bind at 1. by rewrite Hstep.
Qed.

Lemma process_missing run event k w :
  payouts w !! k = None →
  _process_single_payout run k event w
  = (Raise (ExcOther "LookupError" "no such payout"), w).
Proof.
  intros Hk. unfold _process_single_payout, get_payout.
  unfold mbind at 1. unfold M_bind at 1. by rewrite Hk.
Qed.

(** The three buckets of the tally after one payout. *)
Lemma tally_add_total result p' t :
  result = "created" ∨ result = "skipped" ∨ result = "failed" →
  tally_total (tally_add result p' t) = tally_total t + 1.
Proof.
  unfold tally_total, tally_add.
  intros [-> | [-> | ->]]; simpl; lia.
Qed.

(** Every transition that returns yields created, skipped or failed, and
    leaves the payout in the session. *)
Lemma process_single_result run k event w result w1 :
  _process_single_payout run k event w = (Return result, w1) →
  (result = "created" ∨ result = "skipped" ∨ result = "failed")
  ∧ is_Some (payouts w1 !! k).
Proof.
  intros Hstep.
  destruct (payouts w !! k) as [p|] eqn:Hk;
    [|by rewrite process_missing in Hstep].
  destruct (eligible (eligibility_of p)) eqn:Hel.
  - pose proof (process_eligible run k event w p Hk Hel) as Hcase.
    destruct (Py.int_round (Payout.amount p * 100)) as [cents|].
    + destruct Hcase as (wr & r & ps & io & p' & w' & _ & _ & _ & Hrun & Hp & _).
      rewrite Hrun in Hstep. injection Hstep as <- <-. split.
      * destruct r; simpl; auto.
      * rewrite Hp, lookup_insert_eq. eauto.
    + destruct Hcase as (e & w' & Hrun & _). by rewrite Hrun in Hstep.
  - destruct (process_skipped run k event w p Hk Hel) as (w' & Hrun & Hp & _).
    rewrite Hrun in Hstep. injection Hstep as <- <-. split; [auto|].
    rewrite Hp, lookup_insert_eq. eauto.
Qed.

(** A loop that ends normally has put every payout of its list into
    exactly one of the three buckets. *)
Lemma process_payouts_total run event todo :
  ∀ t w t' w',
    process_payouts run event todo t w = (Return t', w') →
    tally_total t' = tally_total t + Z.of_nat (length todo).
Proof.
  induction todo as [|k todo IH]; intros t w t' w' Hloop.
  - injection Hloop as <- <-. simpl. lia.
  - destruct (_process_single_payout run k event w) as [[result|e] w1] eqn:Hstep;
      [|by rewrite (process_payouts_raise _ _ _ _ _ _ _ _ Hstep) in Hloop].
    destruct (process_single_result _ _ _ _ _ _ Hstep) as [Hres [p' Hp']].
    rewrite (process_payouts_step _ _ _ _ _ _ _ _ _ Hstep Hp') in Hloop.
    apply IH in Hloop. rewrite Hloop, tally_add_total by done.
    cbn [length]. lia.
Qed.

End LoopFacts.

(* ===================================================================== *)
(** * The loop "Ensure a Payout record exists for each investor" *)
(* ===================================================================== *)

Section SetupFacts.
  Context {PS : Type} `{PaymentProvider PS} `{PyRuntime}.
  Implicit Types (w : @World PS) (p : Payout.t) (k : PayoutKey).

Lemma reattached_terminal run p0 p :
  Payout.status p0 ∈ [COMPLETED; SKIPPED] → reattached run p0 p → p = p0.
Proof. by intros Hin [->|[Hnot _]]. Qed.

(** One turn of the loop for a recipient with a row. *)
Lemma ensure_payouts_existing run event evid existing n inv todo w p0 :
  existing (Investor.id inv) = Some p0 →
  ensure_payouts run event evid existing n (inv :: todo) w
  = match ensure_payouts run event evid existing n todo
            (if bool_decide (Payout.status p0 ∉ [COMPLETED; SKIPPED])
             then with_payouts
                    (insert (evid, Investor.id inv)
                       (Payout.set_run_id (Some (PayoutRun.id run)) p0)) w
             else w) with
    | (Return (keys, added), w') =>
        (Return ((evid, Investor.id inv) :: keys, added), w')
    | (Raise e, w') => (Raise e, w')
    end.
Proof.
  intros Hex. cbn [ensure_payouts]. rewrite Hex.
  case_bool_decide.
  all: unfold mbind, M_bind, set_payout, modify, mret, M_ret; cbv beta iota.
  all: match goal with
       | |- _ = (let (r, w') := ?X in _) =>
           destruct X as [[[keys added]|e'] w']
       end; reflexivity.
Qed.

(** One turn of the loop for a recipient without a row. *)
Lemma ensure_payouts_new run event evid existing n inv todo w :
  existing (Investor.id inv) = None →
  ensure_payouts run event evid existing n (inv :: todo) w
  = match ensure_payouts run event evid existing n todo
            (with_payouts
               (insert (evid, Investor.id inv)
                  (new_payout run event evid n inv (uuid4_hex (uuids w))))
               (with_uuids (S (uuids w)) w)) with
    | (Return (keys, added), w') =>
        (Return ((evid, Investor.id inv) :: keys,
                 (evid, Investor.id inv) :: added), w')
    | (Raise e, w') => (Raise e, w')
    end.
Proof.
  intros Hex. cbn [ensure_payouts]. rewrite Hex.
  unfold mbind, M_bind, uuid4, set_payout, modify, mret, M_ret.
  cbv beta iota.
  match goal with
  | |- _ = (let (r, w') := ?X in _) =>
      destruct X as [[[keys added]|e'] w']
  end; reflexivity.
Qed.

(** The loop never raises; it returns one reference per recipient, in
    order, changes nothing but the session's payouts (and the UUID
    source), re-attaches or leaves alone the rows that existed, and adds
    a row only for a recipient that had none. *)
Lemma ensure_payouts_spec run event evid existing n todo :
  ∀ w,
    (∀ i p0, existing i = Some p0 →
       ∃ p, payouts w !! (evid, i) = Some p ∧ reattached run p0 p) →
    ∃ added w',
      ensure_payouts run event evid existing n todo w
      = (Return (payout_keys evid todo, added), w')
      ∧ session_only w w'
      ∧ (∀ i p0, existing i = Some p0 →
           ∃ p, payouts w' !! (evid, i) = Some p ∧ reattached run p0 p)
      ∧ (∀ k0, is_Some (payouts w !! k0) → is_Some (payouts w' !! k0))
      ∧ (∀ k0, k0 ∈ payout_keys evid todo → is_Some (payouts w' !! k0))
      ∧ (∀ k0, k0 ∉ payout_keys evid todo →
           payouts w' !! k0 = payouts w !! k0)
      ∧ ((∀ inv, inv ∈ todo → is_Some (existing (Investor.id inv))) →
         added = []).
Proof.
  induction todo as [|inv todo IH]; intros w Hsnap.
  - exists [], w. split_and!; try done.
    by intros k0 ?%elem_of_nil.
  - set (k := (evid, Investor.id inv)).
    destruct (existing (Investor.id inv)) as [p0|] eqn:Hex.
    + (* an existing row *)
      rewrite (ensure_payouts_existing _ _ _ _ _ _ _ _ _ Hex). fold k.
      match goal with
      | |- context [ensure_payouts _ _ _ _ _ _ ?w0] => set (w1 := w0)
      end.
      assert (Hsnap1 : ∀ i q0, existing i = Some q0 →
                 ∃ q, payouts w1 !! (evid, i) = Some q ∧ reattached run q0 q).
      { intros i q0 Hi. subst w1. case_bool_decide as Hst; [|by apply Hsnap].
        cbn [payouts with_payouts].
        destruct (decide (i = Investor.id inv)) as [->|Hne].
        - assert (q0 = p0) as -> by congruence.
          exists (Payout.set_run_id (Some (PayoutRun.id run)) p0).
          subst k. rewrite lookup_insert_eq. split; [done|].
          right. by split.
        - subst k. rewrite lookup_insert_ne by congruence. by apply Hsnap. }
      assert (Hmono1 : ∀ k0, is_Some (payouts w !! k0) → is_Some (payouts w1 !! k0)).
      { intros k0 Hk0. subst w1. case_bool_decide; [|done].
        cbn [payouts with_payouts]. by apply lookup_insert_is_Some'; right. }
      assert (Hframe1 : ∀ k0, k0 ≠ k → payouts w1 !! k0 = payouts w !! k0).
      { intros k0 Hk0. subst w1. case_bool_decide; [|done].
        cbn [payouts with_payouts]. by rewrite lookup_insert_ne. }
      assert (Hso1 : session_only w w1).
      { subst w1. by case_bool_decide; unfold session_only. }
      destruct (IH w1 Hsnap1)
        as (added & w' & Hrun & Hso & Hs' & Hmono & Hpres & Hframe & Hadd).
      exists added, w'. rewrite Hrun. split_and!.
      * done.
      * by apply (session_only_trans w w1 w').
      * done.
      * intros k0 Hk0. by apply Hmono, Hmono1.
      * intros k0 [->|Hin]%elem_of_cons; [|by apply Hpres].
        apply Hmono, Hmono1. destruct (Hsnap _ _ Hex) as (q & Hq & _).
        by exists q.
      * intros k0 Hk0%not_elem_of_cons. destruct Hk0 as [Hne Hnin].
        rewrite Hframe by done. by apply Hframe1.
      * intros Hall. apply Hadd. intros inv' Hin. apply Hall. by right.
    + (* a new row *)
      rewrite (ensure_payouts_new _ _ _ _ _ _ _ _ Hex). fold k.
      match goal with
      | |- context [ensure_payouts _ _ _ _ _ _ ?w0] => set (w1 := w0)
      end.
      assert (Hsnap1 : ∀ i q0, existing i = Some q0 →
                 ∃ q, payouts w1 !! (evid, i) = Some q ∧ reattached run q0 q).
      { intros i q0 Hi. subst w1. cbn [payouts with_payouts with_uuids].
        subst k. rewrite lookup_insert_ne by congruence. by apply Hsnap. }
      assert (Hmono1 : ∀ k0, is_Some (payouts w !! k0) → is_Some (payouts w1 !! k0)).
      { intros k0 Hk0. subst w1. cbn [payouts with_payouts with_uuids].
        by apply lookup_insert_is_Some'; right. }
      assert (Hframe1 : ∀ k0, k0 ≠ k → payouts w1 !! k0 = payouts w !! k0).
      { intros k0 Hk0. subst w1. cbn [payouts with_payouts with_uuids].
        by rewrite lookup_insert_ne. }
      destruct (IH w1 Hsnap1)
        as (added & w' & Hrun & Hso & Hs' & Hmono & Hpres & Hframe & Hadd).
      exists (k :: added), w'. rewrite Hrun. split_and!.
      * done.
      * by apply (session_only_trans w w1 w').
      * done.
      * intros k0 Hk0. by apply Hmono, Hmono1.
      * intros k0 [->|Hin]%elem_of_cons; [|by apply Hpres].
        apply Hmono. subst w1. cbn [payouts with_payouts with_uuids].
        rewrite lookup_insert_eq. eauto.
      * intros k0 Hk0%not_elem_of_cons. destruct Hk0 as [Hne Hnin].
        rewrite Hframe by done. by apply Hframe1.
      * intros Hall. destruct (Hall inv) as [q Hq]; [by left|]. congruence.
Qed.

End SetupFacts.

(* ===================================================================== *)
(** * A run *)
(* ===================================================================== *)

Section RunFacts.
  Context {PS : Type} `{PaymentProvider PS} `{PyRuntime}.
  Implicit Types (w : @World PS) (p : Payout.t) (k : PayoutKey).

Ltac run_session_in H :=
  repeat (first
    [ progress cbv [log_event set_payout now uuid4 gets commit add_run
                      update_run flush_new_payouts modify raise mbind
                      M_bind mret M_ret] in H
    | progress cbv beta iota in H ]).

(** The event is not found: the run fails, no payout is touched. *)
Lemma execute_run_not_found evid w :
  liquidation_events w !! evid = None →
  ∃ run w',
    execute_run evid w = (Return run, w')
    ∧ PayoutRun.status run = RUN_FAILED
    ∧ session_only w w' ∧ payouts w' = payouts w.
Proof.
  intros Hev.
  destruct (execute_run evid w) as [res w'] eqn:Hrun.
  unfold execute_run in Hrun. run_session_in Hrun.
  cbn [liquidation_events with_audit_logs with_payout_runs with_clock
         with_uuids] in Hrun.
  rewrite Hev in Hrun. run_session_in Hrun.
  injection Hrun as <- <-. eexists _, _. split; [reflexivity|].
  split_and!; try done.
Qed.

(** The event is found: the run is the set-up loop, the flush, the
    processing loop and the summary, in this order, from a world [w0]
    that differs from [w] by the run-started audit entry. *)
Lemma execute_run_found evid w event :
  liquidation_events w !! evid = Some event →
  ∃ run0 w0,
    session_only w w0 ∧ payouts w0 = payouts w
    ∧ PayoutRun.liquidation_event_id run0 = evid
    ∧ ∀ added w1,
        ensure_payouts run0 event evid (λ i, payouts w !! (evid, i))
          (Z.of_nat (length (investors w))) (investors w) w0
        = (Return (payout_keys evid (investors w), added), w1) →
        (¬ NoDup added → ∃ e, execute_run evid w = (Raise e, w1))
        ∧ (NoDup added →
           ∀ r w2,
             process_payouts run0 event (payout_keys evid (investors w))
               tally0 w1 = (r, w2) →
             match r with
             | Return tally =>
                 ∃ w3,
                   execute_run evid w
                   = (Return (completed_run run0 tally (clock w2)), w3)
                   ∧ session_only w2 w3 ∧ payouts w3 = payouts w2
                   ∧ payout_runs w3
                     = removelast (payout_runs w2)
                       ++ [completed_run run0 tally (clock w2)]
             | Raise e => execute_run evid w = (Raise e, w2)
             end).
Proof.
  intros Hev.
  destruct (execute_run evid w) as [res w'] eqn:Hrun.
  unfold execute_run in Hrun. run_session_in Hrun.
  cbn [liquidation_events payouts investors
         with_audit_logs with_payout_runs with_clock with_uuids] in Hrun.
  rewrite Hev in Hrun. run_session_in Hrun.
  cbn [liquidation_events payouts investors
         with_audit_logs with_payout_runs with_clock with_uuids] in Hrun.
  match type of Hrun with
  | context [ensure_payouts ?run0 _ _ _ _ _ ?w0] => exists run0, w0
  end.
  split_and!; try done.
  intros added w1 Hens. rewrite Hens in Hrun. run_session_in Hrun.
  split.
  - intros Hnd. rewrite bool_decide_false in Hrun by done.
    injection Hrun as <- <-. eauto.
  - intros Hnd r w2 Hloop. rewrite bool_decide_true in Hrun by done.
    fold tally0 in Hrun. rewrite Hloop in Hrun.
    destruct r as [tally|e]; injection Hrun as <- <-; [|done].
    eexists. split; [reflexivity|]. by split_and!.
Qed.

(** The set-up loop inside a run, from the world [w0] of
    [execute_run_found]. *)
Lemma run_setup run0 event evid w w0 :
  payouts w0 = payouts w →
  ∃ added w1,
    ensure_payouts run0 event evid (λ i, payouts w !! (evid, i))
      (Z.of_nat (length (investors w))) (investors w) w0
    = (Return (payout_keys evid (investors w), added), w1)
    ∧ session_only w0 w1
    ∧ (∀ i p0, payouts w !! (evid, i) = Some p0 →
         ∃ p, payouts w1 !! (evid, i) = Some p ∧ reattached run0 p0 p)
    ∧ (∀ k0, k0 ∈ payout_keys evid (investors w) →
         is_Some (payouts w1 !! k0))
    ∧ (∀ k0, k0 ∉ payout_keys evid (investors w) →
         payouts w1 !! k0 = payouts w !! k0)
    ∧ ((∀ inv, inv ∈ investors w →
          is_Some (payouts w !! (evid, Investor.id inv))) →
       added = []).
Proof.
  intros Hp.
  destruct (ensure_payouts_spec run0 event evid (λ i, payouts w !! (evid, i))
              (Z.of_nat (length (investors w))) (investors w) w0)
    as (added & w1 & Hens & Hso & Hsnap & _ & Hpres & Hframe & Hadd).
  { intros i p0 Hi. exists p0. rewrite Hp. split; [done|by left]. }
  exists added, w1. split_and!; try done.
  intros k0 Hk0. rewrite Hframe by done. by rewrite Hp.
Qed.

(** C8.  A run that reaches COMPLETED has put every recipient's payout
    into exactly one of the buckets created, skipped and failed: the
    three counts of its summary add up to the number of recipients. *)
Theorem completed_run_counts_recipients evid w run w' :
  execute_run evid w = (Return run, w') →
  PayoutRun.status run = RUN_COMPLETED →
  PayoutRun.created_count run + PayoutRun.skipped_count run
    + PayoutRun.failed_count run
  = Z.of_nat (length (investors w))
  ∧ run ∈ payout_runs w'.
Proof.
  intros Hrun Hst.
  destruct (liquidation_events w !! evid) as [event|] eqn:Hev.
  - destruct (execute_run_found evid w event Hev)
      as (run0 & w0 & Hso0 & Hp0 & _ & Hfound).
    destruct (run_setup run0 event evid w w0 Hp0)
      as (added & w1 & Hens & _).
    destruct (Hfound added w1 Hens) as [Hdup Hnodup].
    destruct (decide (NoDup added)) as [Hnd|Hnd];
      [|destruct (Hdup Hnd) as [e He]; congruence].
    specialize (Hnodup Hnd).
    destruct (process_payouts run0 event (payout_keys evid (investors w))
                tally0 w1) as [[tally|e] w2] eqn:Hloop;
      specialize (Hnodup _ _ eq_refl); cbv beta iota in Hnodup;
      [|congruence].
    destruct Hnodup as (w3 & Hrun3 & _ & _ & Hruns).
    rewrite Hrun3 in Hrun. injection Hrun as <- <-.
    apply process_payouts_total in Hloop.
    unfold tally_total, payout_keys in Hloop. rewrite length_fmap in Hloop.
    cbn [completed_run PayoutRun.created_count PayoutRun.skipped_count
           PayoutRun.failed_count]. split.
    + rewrite Hloop. simpl. lia.
    + rewrite Hruns. apply elem_of_app. right. by left.
  - destruct (execute_run_not_found evid w Hev) as (run1 & w1 & Hrun1 & Hf & _).
    rewrite Hrun1 in Hrun. injection Hrun as <- <-. congruence.
Qed.


End RunFacts.

(* ===================================================================== *)
(** * Idempotence *)
(* ===================================================================== *)

Lemma reskipped_refl (p : Payout.t) : reskipped p p.
Proof.
  unfold reskipped, same_snapshot, same_routing. split_and!; try done.
  apply notes_extend_refl.
Qed.

Lemma reskipped_trans (p1 p2 p3 : Payout.t) :
  reskipped p1 p2 → reskipped p2 p3 → reskipped p1 p3.
Proof.
  unfold reskipped, same_snapshot, same_routing.
  intros (Hs & Hr & Hrun & Ho & Hn) (Hs' & Hr' & Hrun' & Ho' & Hn').
  destruct_and!. split_and!; try congruence.
  by apply (notes_extend_trans _ (Payout.notes p2)).
Qed.

Section IdempotenceFacts.
  Context {PS : Type} `{PaymentProvider PS} `{PyRuntime}.
  Implicit Types (w : @World PS) (p : Payout.t) (k : PayoutKey) (t : Tally).

Lemma reskipped_eligibility p p' :
  reskipped p p' → eligibility_of p' = eligibility_of p.
Proof. intros (Hs & _ & _ & Ho & _). by apply eligibility_of_ext. Qed.

(** What [process_skipped] does to the payout. *)
Lemma process_skipped_payout run k event w p :
  payouts w !! k = Some p →
  eligible (eligibility_of p) = false →
  ∃ p' w',
    _process_single_payout run k event w = (Return "skipped", w')
    ∧ payouts w' = <[k := p']> (payouts w)
    ∧ session_only w w'
    ∧ reskipped p p'
    ∧ Payout.status p' = SKIPPED
    ∧ Payout.skip_reason p'
      = SkipReason_value <$> skip_reason (eligibility_of p).
Proof.
  intros Hk Hel.
  destruct (process_skipped run k event w p Hk Hel) as (w' & Hrun & Hp & Hso).
  eexists _, w'. split_and!; try done.
  unfold reskipped, same_snapshot, same_routing. split_and!; try done.
  apply notes_extend_note_text.
Qed.

(** A loop over payouts that the gate rejects: all of them are skipped,
    the provider is not called, nothing but status, skip reason and
    notes changes. *)
Lemma process_payouts_ineligible run event todo :
  ∀ t w,
    (∀ k, k ∈ todo →
       ∃ p, payouts w !! k = Some p ∧ eligible (eligibility_of p) = false) →
    ∃ t' w',
      process_payouts run event todo t w = (Return t', w')
      ∧ successes t' = successes t ∧ failures t' = failures t
      ∧ skipped t' = skipped t + Z.of_nat (length todo)
      ∧ session_only w w'
      ∧ (∀ k p, payouts w !! k = Some p →
           ∃ p', payouts w' !! k = Some p' ∧ reskipped p p'
                 ∧ (k ∉ todo → p' = p)
                 ∧ (k ∈ todo →
                    Payout.status p' = SKIPPED
                    ∧ Payout.skip_reason p'
                      = SkipReason_value <$> skip_reason (eligibility_of p))).
Proof.
  induction todo as [|k todo IH]; intros t w Hall.
  - exists t, w. split_and!; try done; try (simpl; lia).
    intros k p Hk. exists p. split_and!; try done.
    + apply reskipped_refl.
    + by intros ?%elem_of_nil.
  - destruct (Hall k) as (pk & Hk & Hel); [by left|].
    destruct (process_skipped_payout run k event w pk Hk Hel)
      as (pk' & w1 & Hstep & Hp1 & Hso1 & Hrs & Hst & Hsr).
    assert (Hk1 : payouts w1 !! k = Some pk')
      by (by rewrite Hp1, lookup_insert_eq).
    rewrite (process_payouts_step _ _ _ _ _ _ _ _ _ Hstep Hk1).
    destruct (IH (tally_add "skipped" pk' t) w1)
      as (t' & w' & Hloop & Hsu & Hfa & Hsk & Hso & Hrel).
    { intros k' Hin. destruct (decide (k' = k)) as [->|Hne].
      - exists pk'. split; [done|]. by rewrite (reskipped_eligibility pk pk').
      - rewrite Hp1, lookup_insert_ne by done. apply Hall. by right. }
    exists t', w'. split_and!; try done.
    + rewrite Hsk. cbn [length]. unfold tally_add. simpl. lia.
    + by apply (session_only_trans w w1 w').
    + intros k0 p0 Hk0. destruct (decide (k0 = k)) as [->|Hne].
      * assert (p0 = pk) as -> by congruence.
        destruct (Hrel k pk' Hk1) as (p'' & Hk'' & Hrs' & Hout & Hin).
        exists p''. split_and!; [done|by apply (reskipped_trans pk pk')| |].
        { intros Hnot. exfalso. apply Hnot. by left. }
        intros _. destruct (decide (k ∈ todo)) as [Hink|Hnink].
        -- destruct (Hin Hink) as [-> ->].
           by rewrite (reskipped_eligibility pk pk').
        -- by rewrite (Hout Hnink).
      * assert (Hk01 : payouts w1 !! k0 = Some p0)
          by (by rewrite Hp1, lookup_insert_ne).
        destruct (Hrel k0 p0 Hk01) as (p'' & Hk'' & Hrs' & Hout & Hin).
        exists p''. split_and!; try done.
        { intros Hnot. apply Hout. intros ?. apply Hnot. by right. }
        intros [->|Hin0]%elem_of_cons; [done|]. by apply Hin.
Qed.

Lemma settled_reskipped p p' :
    reskipped p p' → eligible (eligibility_of p) = false →
    Payout.status p' = SKIPPED → settled p'.
  Proof.
    intros Hrs Hel Hst. split.
    - by rewrite (reskipped_eligibility p p').
    - by rewrite Hst.
  Qed.

Lemma settled_reattached run p0 p :
  reattached run p0 p → settled p0 → settled p.
Proof. by intros [->|[_ ->]]. Qed.

Lemma settled_completed p response :
  Payout.status p = COMPLETED →
  Payout.payment_order_id p
  = Some (PaymentOrderResponse.payment_order_id response) →
  PaymentOrderResponse.payment_order_id response ≠ "" →
  settled p.
Proof.
  intros Hst Ho Hne.
  assert (Ht : Py.truthy_str (Payout.payment_order_id p) = true).
  { rewrite Ho. by destruct (PaymentOrderResponse.payment_order_id response). }
  split; [by apply truthy_order_id_ineligible|done].
Qed.

(** With a provider that succeeds, an eligible payout whose cents are an
    integer is created at the first attempt. *)
Lemma process_created good run k event w p :
  succeeds_from good → good (provider_state w) →
  payouts w !! k = Some p →
  eligible (eligibility_of p) = true →
  ∀ res w', _process_single_payout run k event w = (Return res, w') →
  ∃ p' request,
    res = "created"
    ∧ payouts w' = <[k := p']> (payouts w)
    ∧ io_trace w' = io_trace w ++ [IOCall request]
    ∧ good (provider_state w')
    ∧ investors w' = investors w
    ∧ liquidation_events w' = liquidation_events w
    ∧ settled p' ∧ Payout.status p' = COMPLETED
    ∧ same_snapshot p p' ∧ Payout.run_id p' = Payout.run_id p.
Proof.
  intros Hgood Hps Hk Hel res w' Hstep.
  pose proof (process_eligible run k event w p Hk Hel) as Hcase.
  destruct (Py.int_round (Payout.amount p * 100)) as [cents|];
    [|destruct Hcase as (e & w1 & Hrun & _); congruence].
  destruct Hcase
    as (wr & r & ps & io & p' & w1 & (_ & Hwr & _) & Hr & _ & Hrun & Hp & Hio
        & Hps1 & Hinv & Hev & Hsnap & _ & Hrid & _ & _ & Hres).
  rewrite Hrun in Hstep. injection Hstep as <- <-.
  set (request := payment_order_request (rail_of p) (routed p) event cents) in *.
  destruct (Hgood (provider_state wr) request) as (response & Hfst & Hne & Hg);
    [by rewrite Hwr|].
  rewrite (with_retry_succeeds request MAX_RETRIES [] response wr) in Hr;
    [|done|done|by split].
  pose proof (f_equal fst Hr) as Hr1. pose proof (f_equal snd Hr) as Hw.
  cbn [fst snd] in Hr1, Hw. subst r.
  pose proof (f_equal provider_state Hw) as Hps'.
  pose proof (f_equal io_trace Hw) as Hio'.
  cbn [provider_state io_trace with_provider provider_after length] in Hps', Hio'.
  apply app_inv_head in Hio'. subst io ps.
  destruct Hres as [Hst Ho].
  exists p', request. split_and!; try done.
  - by rewrite <- Hps'.
  - by apply (settled_completed p' response).
Qed.

(** A loop with a provider that succeeds, when it ends normally: no
    payout fails, and every payout it processed, like every payout that
    was settled before, is settled after it. *)
Lemma process_payouts_settles good run event todo :
  succeeds_from good →
  ∀ t w t' w',
    good (provider_state w) →
    process_payouts run event todo t w = (Return t', w') →
    failures t' = failures t
    ∧ good (provider_state w')
    ∧ investors w' = investors w
    ∧ liquidation_events w' = liquidation_events w
    ∧ (∀ k p, payouts w !! k = Some p →
         ∃ p', payouts w' !! k = Some p'
               ∧ (k ∈ todo ∨ settled p → settled p')).
Proof.
  intros Hgood.
  induction todo as [|k todo IH]; intros t w t' w' Hps Hloop.
  - injection Hloop as <- <-. split_and!; try done.
    intros k p Hk. exists p. split; [done|].
    by intros [?%elem_of_nil|?].
  - destruct (_process_single_payout run k event w) as [[res|e] w1] eqn:Hstep;
      [|by rewrite (process_payouts_raise _ _ _ _ _ _ _ _ Hstep) in Hloop].
    destruct (payouts w !! k) as [pk|] eqn:Hk;
      [|by rewrite process_missing in Hstep].
    assert (∃ pk', payouts w1 = <[k := pk']> (payouts w)
                   ∧ settled pk'
                   ∧ failures (tally_add res pk' t) = failures t
                   ∧ good (provider_state w1)
                   ∧ investors w1 = investors w
                   ∧ liquidation_events w1 = liquidation_events w)
      as (pk' & Hp1 & Hset & Hfail & Hps1 & Hinv1 & Hev1).
    { destruct (eligible (eligibility_of pk)) eqn:Hel.
      - destruct (process_created good run k event w pk Hgood Hps Hk Hel _ _ Hstep)
          as (p' & request & -> & Hp & _ & Hg & Hinv & Hev & Hset & _).
        exists p'. by split_and!.
      - destruct (process_skipped_payout run k event w pk Hk Hel)
          as (p' & w1' & Hrun & Hp & (_ & Hpsx & Hinv & Hev) & Hrs & Hst & _).
        rewrite Hrun in Hstep. injection Hstep as <- <-.
        exists p'. split_and!; try done.
        + by apply (settled_reskipped pk p').
        + by rewrite Hpsx. }
    assert (Hk1 : payouts w1 !! k = Some pk')
      by (by rewrite Hp1, lookup_insert_eq).
    rewrite (process_payouts_step _ _ _ _ _ _ _ _ _ Hstep Hk1) in Hloop.
    destruct (IH _ _ _ _ Hps1 Hloop) as (Hf & Hg & Hinv & Hev & Hrel).
    split_and!; try congruence.
    intros k0 p0 Hk0. destruct (decide (k0 = k)) as [->|Hne].
    + destruct (Hrel k pk' Hk1) as (p'' & Hk'' & Himp).
      exists p''. split; [done|]. intros _. apply Himp. by right.
    + assert (Hk01 : payouts w1 !! k0 = Some p0)
        by (by rewrite Hp1, lookup_insert_ne).
      destruct (Hrel k0 p0 Hk01) as (p'' & Hk'' & Himp).
      exists p''. split; [done|].
      intros [[->|Hin]%elem_of_cons|Hs]; [done|apply Himp; by left|].
      apply Himp. by right.
Qed.

(** A transition writes to its own payout only. *)
Lemma process_single_frame run k event w :
  ∀ k0, k0 ≠ k →
    payouts (_process_single_payout run k event w).2 !! k0 = payouts w !! k0.
Proof.
  intros k0 Hne.
  destruct (payouts w !! k) as [p|] eqn:Hk;
    [|by rewrite process_missing].
  destruct (eligible (eligibility_of p)) eqn:Hel.
  - pose proof (process_eligible run k event w p Hk Hel) as Hcase.
    destruct (Py.int_round (Payout.amount p * 100)) as [cents|].
    + destruct Hcase as (wr & r & ps & io & p' & w' & _ & _ & _ & Hrun & Hp & _).
      rewrite Hrun. cbn [snd]. by rewrite Hp, lookup_insert_ne.
    + destruct Hcase as (e & w' & Hrun & Hp & _).
      rewrite Hrun. cbn [snd]. by rewrite Hp, lookup_insert_ne.
  - destruct (process_skipped run k event w p Hk Hel) as (w' & Hrun & Hp & _).
    rewrite Hrun. cbn [snd]. by rewrite Hp, lookup_insert_ne.
Qed.

Lemma process_payouts_app run event todo1 todo2 :
  ∀ t w,
    process_payouts run event (todo1 ++ todo2) t w
    = match process_payouts run event todo1 t w with
      | (Return t1, w1) => process_payouts run event todo2 t1 w1
      | (Raise e, w1) => (Raise e, w1)
      end.
Proof.
  induction todo1 as [|k todo1 IH]; intros t w; [done|].
  destruct (_process_single_payout run k event w) as [[res|e] w1] eqn:Hstep.
  - destruct (process_single_result _ _ _ _ _ _ Hstep) as [_ [p' Hp']].
    cbn [app].
    by rewrite !(process_payouts_step _ _ _ _ _ _ _ _ _ Hstep Hp'), IH.
  - cbn [app]. by rewrite !(process_payouts_raise _ _ _ _ _ _ _ _ Hstep).
Qed.

(** A payout that the gate rejects, through a loop that ends normally,
    whatever the provider does for the others: it is at most skipped
    again. *)
Lemma process_payouts_rejected run event todo k :
  ∀ t w t' w' p,
    process_payouts run event todo t w = (Return t', w') →
    payouts w !! k = Some p →
    eligible (eligibility_of p) = false →
    ∃ p', payouts w' !! k = Some p' ∧ reskipped p p'
          ∧ (k ∉ todo → p' = p)
          ∧ (k ∈ todo →
             Payout.status p' = SKIPPED
             ∧ Payout.skip_reason p'
               = SkipReason_value <$> skip_reason (eligibility_of p)).
Proof.
  induction todo as [|k1 todo IH]; intros t w t' w' p Hloop Hk Hel.
  - injection Hloop as <- <-. exists p. split_and!; try done.
    + apply reskipped_refl.
    + by intros ?%elem_of_nil.
  - destruct (_process_single_payout run k1 event w) as [[res|e] w1] eqn:Hstep;
      [|by rewrite (process_payouts_raise _ _ _ _ _ _ _ _ Hstep) in Hloop].
    destruct (process_single_result _ _ _ _ _ _ Hstep) as [_ [p1 Hp1]].
    rewrite (process_payouts_step _ _ _ _ _ _ _ _ _ Hstep Hp1) in Hloop.
    destruct (decide (k = k1)) as [<-|Hne].
    + destruct (process_skipped_payout run k event w p Hk Hel)
        as (pk' & w1' & Hrun & Hpk & _ & Hrs & Hst & Hsr).
      rewrite Hrun in Hstep. injection Hstep as <- <-.
      assert (p1 = pk') as ->
        by (rewrite Hpk, lookup_insert_eq in Hp1; congruence).
      destruct (IH _ _ _ _ pk' Hloop Hp1) as (p'' & Hk'' & Hrs' & Hout & Hin).
      { by rewrite (reskipped_eligibility p pk'). }
      exists p''. split_and!; [done|by apply (reskipped_trans p pk')| |].
      { intros Hnot. exfalso. apply Hnot. by left. }
      intros _. destruct (decide (k ∈ todo)) as [Hink|Hnink].
      * destruct (Hin Hink) as [-> ->].
        by rewrite (reskipped_eligibility p pk').
      * by rewrite (Hout Hnink).
    + assert (Hk1 : payouts w1 !! k = Some p).
      { pose proof (process_single_frame run k1 event w k Hne) as Hfr.
        rewrite Hstep in Hfr. cbn [snd] in Hfr. by rewrite Hfr. }
      destruct (IH _ _ _ _ p Hloop Hk1 Hel) as (p'' & Hk'' & Hrs' & Hout & Hin).
      exists p''. split_and!; try done.
      { intros Hnot. apply Hout. intros ?. apply Hnot. by right. }
      intros [->|Hin0]%elem_of_cons; [done|]. by apply Hin.
Qed.

(** The same payout, when it is in the loop: the last thing the loop
    did to its notes was to append the note of the skip; if the loop
    has it once, that note follows the notes it started with. *)
Lemma process_payouts_rejected_note run event todo k :
  ∀ t w t' w' p,
    process_payouts run event todo t w = (Return t', w') →
    payouts w !! k = Some p →
    eligible (eligibility_of p) = false →
    k ∈ todo →
    ∃ p' older stamp,
      payouts w' !! k = Some p'
      ∧ notes_extend (Payout.notes p) older
      ∧ Payout.notes p'
        = Some (note_text older stamp
                  ("Skipped: " +:+ message (eligibility_of p)))
      ∧ (NoDup todo → older = Payout.notes p).
Proof.
  induction todo as [|k1 todo IH]; intros t w t' w' p Hloop Hk Hel Hin.
  - by apply elem_of_nil in Hin.
  - destruct (_process_single_payout run k1 event w) as [[res|e] w1] eqn:Hstep;
      [|by rewrite (process_payouts_raise _ _ _ _ _ _ _ _ Hstep) in Hloop].
    destruct (process_single_result _ _ _ _ _ _ Hstep) as [_ [p1 Hp1]].
    rewrite (process_payouts_step _ _ _ _ _ _ _ _ _ Hstep Hp1) in Hloop.
    destruct (decide (k = k1)) as [<-|Hne].
    + destruct (process_skipped run k event w p Hk Hel)
        as (w1' & Hrun & Hpk & _).
      rewrite Hrun in Hstep. injection Hstep as <- <-.
      rewrite Hpk, lookup_insert_eq in Hp1. injection Hp1 as <-.
      match type of Hpk with
      | _ = <[_ := ?q]> _ => set (pk' := q) in *
      end.
      assert (Hk1 : payouts w1' !! k = Some pk')
        by (by rewrite Hpk, lookup_insert_eq).
      assert (Hel' : eligibility_of pk' = eligibility_of p)
        by (by apply eligibility_of_ext).
      destruct (decide (k ∈ todo)) as [Hink|Hnink].
      * destruct (IH _ _ _ _ pk' Hloop Hk1) as (p'' & older & stamp & Hk'' & Hext & Hn & _);
          [by rewrite Hel'|done|].
        exists p'', older, stamp. split_and!; try done.
        -- apply (notes_extend_trans _ (Payout.notes pk')); [|done].
           apply notes_extend_note_text.
        -- intros Hnd. apply NoDup_cons in Hnd as [Hnot _]. done.
      * destruct (process_payouts_rejected run event _ k _ _ _ _ pk' Hloop Hk1)
          as (p'' & Hk'' & _ & Hout & _); [by rewrite Hel'|].
        rewrite (Hout Hnink) in Hk''.
        exists pk', (Payout.notes p), (clock w). split_and!; try done.
        apply notes_extend_refl.
    + assert (Hk1 : payouts w1 !! k = Some p).
      { pose proof (process_single_frame run k1 event w k Hne) as Hfr.
        rewrite Hstep in Hfr. cbn [snd] in Hfr. by rewrite Hfr. }
      apply elem_of_cons in Hin as [?|Hin]; [done|].
      destruct (IH _ _ _ _ p Hloop Hk1 Hel Hin)
        as (p'' & older & stamp & Hk'' & Hext & Hn & Honce).
      exists p'', older, stamp. split_and!; try done.
      intros Hnd. apply NoDup_cons in Hnd as [_ Hnd]. by apply Honce.
Qed.

End IdempotenceFacts.

(* ===================================================================== *)
(** * Runs against an event that has been run before *)
(* ===================================================================== *)

Section RerunFacts.
  Context {PS : Type} `{PaymentProvider PS} `{PyRuntime}.
  Implicit Types (w : @World PS) (p : Payout.t) (k : PayoutKey) (t : Tally).

(** The parts of a run that reached COMPLETED. *)
Lemma completed_run_inv evid w run w' :
  execute_run evid w = (Return run, w') →
  PayoutRun.status run = RUN_COMPLETED →
  ∃ event run0 w1 tally w2,
    liquidation_events w !! evid = Some event
    ∧ session_only w w1
    ∧ (∀ i p0, payouts w !! (evid, i) = Some p0 →
         ∃ p, payouts w1 !! (evid, i) = Some p ∧ reattached run0 p0 p)
    ∧ (∀ k0, k0 ∈ payout_keys evid (investors w) →
         is_Some (payouts w1 !! k0))
    ∧ process_payouts run0 event (payout_keys evid (investors w)) tally0 w1
      = (Return tally, w2)
    ∧ run = completed_run run0 tally (clock w2)
    ∧ session_only w2 w' ∧ payouts w' = payouts w2.
Proof.
  intros Hrun Hst.
  destruct (liquidation_events w !! evid) as [event|] eqn:Hev.
  - destruct (execute_run_found evid w event Hev)
      as (run0 & w0 & Hso0 & Hp0 & _ & Hfound).
    destruct (run_setup run0 event evid w w0 Hp0)
      as (added & w1 & Hens & Hso1 & Hsnap & Hpres & _).
    destruct (Hfound added w1 Hens) as [Hdup Hnodup].
    destruct (decide (NoDup added)) as [Hnd|Hnd];
      [|destruct (Hdup Hnd) as [e He]; congruence].
    specialize (Hnodup Hnd).
    destruct (process_payouts run0 event (payout_keys evid (investors w))
                tally0 w1) as [[tally|e] w2] eqn:Hloop;
      specialize (Hnodup _ _ eq_refl); cbv beta iota in Hnodup;
      [|congruence].
    destruct Hnodup as (w3 & Hrun3 & Hso3 & Hp3 & _).
    rewrite Hrun3 in Hrun. injection Hrun as <- <-.
    exists event, run0, w1, tally, w2. split_and!; try done.
    by apply (session_only_trans w w0 w1).
  - destruct (execute_run_not_found evid w Hev) as (run1 & w1 & Hrun1 & Hf & _).
    rewrite Hrun1 in Hrun. injection Hrun as <- <-. congruence.
Qed.

(** A run over recipients whose payouts all exist and are rejected by
    the gate: it completes, skips every one of them and calls the
    provider for none. *)
Lemma execute_run_all_rejected evid w event :
  liquidation_events w !! evid = Some event →
  (∀ inv, inv ∈ investors w →
     ∃ p, payouts w !! (evid, Investor.id inv) = Some p
          ∧ eligible (eligibility_of p) = false) →
  ∃ run w',
    execute_run evid w = (Return run, w')
    ∧ PayoutRun.status run = RUN_COMPLETED
    ∧ PayoutRun.created_count run = 0
    ∧ PayoutRun.failed_count run = 0
    ∧ PayoutRun.skipped_count run = Z.of_nat (length (investors w))
    ∧ session_only w w'
    ∧ (∀ inv p, inv ∈ investors w →
         payouts w !! (evid, Investor.id inv) = Some p →
         Payout.status p ∈ [COMPLETED; SKIPPED] →
         ∃ p', payouts w' !! (evid, Investor.id inv) = Some p'
               ∧ reskipped p p'
               ∧ Payout.status p' = SKIPPED
               ∧ Payout.skip_reason p'
                 = SkipReason_value <$> skip_reason (eligibility_of p)).
Proof.
  intros Hev Hall.
  destruct (execute_run_found evid w event Hev)
    as (run0 & w0 & Hso0 & Hp0 & _ & Hfound).
  destruct (run_setup run0 event evid w w0 Hp0)
    as (added & w1 & Hens & Hso1 & Hsnap & Hpres & _ & Hadd).
  assert (added = []) as ->.
  { apply Hadd. intros inv Hin. destruct (Hall inv Hin) as (p & -> & _). eauto. }
  destruct (Hfound [] w1 Hens) as [_ Hnodup].
  specialize (Hnodup (NoDup_nil_2)).
  destruct (process_payouts_ineligible run0 event
              (payout_keys evid (investors w)) tally0 w1)
    as (t' & w2 & Hloop & Hsu & Hfa & Hsk & Hso2 & Hrel).
  { intros k (inv & -> & Hin)%list_elem_of_fmap.
    destruct (Hall inv Hin) as (p0 & Hk0 & Hel).
    destruct (Hsnap _ _ Hk0) as (p & Hk & Hre).
    exists p. split; [done|].
    destruct Hre as [->|[_ ->]]; done. }
  destruct (Hnodup _ _ Hloop) as (w3 & Hrun & Hso3 & Hp3 & _).
  eexists _, w3. split; [exact Hrun|]. split_and!; try done.
  - unfold payout_keys in Hsk. rewrite length_fmap in Hsk. exact Hsk.
  - apply (session_only_trans w w0 w3); [done|].
    apply (session_only_trans w0 w1 w3); [done|].
    by apply (session_only_trans w1 w2 w3).
  - intros inv p Hin Hk Hst.
    destruct (Hsnap _ _ Hk) as (p1 & Hk1 & Hre).
    apply reattached_terminal in Hre as ->; [|done].
    destruct (Hrel _ _ Hk1) as (p' & Hk' & Hrs & _ & Hskip).
    exists p'. rewrite Hp3. split_and!; try done.
    all: apply Hskip, list_elem_of_fmap; by exists inv.
Qed.

(** C1, as the code has it.  Whenever the loop of a run reaches a payout
    whose provider order id is a non-empty string, the payout is marked
    skipped with reason existing_payment_order and the provider is not
    called: the transition adds nothing to the trace of provider calls
    and leaves the provider and the order id as they are, and the loop
    goes on with the payout counted as skipped. *)
Theorem existing_order_never_resubmitted run event k w p :
  payouts w !! k = Some p →
  Py.truthy_str (Payout.payment_order_id p) = true →
  ∃ w' p',
    _process_single_payout run k event w = (Return "skipped", w')
    ∧ new_io w w' = [] ∧ provider_state w' = provider_state w
    ∧ payouts w' !! k = Some p'
    ∧ Payout.status p' = SKIPPED
    ∧ Payout.skip_reason p' = Some "existing_payment_order"
    ∧ Payout.payment_order_id p' = Payout.payment_order_id p
    ∧ ∀ pre post t w0 t1,
        process_payouts run event pre t w0 = (Return t1, w) →
        process_payouts run event (pre ++ k :: post) t w0
        = process_payouts run event post (tally_add "skipped" p' t1) w'.
Proof.
  intros Hk Ht.
  destruct (truthy_order_id_ineligible p Ht) as [Hel Hreason].
  destruct (process_skipped_payout run k event w p Hk Hel)
    as (p' & w' & Hstep & Hp & (Hio & Hps & _) & Hrs & Hst & Hsr).
  assert (Hk' : payouts w' !! k = Some p')
    by (by rewrite Hp, lookup_insert_eq).
  exists w', p'. split_and!; try done.
  - unfold new_io. rewrite Hio. apply drop_all.
  - by rewrite Hsr, Hreason.
  - by destruct Hrs as (_ & _ & _ & ? & _).
  - intros pre post t w0 t1 Hpre.
    rewrite process_payouts_app, Hpre.
    apply (process_payouts_step _ _ _ _ _ _ _ _ _ Hstep Hk').
Qed.

(** C2, as the code has it.  After a completed run with a provider that
    always succeeds and returns non-empty order ids, a second run against
    the same event completes with created_count 0, failed_count 0 and
    skipped_count equal to the number of recipients, that is to the
    created and the skipped payouts of the first run together; it calls
    the provider for none, and every payout that the first run left
    completed is skipped with reason existing_payment_order. *)
Theorem second_run_skips_every_payout (good : PS → Prop) evid w run1 w1 :
  succeeds_from good → good (provider_state w) →
  execute_run evid w = (Return run1, w1) →
  PayoutRun.status run1 = RUN_COMPLETED →
  ∃ run2 w2,
    execute_run evid w1 = (Return run2, w2)
    ∧ PayoutRun.status run2 = RUN_COMPLETED
    ∧ PayoutRun.created_count run2 = 0
    ∧ PayoutRun.failed_count run2 = 0
    ∧ PayoutRun.skipped_count run2 = Z.of_nat (length (investors w))
    ∧ PayoutRun.skipped_count run2
      = PayoutRun.created_count run1 + PayoutRun.skipped_count run1
    ∧ new_io w1 w2 = []
    ∧ (∀ inv p, inv ∈ investors w →
         payouts w1 !! (evid, Investor.id inv) = Some p →
         Payout.status p = COMPLETED →
         ∃ p', payouts w2 !! (evid, Investor.id inv) = Some p'
               ∧ Payout.status p' = SKIPPED
               ∧ Payout.skip_reason p' = Some "existing_payment_order").
Proof.
  intros Hgood Hps Hrun1 Hst1.
  destruct (completed_run_inv evid w run1 w1 Hrun1 Hst1)
    as (event & run0 & ws & tally & wl & Hev & (_ & Hpss & Hinvs & Hevs)
        & _ & Hpres & Hloop & -> & (_ & _ & Hinv1 & Hev1) & Hp1).
  destruct (process_payouts_settles good run0 event _ Hgood _ _ _ _
              ltac:(by rewrite Hpss) Hloop)
    as (Hfail & _ & Hinvl & Hevl & Hrel).
  assert (Hinv : investors w1 = investors w) by congruence.
  assert (Hsettled : ∀ inv, inv ∈ investors w →
            ∃ p, payouts w1 !! (evid, Investor.id inv) = Some p ∧ settled p).
  { intros inv Hin.
    assert (Hkey : (evid, Investor.id inv) ∈ payout_keys evid (investors w))
      by (apply list_elem_of_fmap; by exists inv).
    destruct (Hpres _ Hkey) as [p0 Hp0].
    destruct (Hrel _ _ Hp0) as (p & Hp & Hs).
    exists p. rewrite Hp1. split; [done|]. apply Hs. by left. }
  destruct (execute_run_all_rejected evid w1 event)
    as (run2 & w2 & Hrun2 & Hst2 & Hc2 & Hf2 & Hs2 & (Hio2 & _) & Hrel2).
  { congruence. }
  { intros inv Hin. rewrite Hinv in Hin.
    destruct (Hsettled inv Hin) as (p & Hp & Hel & _). eauto. }
  exists run2, w2. split_and!; try done.
  - by rewrite Hs2, Hinv.
  - rewrite Hs2, Hinv.
    apply process_payouts_total in Hloop.
    unfold tally_total, payout_keys in Hloop. rewrite length_fmap in Hloop.
    cbn [completed_run PayoutRun.created_count PayoutRun.skipped_count].
    rewrite Hfail in Hloop. simpl in Hloop. lia.
  - unfold new_io. rewrite Hio2. apply drop_all.
  - intros inv p Hin Hp Hst.
    destruct (Hsettled inv Hin) as (p0 & Hp0 & Hel & Hord).
    assert (p0 = p) as -> by congruence.
    destruct (Hrel2 inv p) as (p' & Hp' & _ & Hst' & Hsr');
      [by rewrite Hinv|done|rewrite Hst; by left|].
    exists p'. split_and!; try done.
    destruct (truthy_order_id_ineligible p (Hord Hst)) as [_ Hreason].
    by rewrite Hsr', Hreason.
Qed.

(** C3, as the code has it.  A payout of a recipient that is completed
    or skipped at the start of a run is not attached to the run, but it
    is put through the transition again: when the gate rejects it (as it
    does whenever the payout has a non-empty order id) and the run
    completes, its run, its routing fields and its order id are the same
    after the run as before, its status is skipped, its skip reason is
    the gate's reason, and a note has been appended to its notes: they
    are the notes it had, followed by the time-stamped line "Skipped: "
    with the gate's message; when no recipient is listed twice, nothing
    but that line has been appended. *)
Theorem terminal_payout_is_skipped_again evid w inv p run w' :
  inv ∈ investors w →
  payouts w !! (evid, Investor.id inv) = Some p →
  Payout.status p ∈ [COMPLETED; SKIPPED] →
  eligible (eligibility_of p) = false →
  execute_run evid w = (Return run, w') →
  PayoutRun.status run = RUN_COMPLETED →
  ∃ p',
    payouts w' !! (evid, Investor.id inv) = Some p'
    ∧ Payout.run_id p' = Payout.run_id p
    ∧ same_routing p p'
    ∧ Payout.payment_order_id p' = Payout.payment_order_id p
    ∧ Payout.status p' = SKIPPED
    ∧ Payout.skip_reason p'
      = SkipReason_value <$> skip_reason (eligibility_of p)
    ∧ note_appended (Payout.notes p) (Payout.notes p')
        ("Skipped: " +:+ message (eligibility_of p))
    ∧ (NoDup (Investor.id <$> investors w) →
       ∃ stamp,
         Payout.notes p'
         = Some (note_text (Payout.notes p) stamp
                   ("Skipped: " +:+ message (eligibility_of p)))).
Proof.
  intros Hin Hp Hst Hel Hrun Hstr.
  destruct (completed_run_inv evid w run w' Hrun Hstr)
    as (event & run0 & ws & tally & wl & _ & _ & Hsnap & _ & Hloop & _ & _ & Hp').
  destruct (Hsnap _ _ Hp) as (p1 & Hp1 & Hre).
  apply reattached_terminal in Hre as ->; [|done].
  assert (Hkey : (evid, Investor.id inv) ∈ payout_keys evid (investors w))
    by (apply list_elem_of_fmap; by exists inv).
  destruct (process_payouts_rejected run0 event _ _ _ _ _ _ _ Hloop Hp1 Hel)
    as (p' & Hk' & (_ & Hrt & Hrid & Hord & _) & _ & Hskip).
  destruct (Hskip Hkey) as [Hst' Hsr'].
  destruct (process_payouts_rejected_note run0 event _ _ _ _ _ _ _
              Hloop Hp1 Hel Hkey)
    as (p2 & older & stamp & Hk2 & Hext & Hnotes & Honce).
  assert (p2 = p') as -> by congruence.
  exists p'. rewrite Hp'. split_and!; try done.
  - rewrite Hnotes. by apply note_appended_note_text.
  - intros Hnd. exists stamp. rewrite Hnotes, Honce; [done|].
    assert (Hinj : Inj (=) (=) (λ i : string, (evid, i)))
      by (by intros i1 i2 [=]).
    change (NoDup (((λ i, (evid, i)) ∘ Investor.id) <$> investors w)).
    rewrite list_fmap_compose. by apply (NoDup_fmap_2 _).
Qed.

End RerunFacts.

(* ===================================================================== *)
(** * More on the rail selector *)
(* ===================================================================== *)

Lemma is_space_upper_ascii (c : ascii) :
  Py.is_space (Py.upper_ascii c) = Py.is_space c.
Proof. destruct c as [[] [] [] [] [] [] [] []]; reflexivity. Qed.

Lemma upper_ascii_idemp (c : ascii) :
  Py.upper_ascii (Py.upper_ascii c) = Py.upper_ascii c.
Proof. destruct c as [[] [] [] [] [] [] [] []]; reflexivity. Qed.

Lemma upper_idemp (s : string) : Py.upper (Py.upper s) = Py.upper s.
Proof.
  induction s as [|c s IH]; [done|].
  cbn [Py.upper]. by rewrite upper_ascii_idemp, IH.
Qed.

Lemma lstrip_upper (s : string) : Py.lstrip (Py.upper s) = Py.upper (Py.lstrip s).
Proof.
  induction s as [|c s IH]; [done|].
  cbn [Py.upper Py.lstrip]. rewrite is_space_upper_ascii.
  by destruct (Py.is_space c).
Qed.

Lemma rstrip_upper (s : string) : Py.rstrip (Py.upper s) = Py.upper (Py.rstrip s).
Proof.
  induction s as [|c s IH]; [done|].
  cbn [Py.upper Py.rstrip]. rewrite IH, is_space_upper_ascii.
  destruct (Py.rstrip s); cbn [Py.upper]; [|done].
  by destruct (Py.is_space c).
Qed.

Lemma strip_upper (s : string) : Py.strip (Py.upper s) = Py.upper (Py.strip s).
Proof. unfold Py.strip. by rewrite lstrip_upper, rstrip_upper. Qed.

(** What [lstrip] returns does not start with white space. *)
Lemma lstrip_head (s : string) :
  match Py.lstrip s with
  | EmptyString => True
  | String c _ => Py.is_space c = false
  end.
Proof.
  induction s as [|c s IH]; [done|].
  cbn [Py.lstrip]. by destruct (Py.is_space c) eqn:Hc.
Qed.

Lemma rstrip_idemp (s : string) : Py.rstrip (Py.rstrip s) = Py.rstrip s.
Proof.
  induction s as [|c s IH]; [done|].
  cbn [Py.rstrip]. destruct (Py.rstrip s) as [|c' r] eqn:Hr.
  - destruct (Py.is_space c) eqn:Hc; [done|].
    cbn [Py.rstrip]. by rewrite Hc.
  - change (Py.rstrip (String c (String c' r)))
      with (match Py.rstrip (String c' r) with
            | EmptyString =>
                if Py.is_space c then EmptyString else String c EmptyString
            | r0 => String c r0
            end).
    by rewrite IH.
Qed.

Lemma strip_idemp (s : string) : Py.strip (Py.strip s) = Py.strip s.
Proof.
  unfold Py.strip. pose proof (lstrip_head s) as Hh.
  destruct (Py.lstrip s) as [|c r]; [done|].
  assert (Hkeep : Py.rstrip (String c r) = String c (Py.rstrip r)).
  { cbn [Py.rstrip]. destruct (Py.rstrip r); [by rewrite Hh|done]. }
  rewrite Hkeep. cbn [Py.lstrip]. rewrite Hh. rewrite <- Hkeep.
  apply rstrip_idemp.
Qed.

Lemma str_or_Some_empty (s : string) : Py.str_or (Some s) "" = s.
Proof. by destruct s. Qed.

Lemma normalize_country_idemp (cc : option string) :
  normalize_country (Some (normalize_country cc)) = normalize_country cc.
Proof.
  unfold normalize_country. rewrite str_or_Some_empty.
  by rewrite strip_upper, upper_idemp, strip_idemp.
Qed.

(** The selector reads its country argument through [normalize_country]
    only. *)
Lemma select_rail_ext (cc1 cc2 pm1 pm2 : option string) (aba : bool) :
  normalize_country cc1 = normalize_country cc2 →
  select_rail cc1 pm1 aba = select_rail cc2 pm2 aba.
Proof. unfold select_rail. by intros ->. Qed.

(** X1.  The decision depends on the country code only up to case,
    surrounding white space and absence: the normalised code, the
    upper-cased code and the stripped code are routed like the code
    itself, and an absent code like the empty one. *)
Theorem select_rail_normalizes_country (country_code : option string)
    (s : string) (payment_method : option string) (has_aba_routing : bool) :
  select_rail (Some (normalize_country country_code)) payment_method
    has_aba_routing
  = select_rail country_code payment_method has_aba_routing
  ∧ select_rail (Some (Py.upper s)) payment_method has_aba_routing
    = select_rail (Some s) payment_method has_aba_routing
  ∧ select_rail (Some (Py.strip s)) payment_method has_aba_routing
    = select_rail (Some s) payment_method has_aba_routing
  ∧ select_rail None payment_method has_aba_routing
    = select_rail (Some "") payment_method has_aba_routing.
Proof.
  split_and!; apply select_rail_ext.
  - apply normalize_country_idemp.
  - unfold normalize_country. rewrite !str_or_Some_empty.
    by rewrite strip_upper, upper_idemp.
  - unfold normalize_country. rewrite !str_or_Some_empty.
    by rewrite strip_idemp.
  - reflexivity.
Qed.

(** Every entry of the table pays in a currency other than USD, has a
    subtype that is not empty, and is no domestic rail. *)
Lemma GLOBAL_ACH_MAP_foreign (c : string) (cfg : RailConfig) :
  GLOBAL_ACH_MAP !! c = Some cfg →
  default "USD" (rc_currency cfg) ≠ "USD"
  ∧ Py.truthy_str (Some (rc_subtype cfg)) = true
  ∧ rc_subtype cfg ≠ "ach" ∧ rc_subtype cfg ≠ "wire"
  ∧ rc_subtype cfg ≠ "CCD".
Proof.
  intros Hin%GLOBAL_ACH_MAP_entry.
  assert (Hall : Forall (λ e, default "USD" (rc_currency e.2) ≠ "USD"
                              ∧ Py.truthy_str (Some (rc_subtype e.2)) = true
                              ∧ rc_subtype e.2 ≠ "ach"
                              ∧ rc_subtype e.2 ≠ "wire"
                              ∧ rc_subtype e.2 ≠ "CCD")
                   GLOBAL_ACH_ENTRIES).
  { unfold GLOBAL_ACH_ENTRIES, SEPA_COUNTRIES; cbn [map app].
    repeat (constructor; [by split_and!|]). constructor. }
  rewrite Forall_forall in Hall. apply (Hall _ Hin).
Qed.

(** The cases of the selector, as a disjunction. *)
Lemma select_rail_cases (cc pm : option string) (aba : bool) :
  let d := select_rail cc pm aba in
  (is_domestic_ach d ∧ purpose d = None
   ∧ (aba = true ∨ normalize_country cc = "US"))
  ∨ (∃ cfg, GLOBAL_ACH_MAP !! normalize_country cc = Some cfg
            ∧ aba = false ∧ is_cross_border_of cfg d)
  ∨ (is_wire_fallback d ∧ purpose d = None ∧ aba = false
     ∧ normalize_country cc ≠ "US"
     ∧ GLOBAL_ACH_MAP !! normalize_country cc = None).
Proof.
  intros d. subst d.
  destruct (decide (normalize_country cc = "US")) as [Hus|Hus].
  { left. rewrite (select_rail_US _ _ _ Hus). by split_and!; [..|right]. }
  destruct aba.
  { left. rewrite (select_rail_aba _ _ Hus). by split_and!; [..|left]. }
  rewrite (select_rail_table _ _ Hus).
  destruct (GLOBAL_ACH_MAP !! normalize_country cc) as [cfg|] eqn:Hcfg.
  - right; left. exists cfg. split_and!; try done.
    unfold is_cross_border_of.
    cbn [payment_type subtype currency purpose fx_indicator].
    by rewrite <- (GLOBAL_ACH_MAP_currency _ cfg Hcfg).
  - right; right. by split_and!.
Qed.

(** X2.  The FX indicator marks the cross-border decisions, and these are
    the decisions in a currency other than USD: for every input the three
    tests [is_cross_border], "has the fixed-to-variable indicator" and
    "currency is not USD" agree; a decision that is not cross-border has
    neither an indicator nor a purpose code. *)
Theorem fx_indicator_marks_cross_border (country_code payment_method : option string)
    (has_aba_routing : bool) :
  let d := select_rail country_code payment_method has_aba_routing in
  (is_cross_border d = true ↔ fx_indicator d = Some "fixed_to_variable")
  ∧ (is_cross_border d = true ↔ currency d ≠ "USD")
  ∧ (is_cross_border d = false → fx_indicator d = None ∧ purpose d = None).
Proof.
  intros d.
  destruct (select_rail_cases country_code payment_method has_aba_routing)
    as [((Ht & _ & Hc & Hfx) & Hp & _)
       |[(cfg & Hcfg & _ & Ht & _ & Hc & _ & Hfx)
        |((Ht & Hc & _ & Hfx) & Hp & _)]];
    fold d in Ht, Hc, Hfx; try fold d in Hp;
    unfold is_cross_border; rewrite Ht, Hfx.
  - rewrite Hc. split_and!; [split|split|]; done.
  - destruct (GLOBAL_ACH_MAP_foreign _ _ Hcfg) as (Hne & _).
    rewrite <- Hc in Hne. cbn [default] in Hne.
    split_and!; [split|split|]; done.
  - rewrite Hc. split_and!; [split|split|]; done.
Qed.

(** X3.  The wire fallback is the answer exactly for a recipient without
    US bank details whose normalised country is not one of
    SUPPORTED_COUNTRIES; a supported country never falls back to wire. *)
Theorem wire_fallback_iff_unsupported (country_code payment_method : option string)
    (has_aba_routing : bool) :
  payment_type (select_rail country_code payment_method has_aba_routing)
  = "wire"
  ↔ has_aba_routing = false
    ∧ normalize_country country_code ∉ SUPPORTED_COUNTRIES.
Proof.
  unfold SUPPORTED_COUNTRIES.
  rewrite not_elem_of_union, not_elem_of_singleton, not_elem_of_dom.
  destruct (select_rail_cases country_code payment_method has_aba_routing)
    as [((Ht & _) & _ & Hwhy)
       |[(cfg & Hcfg & Haba & Ht & _)
        |((Ht & _) & _ & Haba & Hus & Hnone)]];
    rewrite Ht.
  - split; [done|]. intros (Haba & Hus & _).
    destruct Hwhy as [Hwhy|Hwhy]; congruence.
  - split; [done|]. intros (_ & _ & Hnone). congruence.
  - done.
Qed.

(* ===================================================================== *)
(** * More on the retry wrapper *)
(* ===================================================================== *)

Lemma retried_cons request d ws :
  retried request (d :: ws) = [IOCall request; IOSleep d] ++ retried request ws.
Proof. reflexivity. Qed.

Section RetryMore.
  Context {PS : Type} `{PaymentProvider PS}.
  Implicit Types (w : @World PS) (request : PaymentOrderRequest.t).

(** X4.  A negative retry budget leaves the loop without an iteration:
    the wrapped operation is not invoked at all and the wrapper raises
    its own [ProviderError("Unknown error after retries")], with the
    defaults of the class (status 500, retriable). *)
Theorem with_retry_without_attempts {A} (func : M A) (max_retries : Z) w :
  max_retries < 0 →
  with_retry func max_retries w
  = (Raise (ExcProvider
              (BaseProviderError "Unknown error after retries" 500 true)), w).
Proof.
  intros Hneg. unfold with_retry.
  rewrite Z2Nat.nonpos by lia. reflexivity.
Qed.

(** The loop with [todo + 1] iterations left, of which the last is the
    one with [attempt = max_retries]. *)
Lemma retry_loop_shape request max_retries todo :
  ∀ attempt delay last_error w,
    attempt + Z.of_nat todo = max_retries →
    ∃ r ps ws,
      retry_loop (call_provider request) max_retries (S todo) attempt delay
        last_error w
      = (r, with_provider ps (retried request ws ++ [IOCall request]) w)
      ∧ (length ws ≤ todo)%nat.
Proof.
  induction todo as [|todo IH]; intros attempt delay last_error w Hsum.
  - cbn [retry_loop]. rewrite call_provider_eq.
    destruct (create_payment_order (provider_state w) request) as [r ps1].
    cbn [fst snd].
    destruct r as [v|[e|c m]];
      [by exists (Return v), ps1, []
      | |by exists (Raise (ExcOther c m)), ps1, []].
    destruct (err_retriable e); cbn [negb];
      [|by exists (Raise (ExcProvider e)), ps1, []].
    destruct (Z.ltb_spec attempt max_retries); [lia|].
    by exists (Raise (ExcProvider e)), ps1, [].
  - remember (S todo) as n eqn:Hn. cbn [retry_loop]. subst n.
    rewrite call_provider_eq.
    destruct (create_payment_order (provider_state w) request) as [r ps1].
    cbn [fst snd].
    destruct r as [v|[e|c m]];
      [exists (Return v), ps1, []; split; [done|simpl; lia]
      | |exists (Raise (ExcOther c m)), ps1, []; split; [done|simpl; lia]].
    destruct (err_retriable e); cbn [negb];
      [|exists (Raise (ExcProvider e)), ps1, []; split; [done|simpl; lia]].
    destruct (Z.ltb_spec attempt max_retries); [|lia].
    unfold sleep, modify. unfold mbind at 1. unfold M_bind at 1.
    cbv beta iota. rewrite with_provider_with_provider.
    assert (Hsum' : attempt + 1 + Z.of_nat todo = max_retries) by lia.
    match goal with
    | |- context [retry_loop _ _ _ _ ?d ?l ?w1] =>
        destruct (IH (attempt + 1) d l w1 Hsum') as (r & ps & ws & -> & Hlen)
    end.
    rewrite with_provider_with_provider.
    exists r, ps, (sleep_for delay e :: ws). split; [|simpl; lia].
    by rewrite retried_cons, <- app_assoc.
Qed.

(** X5.  Whatever the provider answers, a call through the wrapper with
    a budget of [max_retries ≥ 0] retries shows as a trace of invocations
    of the same request with one wait between two consecutive
    invocations and none after the last: at least one invocation and at
    most [max_retries + 1], and one wait less than invocations. *)
Theorem with_retry_trace_shape request (max_retries : Z) w :
  0 ≤ max_retries →
  ∃ ws,
    new_io w (with_retry (call_provider request) max_retries w).2
    = retried request ws ++ [IOCall request]
    ∧ Z.of_nat (length ws) ≤ max_retries
    ∧ count_calls (new_io w (with_retry (call_provider request)
                               max_retries w).2) = S (length ws)
    ∧ sleeps_of (new_io w (with_retry (call_provider request)
                             max_retries w).2) = ws.
Proof.
  intros Hle. unfold with_retry.
  replace (Z.to_nat (max_retries + 1)) with (S (Z.to_nat max_retries)) by lia.
  assert (Hsum : 0 + Z.of_nat (Z.to_nat max_retries) = max_retries) by lia.
  destruct (retry_loop_shape request max_retries (Z.to_nat max_retries)
              0 BASE_DELAY None w Hsum) as (r & ps & ws & -> & Hlen).
  exists ws. cbn [snd]. rewrite new_io_with_provider.
  split_and!; [done|lia| |].
  - rewrite count_calls_app, count_calls_retried.
    change (count_calls [IOCall request]) with 1%nat. lia.
  - rewrite sleeps_of_app, sleeps_of_retried.
    change (sleeps_of [IOCall request]) with (@nil float).
    by rewrite app_nil_r.
Qed.

(** X6.  An answer that is a response, a provider error that is not
    retriable, or an exception of another class ends the loop at once,
    also after retriable failures: it is the result of the wrapper, the
    invocation that produced it is the last one, and no wait follows. *)
Theorem with_retry_stops_at_final_answer request (max_retries : Z)
    (errs : list ProviderError) (r : Res PaymentOrderResponse.t) w :
  Forall (λ e, err_retriable e = true) errs →
  Z.of_nat (length errs) ≤ max_retries →
  final_answer r = true →
  answers (provider_state w) request (map fails errs ++ [r]) →
  with_retry (call_provider request) max_retries w
  = (r, with_provider
          (provider_after (provider_state w) request (S (length errs)))
          (retried request (waits BASE_DELAY errs) ++ [IOCall request]) w).
Proof.
  intros Hall Hle Hfinal [Hans [Hlast _]]%answers_app.
  rewrite length_map in Hlast.
  rewrite (with_retry_failures _ _ errs) by done.
  cbn [retry_loop]. rewrite call_provider_eq. cbn [provider_state with_provider].
  rewrite Hlast, with_provider_with_provider.
  assert (Hps : (create_payment_order
                   (provider_after (provider_state w) request (length errs))
                   request).2
                = provider_after (provider_state w) request (S (length errs))).
  { clear. generalize (provider_state w).
    induction errs as [|e errs IH]; [done|]. intros ps. apply IH. }
  rewrite Hps.
  destruct r as [v|[e|c m]]; [done| |done].
  cbn [final_answer] in Hfinal. by rewrite Hfinal.
Qed.

End RetryMore.

(** ** The cap on the waits *)

Lemma SFcompare_flip (m0 : positive) (e0 : Z) (x : spec_float) :
  SFltb (S754_finite false m0 e0) x = false →
  x ≠ S754_nan →
  SFleb x (S754_finite false m0 e0) = true.
Proof.
  unfold SFltb, SFleb.
  destruct x as [[]|[]| |[] m e]; try done; cbn [SFcompare].
  rewrite (Z.compare_antisym e e0).
  destruct (Z.compare_spec e e0); cbn [CompOpp]; try done.
  change (PosDef.Pos.compare_cont Eq m0 m) with (Pos.compare m0 m).
  change (PosDef.Pos.compare_cont Eq m m0) with (Pos.compare m m0).
  rewrite (Pos.compare_antisym m m0).
  by destruct (Pos.compare m m0).
Qed.

Lemma Prim2SF_MAX_DELAY :
  Prim2SF MAX_DELAY = S754_finite false 8444249301319680 (-48).
Proof. vm_compute. reflexivity. Qed.

Lemma is_nan_Prim2SF (x : float) :
  PrimFloat.is_nan x = false → Prim2SF x ≠ S754_nan.
Proof.
  unfold PrimFloat.is_nan. rewrite FloatAxioms.eqb_spec.
  intros Hx Hnan. rewrite Hnan in Hx. discriminate.
Qed.

(** [min(x, MAX_DELAY)] is at most [MAX_DELAY] unless [x] is NaN. *)
Lemma min_MAX_DELAY (x : float) :
  PrimFloat.is_nan x = false →
  PrimFloat.leb (Py.min x MAX_DELAY) MAX_DELAY = true.
Proof.
  intros Hx. unfold Py.min.
  destruct (PrimFloat.ltb MAX_DELAY x) eqn:Hlt; [by vm_compute|].
  rewrite FloatAxioms.ltb_spec in Hlt. rewrite FloatAxioms.leb_spec.
  rewrite Prim2SF_MAX_DELAY in *.
  apply SFcompare_flip; [done|]. by apply is_nan_Prim2SF.
Qed.

Lemma backoff_capped (i : nat) :
  PrimFloat.leb (RetrySpec.backoff i) MAX_DELAY = true.
Proof.
  unfold RetrySpec.backoff.
  destruct (decide (i < 6)%nat) as [Hlt|Hge].
  - do 6 (destruct i as [|i]; [by vm_compute|]). lia.
  - assert (2 ^ 5 ≤ 2 ^ (Z.of_nat i - 1)) by (apply Z.pow_le_mono_r; lia).
    rewrite Z.min_r by lia. by vm_compute.
Qed.

Lemma wait_capped (i : nat) (e : ProviderError) :
  hint_is_nan e = false →
  PrimFloat.leb (RetrySpec.wait i e) MAX_DELAY = true.
Proof.
  intros Hnan. destruct e as [m c r|m [hint|]|m c];
    cbn [RetrySpec.wait]; try apply backoff_capped.
  destruct (PrimFloat.eqb hint 0); [apply backoff_capped|].
  by apply min_MAX_DELAY.
Qed.

(** No wait computed by the loop exceeds MAX_DELAY, provided no
    rate-limit error carries NaN as its retry-after hint. *)
Lemma waits_capped (errs : list ProviderError) :
  Forall (λ e, hint_is_nan e = false) errs →
  Forall (λ d, PrimFloat.leb d MAX_DELAY = true) (waits BASE_DELAY errs).
Proof.
  intros Hall. change BASE_DELAY with (delay_after 0). rewrite waits_wait.
  apply Forall_lookup_2. intros j d Hj.
  apply list_lookup_imap_Some in Hj as (e & He & ->).
  apply wait_capped. by apply (Forall_lookup_1 _ _ _ _ Hall He).
Qed.

Section RetryWaits.
  Context {PS : Type} `{PaymentProvider PS}.
  Implicit Types (w : @World PS) (request : PaymentOrderRequest.t).

(** The waits of the loop are those computed from the errors the
    provider answered with. *)
Lemma retry_loop_waits request max_retries todo :
  ∀ attempt delay last_error w,
    ∃ r ps io errs,
      retry_loop (call_provider request) max_retries todo attempt delay
        last_error w = (r, with_provider ps io w)
      ∧ sleeps_of io = waits delay errs
      ∧ Forall (λ e, ∃ ps0, (create_payment_order ps0 request).1 = fails e)
          errs.
Proof.
  induction todo as [|todo IH]; intros attempt delay last_error w.
  - exists (Raise (ExcProvider
              (default (BaseProviderError "Unknown error after retries" 500 true)
                 last_error))), (provider_state w), [], [].
    simpl. unfold raise. by rewrite with_provider_id.
  - cbn [retry_loop]. rewrite call_provider_eq.
    destruct (create_payment_order (provider_state w) request)
      as [r ps1] eqn:Hcall.
    cbn [fst snd].
    destruct r as [v|[e|c m]];
      [by exists (Return v), ps1, [IOCall request], []
      | |by exists (Raise (ExcOther c m)), ps1, [IOCall request], []].
    destruct (err_retriable e); cbn [negb];
      [|by exists (Raise (ExcProvider e)), ps1, [IOCall request], []].
    destruct (attempt <? max_retries);
      [|by exists (Raise (ExcProvider e)), ps1, [IOCall request], []].
    unfold sleep, modify. unfold mbind at 1. unfold M_bind at 1.
    cbv beta iota. rewrite with_provider_with_provider.
    match goal with
    | |- context [retry_loop _ _ _ ?a ?d ?l ?w1] =>
        destruct (IH a d l w1) as (r & ps & io & errs & -> & Hio & Hall)
    end.
    rewrite with_provider_with_provider.
    exists r, ps, (([IOCall request] ++ [IOSleep (sleep_for delay e)]) ++ io),
      (e :: errs).
    split; [done|]. split.
    + rewrite sleeps_of_app. cbn [waits]. by rewrite <- Hio.
    + constructor; [|done]. exists (provider_state w). by rewrite Hcall.
Qed.

(** X7.  Through the wrapper no wait exceeds MAX_DELAY (30 seconds),
    whatever the retry budget and the course of the call, provided the
    provider never raises a rate-limit error whose retry-after hint is
    NaN. *)
Theorem with_retry_waits_capped request (max_retries : Z) w :
  (∀ ps e, (create_payment_order ps request).1 = fails e →
           hint_is_nan e = false) →
  Forall (λ d, PrimFloat.leb d MAX_DELAY = true)
    (sleeps_of (new_io w (with_retry (call_provider request)
                            max_retries w).2)).
Proof.
  intros Hhint. unfold with_retry.
  destruct (retry_loop_waits request max_retries
              (Z.to_nat (max_retries + 1)) 0 BASE_DELAY None w)
    as (r & ps & io & errs & -> & Hio & Hall).
  cbn [snd]. rewrite new_io_with_provider, Hio. apply waits_capped.
  apply (Forall_impl _ _ _ Hall). intros e [ps0 He]. by eapply Hhint.
Qed.

End RetryWaits.

(* ===================================================================== *)
(** * Relations that every step of a run preserves *)
(* ===================================================================== *)

Section Preservation.
  Context {PS : Type} `{PaymentProvider PS} `{PyRuntime}.
  Variable R : relation (@World PS).
  Context `{!PreOrder R}.
  Variable ok_entry : AuditLog.t → Prop.
  Hypothesis R_clock : ∀ n w, (clock w ≤ n)%nat → R w (with_clock n w).
  Hypothesis R_uuids : ∀ n w, (uuids w ≤ n)%nat → R w (with_uuids n w).
  Hypothesis R_provider : ∀ ps io w, R w (with_provider ps io w).
  Hypothesis R_payouts : ∀ k p w, R w (with_payouts (insert k p) w).
  Hypothesis R_audit :
    ∀ e w, ok_entry e → R w (with_audit_logs (λ l, l ++ [e]) w).

Lemma preserves_ret {A} (a : A) : preserves R (mret a).
Proof. intros w. reflexivity. Qed.

Lemma preserves_raise {A} (e : Exn) : preserves R (raise (A:=A) e).
Proof. intros w. reflexivity. Qed.

Lemma preserves_gets {A} (f : World → A) : preserves R (gets f).
Proof. intros w. reflexivity. Qed.

Lemma preserves_bind {A B} (m : M A) (f : A → M B) :
  preserves R m → (∀ a, preserves R (f a)) → preserves R (m ≫= f).
Proof.
  intros Hm Hf w. unfold mbind, M_bind. specialize (Hm w).
  destruct (m w) as [[a|e] w1]; [|done].
  etrans; [exact Hm|]. apply Hf.
Qed.

Lemma preserves_try_except {A B} (m : M A) (ok : A → M B)
    (handler : Exn → M B) :
  preserves R m → (∀ a, preserves R (ok a)) →
  (∀ e, preserves R (handler e)) → preserves R (try_except m ok handler).
Proof.
  intros Hm Hok Hh w. unfold try_except. specialize (Hm w).
  destruct (m w) as [[a|e] w1]; (etrans; [exact Hm|]); [apply Hok|apply Hh].
Qed.

Lemma preserves_now : preserves R now.
Proof. intros w. apply R_clock. simpl. lia. Qed.

Lemma preserves_uuid4 : preserves R uuid4.
Proof. intros w. apply R_uuids. simpl. lia. Qed.

Lemma preserves_sleep seconds : preserves R (sleep seconds).
Proof. intros w. apply R_provider. Qed.

Lemma preserves_call_provider request : preserves R (call_provider request).
Proof. intros w. rewrite call_provider_eq. apply R_provider. Qed.

Lemma preserves_get_payout k : preserves R (get_payout k).
Proof. intros w. unfold get_payout. by destruct (payouts w !! k). Qed.

Lemma preserves_set_payout k p : preserves R (set_payout k p).
Proof. intros w. apply R_payouts. Qed.

Lemma preserves_log_event action run_id payout_id details :
  (∀ t d, ok_entry {| AuditLog.run_id := run_id;
                      AuditLog.payout_id := payout_id;
                      AuditLog.action := action;
                      AuditLog.details := d;
                      AuditLog.timestamp := t |}) →
  preserves R (log_event action run_id payout_id details).
Proof.
  intros Hok. unfold log_event.
  apply preserves_bind; [apply preserves_now|]. intros t.
  apply preserves_bind; [|intros _; apply preserves_ret].
  intros w. by apply R_audit.
Qed.

Lemma preserves_append_note existing message :
  preserves R (append_note existing message).
Proof.
  unfold append_note. apply preserves_bind; [apply preserves_now|].
  intros t. destruct (negb _); apply preserves_ret.
Qed.

Lemma preserves_cents amount : preserves R (_cents amount).
Proof.
  unfold _cents. cbv zeta. destruct (Py.int_round _); [apply preserves_ret|].
  destruct (PrimFloat.is_nan _); apply preserves_raise.
Qed.

Lemma preserves_retry_loop {A} (func : M A) max_retries todo :
  preserves R func →
  ∀ attempt delay last_error,
    preserves R (retry_loop func max_retries todo attempt delay last_error).
Proof.
  intros Hf. induction todo as [|todo IH]; intros attempt delay last_error.
  - apply preserves_raise.
  - intros w. cbn [retry_loop]. specialize (Hf w).
    destruct (func w) as [[v|[e|c m]] w1]; try done.
    destruct (negb (err_retriable e)); [done|].
    destruct (attempt <? max_retries); [|done].
    etrans; [exact Hf|].
    apply (preserves_bind (sleep (sleep_for delay e)) (λ _, _));
      [apply preserves_sleep|intros _; apply IH].
Qed.

Lemma preserves_with_retry {A} (func : M A) max_retries :
  preserves R func → preserves R (with_retry func max_retries).
Proof. intros Hf. by apply preserves_retry_loop. Qed.

Ltac preserve_step :=
  first
    [ apply preserves_ret | apply preserves_raise | apply preserves_gets
    | apply preserves_now | apply preserves_uuid4
    | apply preserves_get_payout | apply preserves_set_payout
    | apply preserves_append_note | apply preserves_cents
    | apply preserves_with_retry; apply preserves_call_provider
    | apply preserves_bind; [|intros ?]
    | apply preserves_try_except; [|intros ?|intros ?] ].

Lemma preserves_process_single run k event :
  (∀ e, AuditLog.run_id e = Some (PayoutRun.id run) →
        is_Some (AuditLog.payout_id e) → ok_entry e) →
  preserves R (_process_single_payout run k event).
Proof.
  intros Hok.
  assert (Hlog : ∀ action pid details,
             preserves R (log_event action (Some (PayoutRun.id run))
                            (Some pid) details)).
  { intros. apply preserves_log_event. intros t d. by apply Hok. }
  unfold _process_single_payout.
  apply preserves_bind; [apply preserves_get_payout|]. intros p. cbv zeta.
  destruct (negb (eligible _)).
  - repeat first [apply Hlog | preserve_step].
  - repeat first [apply Hlog | preserve_step].
    all: match goal with
         | |- preserves _ (match ?x with _ => _ end) => destruct x as [[]|]
         end.
    all: repeat first [apply Hlog | preserve_step].
Qed.

Lemma preserves_process_payouts run event todo :
  (∀ e, AuditLog.run_id e = Some (PayoutRun.id run) →
        is_Some (AuditLog.payout_id e) → ok_entry e) →
  ∀ t, preserves R (process_payouts run event todo t).
Proof.
  intros Hok. induction todo as [|k todo IH]; intros t.
  - apply preserves_ret.
  - cbn [process_payouts].
    apply preserves_bind; [by apply preserves_process_single|]. intros result.
    apply preserves_bind; [|intros t'; apply IH].
    repeat (match goal with
            | |- preserves _ (if ?b then _ else _) => destruct b
            end); repeat preserve_step.
Qed.

Lemma preserves_ensure_payouts run event evid existing n todo :
  preserves R (ensure_payouts run event evid existing n todo).
Proof.
  induction todo as [|inv todo IH]; [apply preserves_ret|].
  cbn [ensure_payouts]. cbv zeta.
  apply preserves_bind.
  - destruct (existing (Investor.id inv)) as [p0|].
    + apply preserves_bind; [|intros ?; apply preserves_ret].
      destruct (bool_decide _); preserve_step.
    + repeat preserve_step.
  - intros added. apply preserves_bind; [apply IH|].
    intros [keys added']. apply preserves_ret.
Qed.

Lemma preserves_flush added : preserves R (flush_new_payouts added).
Proof.
  unfold flush_new_payouts. destruct (bool_decide _); preserve_step.
Qed.

End Preservation.

(* ===================================================================== *)
(** * What a run leaves behind *)
(* ===================================================================== *)

Section RunFrames.
  Context {PS : Type} `{PaymentProvider PS} `{PyRuntime}.
  Implicit Types (w : @World PS) (p : Payout.t) (k : PayoutKey).

#[global] Instance grows_preorder : PreOrder (@grows PS).
Proof.
  split.
  - intros w. by unfold grows.
  - intros w1 w2 w3 (Hi1 & He1 & Ha1 & Hr1 & Ht1 & Hd1 & Hc1 & Hu1)
      (Hi2 & He2 & Ha2 & Hr2 & Ht2 & Hd2 & Hc2 & Hu2).
    unfold grows. split_and!; try congruence; try (by etrans); lia.
Qed.

#[global] Instance same_runs_preorder : PreOrder (@same_runs PS).
Proof.
  split; [done|]. intros w1 w2 w3. unfold same_runs. congruence.
Qed.

#[global] Instance logged_preorder P : PreOrder (@logged PS P).
Proof.
  split.
  - intros w. exists []. by rewrite app_nil_r.
  - intros w1 w2 w3 (new1 & Hn1 & Hf1) (new2 & Hn2 & Hf2).
    exists (new1 ++ new2). split; [|by apply Forall_app].
    by rewrite Hn2, Hn1, app_assoc.
Qed.

End RunFrames.

(* ===================================================================== *)
(** * The shape of a run *)
(* ===================================================================== *)

Section RunShape.
  Context {PS : Type} `{PaymentProvider PS} `{PyRuntime}.
  Implicit Types (w : @World PS) (p : Payout.t) (k : PayoutKey).

Ltac run_session_in H :=
  repeat (first
    [ progress cbv [log_event set_payout now uuid4 gets commit add_run
                      update_run flush_new_payouts modify raise mbind
                      M_bind mret M_ret] in H
    | progress cbv beta iota in H ]).

(** [execute_run], phase by phase. *)
Lemma execute_run_eq evid w :
  execute_run evid w
  = match liquidation_events w !! evid with
    | None =>
        close_run "run_failed" (failed_run (run_started evid w).1)
          [ ("error", JStr ("Liquidation event not found: " +:+ evid)) ]
          (run_started evid w).2
    | Some event =>
        match ensure_payouts (run_started evid w).1 event evid
                (λ i, payouts w !! (evid, i))
                (Z.of_nat (length (investors w))) (investors w)
                (run_started evid w).2 with
        | (Return (keys, added), w1) =>
            if bool_decide (NoDup added) then
              match process_payouts (run_started evid w).1 event keys
                      tally0 w1 with
              | (Return tally, w2) =>
                  close_run "run_completed"
                    (completed_run (run_started evid w).1 tally)
                    (completed_details tally) w2
              | (Raise e, w2) => (Raise e, w2)
              end
            else
              (Raise (ExcOther "IntegrityError"
                        "UNIQUE constraint failed: uq_event_investor"), w1)
        | (Raise e, w1) => (Raise e, w1)
        end
    end.
Proof.
  destruct (execute_run evid w) as [res w'] eqn:Hrun.
  unfold execute_run in Hrun. run_session_in Hrun.
  cbn [liquidation_events payouts investors
         with_audit_logs with_payout_runs with_clock with_uuids] in Hrun.
  destruct (liquidation_events w !! evid) as [event|].
  - run_session_in Hrun.
    cbn [liquidation_events payouts investors
           with_audit_logs with_payout_runs with_clock with_uuids] in Hrun.
    match type of Hrun with
    | context [ensure_payouts ?a' ?b' ?c' ?d' ?e' ?f' ?g'] =>
        match goal with
        | |- context [ensure_payouts ?a ?b ?c ?d ?e ?f ?g] =>
            change (ensure_payouts a' b' c' d' e' f' g')
              with (ensure_payouts a b c d e f g) in Hrun;
            destruct (ensure_payouts a b c d e f g)
              as [[[keys added]|e0] w1] eqn:Hens
        end
    end; run_session_in Hrun; [|congruence].
    destruct (bool_decide (NoDup added)); run_session_in Hrun; [|congruence].
    match type of Hrun with
    | context [process_payouts ?a' ?b' ?c' ?d' ?e'] =>
        match goal with
        | |- context [process_payouts ?a ?b ?c ?d ?e] =>
            change (process_payouts a' b' c' d' e')
              with (process_payouts a b c d e) in Hrun;
            destruct (process_payouts a b c d e) as [[tally|e0] w2] eqn:Hloop
        end
    end; run_session_in Hrun; [|congruence].
    rewrite <- Hrun. reflexivity.
  - run_session_in Hrun. rewrite <- Hrun. reflexivity.
Qed.

(** The closing steps return the run record, put it in the place of
    the last row of the table of runs and write one audit entry. *)
Lemma close_run_eq action run details w :
  ∃ entry w',
    close_run action run details w = (Return (run (clock w)), w')
    ∧ payout_runs w' = removelast (payout_runs w) ++ [run (clock w)]
    ∧ audit_logs w' = audit_logs w ++ [entry]
    ∧ AuditLog.action entry = action
    ∧ AuditLog.run_id entry = Some (PayoutRun.id (run (clock w)))
    ∧ AuditLog.payout_id entry = None
    ∧ payouts w' = payouts w ∧ session_only w w'.
Proof.
  unfold close_run.
  cbv [log_event now commit update_run modify mbind M_bind mret M_ret].
  eexists _, _. split; [reflexivity|]. by split_and!.
Qed.

Lemma run_started_eq evid w :
  ∃ entry,
    audit_logs (run_started evid w).2 = audit_logs w ++ [entry]
    ∧ AuditLog.action entry = "run_started"
    ∧ AuditLog.run_id entry = Some (PayoutRun.id (run_started evid w).1)
    ∧ AuditLog.payout_id entry = None
    ∧ payout_runs (run_started evid w).2
      = payout_runs w ++ [(run_started evid w).1]
    ∧ payouts (run_started evid w).2 = payouts w
    ∧ session_only w (run_started evid w).2
    ∧ PayoutRun.liquidation_event_id (run_started evid w).1 = evid.
Proof.
  unfold run_started.
  cbv [log_event now modify mbind M_bind mret M_ret fst snd].
  eexists. by split_and!.
Qed.

End RunShape.

Section RunResults.
  Context {PS : Type} `{PaymentProvider PS} `{PyRuntime}.
  Implicit Types (w : @World PS) (p : Payout.t) (k : PayoutKey).

(** The two loops of a run touch no row of the runs. *)
Lemma ensure_payouts_same_runs run event evid existing n todo :
  preserves (@same_runs PS) (ensure_payouts run event evid existing n todo).
Proof. apply preserves_ensure_payouts; [apply _|done..]. Qed.

Lemma process_payouts_same_runs run event todo t :
  preserves (@same_runs PS) (process_payouts run event todo t).
Proof.
  apply preserves_process_payouts with (ok_entry := λ _, True);
    [apply _|done..].
Qed.



(** The loops are append-only. *)
Lemma ensure_payouts_grows run event evid existing n todo :
  preserves (@grows PS) (ensure_payouts run event evid existing n todo).
Proof.
  apply preserves_ensure_payouts; try apply _.
  all: intros; unfold grows; simpl; split_and!; try done; try lia.
  rewrite dom_insert. set_solver.
Qed.

Lemma process_payouts_grows run event todo t :
  preserves (@grows PS) (process_payouts run event todo t).
Proof.
  apply preserves_process_payouts with (ok_entry := λ _, True);
    try apply _; try done.
  all: intros; unfold grows; simpl; split_and!; try done; try lia.
  all: try (by apply prefix_app_r).
  rewrite dom_insert. set_solver.
Qed.

Lemma run_started_grows evid w : grows w (run_started evid w).2.
Proof.
  unfold run_started, grows.
  cbv [log_event now modify mbind M_bind mret M_ret fst snd].
  simpl. split_and!; try done; try lia; by apply prefix_app_r.
Qed.

(** The closing steps after an append-only run, from a world [w] whose
    last run is the one that [w0] does not have. *)
Lemma close_run_grows action run details w0 run0 w :
  grows w0 w → payout_runs w = payout_runs w0 ++ [run0] →
  grows w0 (close_run action run details w).2.
Proof.
  intros (Hi & He & Ha & _ & Ht & Hd & Hc & Hu) Hruns.
  unfold close_run, grows.
  cbv [log_event now commit update_run modify mbind M_bind mret M_ret
         fst snd].
  simpl. rewrite Hruns, removelast_last.
  split_and!; try done; try lia.
  - by apply prefix_app_r.
  - by apply prefix_app_r.
Qed.

(** X8.  A run is append-only, whether it returns or raises: it leaves
    the recipients and the events as they are, writes audit entries, run
    rows and trace entries only after the ones that exist, and deletes
    no payout row. *)
Theorem execute_run_append_only (liquidation_event_id : string) w :
  grows w (execute_run liquidation_event_id w).2.
Proof.
  rewrite execute_run_eq.
  pose proof (run_started_grows liquidation_event_id w) as Hg0.
  destruct (run_started_eq liquidation_event_id w)
    as (entry0 & _ & _ & _ & _ & Hruns0 & _).
  destruct (liquidation_events w !! liquidation_event_id) as [event|].
  - pose proof (ensure_payouts_grows
                  (run_started liquidation_event_id w).1 event
                  liquidation_event_id
                  (λ i, payouts w !! (liquidation_event_id, i))
                  (Z.of_nat (length (investors w))) (investors w)
                  (run_started liquidation_event_id w).2) as Hg1.
    pose proof (ensure_payouts_same_runs
                  (run_started liquidation_event_id w).1 event
                  liquidation_event_id
                  (λ i, payouts w !! (liquidation_event_id, i))
                  (Z.of_nat (length (investors w))) (investors w)
                  (run_started liquidation_event_id w).2) as Hr1.
    destruct (ensure_payouts _ _ _ _ _ _ _) as [[[keys added]|e] w1];
      unfold same_runs in Hr1; cbn [snd] in Hg1, Hr1 |- *; [|by etrans].
    destruct (bool_decide (NoDup added)); cbn [snd]; [|by etrans].
    pose proof (process_payouts_grows
                  (run_started liquidation_event_id w).1 event keys tally0 w1)
      as Hg2.
    pose proof (process_payouts_same_runs
                  (run_started liquidation_event_id w).1 event keys tally0 w1)
      as Hr2.
    destruct (process_payouts _ _ _ _ _) as [[tally|e] w2];
      unfold same_runs in Hr2; cbn [snd] in Hg2, Hr2 |- *.
    + apply (close_run_grows _ _ _ _ (run_started liquidation_event_id w).1).
      * etrans; [exact Hg0|]. by etrans.
      * congruence.
    + etrans; [exact Hg0|]. by etrans.
  - by apply (close_run_grows _ _ _ _ (run_started liquidation_event_id w).1).
Qed.

(** The set-up loop writes no audit entry; the processing loop writes
    entries of its run about payouts. *)
Lemma ensure_payouts_logged P run event evid existing n todo :
  preserves (@logged PS P) (ensure_payouts run event evid existing n todo).
Proof.
  apply preserves_ensure_payouts; try apply _.
  all: intros; exists []; by rewrite app_nil_r.
Qed.

Lemma process_payouts_logged run event todo t :
  preserves (@logged PS (payout_entry_of (PayoutRun.id run)))
    (process_payouts run event todo t).
Proof.
  apply preserves_process_payouts
    with (ok_entry := payout_entry_of (PayoutRun.id run));
    try apply _; try done.
  all: try (intros e w0 He; exists [e]; split; [done|];
            by apply Forall_singleton).
  all: intros; exists []; by rewrite app_nil_r.
Qed.

(** X10.  The audit trail of a run that returns: after the entries that
    exist come the "run_started" entry, then entries about payouts, then
    one "run_completed" or "run_failed" entry according to the status of
    the run; every one of these entries carries the id of the run, and
    the first and the last are about no payout. *)
Theorem run_audit_trail (liquidation_event_id : string) w run w' :
  execute_run liquidation_event_id w = (Return run, w') →
  ∃ started mid finished,
    audit_logs w' = audit_logs w ++ started :: mid ++ [finished]
    ∧ AuditLog.action started = "run_started"
    ∧ AuditLog.action finished
      = (if bool_decide (PayoutRun.status run = RUN_FAILED)
         then "run_failed" else "run_completed")
    ∧ AuditLog.run_id started = Some (PayoutRun.id run)
    ∧ AuditLog.run_id finished = Some (PayoutRun.id run)
    ∧ AuditLog.payout_id started = None
    ∧ AuditLog.payout_id finished = None
    ∧ Forall (payout_entry_of (PayoutRun.id run)) mid.
Proof.
  rewrite execute_run_eq.
  destruct (run_started_eq liquidation_event_id w)
    as (entry0 & Hlog0 & Hact0 & Hrid0 & Hpid0 & _).
  destruct (liquidation_events w !! liquidation_event_id) as [event|].
  - pose proof (ensure_payouts_logged
                  (payout_entry_of
                     (PayoutRun.id (run_started liquidation_event_id w).1))
                  (run_started liquidation_event_id w).1 event
                  liquidation_event_id
                  (λ i, payouts w !! (liquidation_event_id, i))
                  (Z.of_nat (length (investors w))) (investors w)
                  (run_started liquidation_event_id w).2) as Hens.
    destruct (ensure_payouts _ _ _ _ _ _ _) as [[[keys added]|e] w1];
      cbn [snd] in Hens; [|done].
    destruct (bool_decide (NoDup added)); [|done].
    pose proof (process_payouts_logged
                  (run_started liquidation_event_id w).1 event keys tally0 w1)
      as Hloop.
    destruct (process_payouts _ _ _ _ _) as [[tally|e] w2];
      cbn [snd] in Hloop; [|done].
    destruct (close_run_eq "run_completed"
                (completed_run (run_started liquidation_event_id w).1 tally)
                (completed_details tally) w2)
      as (entry & w3 & -> & _ & Hlog & Hact & Hrid & Hpid & _).
    intros [= <- <-].
    destruct Hens as (new1 & Hn1 & Hf1). destruct Hloop as (new2 & Hn2 & Hf2).
    exists entry0, (new1 ++ new2), entry.
    rewrite Hlog, Hn2, Hn1, Hlog0. split_and!; try done.
    + by rewrite <- !app_assoc.
    + by apply Forall_app.
  - destruct (close_run_eq "run_failed"
                (failed_run (run_started liquidation_event_id w).1)
                [ ("error", JStr ("Liquidation event not found: "
                                  +:+ liquidation_event_id)) ]
                (run_started liquidation_event_id w).2)
      as (entry & w3 & -> & _ & Hlog & Hact & Hrid & Hpid & _).
    intros [= <- <-]. exists entry0, [], entry.
    rewrite Hlog, Hlog0. split_and!; try done.
    by rewrite <- !app_assoc.
Qed.

End RunResults.

(* ===================================================================== *)
(** * More on the transition of one payout *)
(* ===================================================================== *)

Lemma kept_refl (p : Payout.t) : kept p p.
Proof. by unfold kept, same_snapshot. Qed.

Lemma same_snapshot_trans (p1 p2 p3 : Payout.t) :
  same_snapshot p1 p2 → same_snapshot p2 p3 → same_snapshot p1 p3.
Proof.
  unfold same_snapshot.
  intros (?&?&?&?&?&?&?&?&?&?) (?&?&?&?&?&?&?&?&?&?).
  split_and!; congruence.
Qed.

Lemma kept_trans (p1 p2 p3 : Payout.t) : kept p1 p2 → kept p2 p3 → kept p1 p3.
Proof.
  intros [Hs1 Ho1] [Hs2 Ho2]. split; [by eapply same_snapshot_trans|].
  intros Ht. rewrite <- (Ho1 Ht). apply Ho2. by rewrite (Ho1 Ht).
Qed.

Lemma reskipped_kept (p p' : Payout.t) : reskipped p p' → kept p p'.
Proof. intros (Hs & _ & _ & Ho & _). by split. Qed.

Lemma reattached_kept run (p0 p : Payout.t) : reattached run p0 p → kept p0 p.
Proof. intros [->|[_ ->]]; [apply kept_refl|]. by split. Qed.

Section TransitionFacts.
  Context {PS : Type} `{PaymentProvider PS} `{PyRuntime}.
  Implicit Types (w : @World PS) (p : Payout.t) (k : PayoutKey).

  #[local] Opaque check_eligibility select_rail.

(** An eligible payout has no order id that counts. *)
Lemma eligible_no_order_id p :
  eligible (eligibility_of p) = true →
  Py.truthy_str (Payout.payment_order_id p) = false.
Proof.
  intros Hel. destruct (Py.truthy_str (Payout.payment_order_id p)) eqn:Ht;
    [|done].
  destruct (truthy_order_id_ineligible p Ht) as [Hne _]. congruence.
Qed.

(** What one transition does to the row it works on and to the others,
    whether it returns or raises. *)
Lemma process_single_keeps run k event w k0 p0 :
  payouts w !! k0 = Some p0 →
  ∃ p0', payouts (_process_single_payout run k event w).2 !! k0 = Some p0'
         ∧ kept p0 p0' ∧ Payout.run_id p0' = Payout.run_id p0.
Proof.
  intros Hk0. destruct (decide (k0 = k)) as [->|Hne].
  2: { exists p0. rewrite process_single_frame by done.
       split; [done|]. split; [apply kept_refl|done]. }
  destruct (eligible (eligibility_of p0)) eqn:Hel.
  - pose proof (process_eligible run k event w p0 Hk0 Hel) as Hp.
    destruct (Py.int_round (Payout.amount p0 * 100)%float) as [cents|].
    + cbv zeta in Hp.
      destruct Hp as (wr & r & ps & io & p' & w' & _ & _ & _ & -> & Hp'
                      & _ & _ & _ & _ & Hsnap & _ & Hrid & _ & _ & Hr).
      exists p'. cbn [snd]. rewrite Hp', lookup_insert_eq.
      split; [done|]. split; [|done]. split; [done|].
      intros Ht. rewrite (eligible_no_order_id p0 Hel) in Ht. discriminate.
    + destruct Hp as (e & w' & -> & Hp' & _).
      exists (routed p0). cbn [snd]. rewrite Hp', lookup_insert_eq.
      split; [done|]. by split.
  - destruct (process_skipped_payout run k event w p0 Hk0 Hel)
      as (p' & w' & -> & Hp' & _ & Hre & _).
    exists p'. cbn [snd]. rewrite Hp', lookup_insert_eq.
    split; [done|]. split; [by apply reskipped_kept|].
    by destruct Hre as (_ & _ & ? & _).
Qed.

Lemma process_payouts_keeps run event todo :
  ∀ t w k0 p0,
    payouts w !! k0 = Some p0 →
    ∃ p0', payouts (process_payouts run event todo t w).2 !! k0 = Some p0'
           ∧ kept p0 p0' ∧ Payout.run_id p0' = Payout.run_id p0.
Proof.
  induction todo as [|k todo IH]; intros t w k0 p0 Hk0.
  - exists p0. split; [done|]. split; [apply kept_refl|done].
  - destruct (process_single_keeps run k event w k0 p0 Hk0)
      as (p1 & Hp1 & Hk1 & Hr1).
    destruct (_process_single_payout run k event w) as [[result|e] w1] eqn:Hrun.
    + destruct (process_single_result _ _ _ _ _ _ Hrun) as [_ [p' Hp']].
      rewrite (process_payouts_step _ _ _ _ _ _ _ _ _ Hrun Hp').
      cbn [snd] in Hp1.
      destruct (IH (tally_add result p' t) w1 k0 p1 Hp1)
        as (p2 & Hp2 & Hk2 & Hr2).
      exists p2. split; [done|]. split; [by eapply kept_trans|congruence].
    + rewrite (process_payouts_raise _ _ _ _ _ _ _ _ Hrun).
      exists p1. by split.
Qed.

(** X11.  Order ids are written once.  Whatever the provider answers and
    whether the run returns or raises, a payout row that exists before a
    run exists after it with the same recipient data (investor, amount,
    currency, country, method, bank details), and if it had a non-empty
    order id it has the same order id. *)
Theorem order_id_is_never_overwritten (liquidation_event_id : string) w k p :
  payouts w !! k = Some p →
  ∃ p', payouts (execute_run liquidation_event_id w).2 !! k = Some p'
        ∧ same_snapshot p p'
        ∧ (Py.truthy_str (Payout.payment_order_id p) = true →
           Payout.payment_order_id p' = Payout.payment_order_id p).
Proof.
  intros Hk. change (∃ p', payouts (execute_run liquidation_event_id w).2 !! k
                           = Some p' ∧ kept p p').
  rewrite execute_run_eq.
  destruct (run_started_eq liquidation_event_id w)
    as (entry0 & _ & _ & _ & _ & _ & Hp0 & _ & _).
  destruct (liquidation_events w !! liquidation_event_id) as [event|].
  - destruct (run_setup (run_started liquidation_event_id w).1 event
                liquidation_event_id w _ Hp0)
      as (added & w1 & -> & _ & Hold & _ & Hother & _).
    assert (Hk1 : ∃ p1, payouts w1 !! k = Some p1 ∧ kept p p1).
    { destruct (decide (k ∈ payout_keys liquidation_event_id (investors w)))
        as [Hin|Hout].
      - apply list_elem_of_fmap in Hin as (inv & -> & _).
        destruct (Hold _ _ Hk) as (p1 & Hp1 & Hre).
        exists p1. split; [done|]. by eapply reattached_kept.
      - exists p. rewrite (Hother _ Hout). split; [done|apply kept_refl]. }
    destruct Hk1 as (p1 & Hp1 & Hk1).
    destruct (bool_decide (NoDup added)); [|by exists p1].
    destruct (process_payouts_keeps (run_started liquidation_event_id w).1
                event (payout_keys liquidation_event_id (investors w))
                tally0 w1 k p1 Hp1) as (p2 & Hp2 & Hk2 & _).
    destruct (process_payouts _ _ _ _ _) as [[tally|e] w2]; cbn [snd] in Hp2.
    + destruct (close_run_eq "run_completed"
                  (completed_run (run_started liquidation_event_id w).1 tally)
                  (completed_details tally) w2)
        as (entry & w3 & -> & _ & _ & _ & _ & _ & Hp3 & _).
      exists p2. cbn [snd]. rewrite Hp3. split; [done|].
      by eapply kept_trans.
    + exists p2. split; [done|]. by eapply kept_trans.
  - destruct (close_run_eq "run_failed"
                (failed_run (run_started liquidation_event_id w).1)
                [ ("error", JStr ("Liquidation event not found: "
                                  +:+ liquidation_event_id)) ]
                (run_started liquidation_event_id w).2)
      as (entry & w3 & -> & _ & _ & _ & _ & _ & Hp3 & _).
    exists p. cbn [snd]. rewrite Hp3, Hp0. split; [done|apply kept_refl].
Qed.

(** X12.  The result a transition returns agrees with the status it
    stores: "created" goes with COMPLETED and an order id, "skipped" with
    SKIPPED and a payout the gate rejects, "failed" with FAILED; a failed
    payout keeps its order id and is still eligible, so a later run
    submits it again. *)
Theorem transition_result_matches_status run k event w result w' :
  _process_single_payout run k event w = (Return result, w') →
  ∃ p p',
    payouts w !! k = Some p ∧ payouts w' !! k = Some p'
    ∧ ((result = "created" ∧ Payout.status p' = COMPLETED
        ∧ is_Some (Payout.payment_order_id p')
        ∧ eligible (eligibility_of p) = true)
       ∨ (result = "skipped" ∧ Payout.status p' = SKIPPED
          ∧ Payout.payment_order_id p' = Payout.payment_order_id p
          ∧ eligible (eligibility_of p) = false)
       ∨ (result = "failed" ∧ Payout.status p' = FAILED
          ∧ Payout.payment_order_id p' = Payout.payment_order_id p
          ∧ eligible (eligibility_of p') = true)).
Proof.
  intros Hrun.
  destruct (payouts w !! k) as [p|] eqn:Hk;
    [|rewrite (process_missing _ _ _ _ Hk) in Hrun; discriminate].
  exists p.
  destruct (eligible (eligibility_of p)) eqn:Hel.
  - pose proof (process_eligible run k event w p Hk Hel) as Hp.
    destruct (Py.int_round (Payout.amount p * 100)%float) as [cents|].
    + cbv zeta in Hp.
      destruct Hp as (wr & r & ps & io & p' & w1 & _ & _ & _ & Hrun1 & Hp'
                      & _ & _ & _ & _ & Hsnap & _ & _ & _ & _ & Hr).
      rewrite Hrun1 in Hrun. injection Hrun as <- <-.
      exists p'. rewrite Hp', lookup_insert_eq. split_and!; try done.
      destruct r as [response|exn]; destruct Hr as [Hst Hoid].
      * left. split_and!; try done; by rewrite Hoid.
      * right; right. split_and!; try done;
          by rewrite (eligibility_of_ext p p' Hsnap Hoid).
    + destruct Hp as (e & w1 & Hrun1 & _). congruence.
  - destruct (process_skipped_payout run k event w p Hk Hel)
      as (p' & w1 & Hrun1 & Hp' & _ & (_ & _ & _ & Hoid & _) & Hst & _).
    rewrite Hrun1 in Hrun. injection Hrun as <- <-.
    exists p'. rewrite Hp', lookup_insert_eq. split_and!; try done.
    right; left. by split_and!.
Qed.

End TransitionFacts.

Section FailurePaths.
  Context {PS : Type} `{PaymentProvider PS} `{PyRuntime}.
  Implicit Types (w : @World PS) (p : Payout.t) (k : PayoutKey).

  #[local] Opaque check_eligibility select_rail.

Ltac run_session_in H :=
  repeat (first
    [ rewrite append_note_eq in H
    | progress cbv [log_event set_payout now modify raise mbind M_bind
                      mret M_ret] in H
    | progress cbv beta iota in H ]).

Lemma new_io_same w w' : io_trace w' = io_trace w → new_io w w' = [].
Proof. intros Hio. unfold new_io. rewrite Hio. apply drop_all. Qed.

(** X13.  The conversion to cents is outside the [try]: for a payout
    that passes the gate and whose amount times 100 is NaN or infinite,
    the transition raises ValueError, respectively OverflowError, instead
    of returning "failed".  The provider is not called, the payout keeps
    its status with the routing fields already written, and the loop over
    the payouts stops with the same exception. *)
Theorem non_finite_amount_aborts_transition run k event w p :
  payouts w !! k = Some p →
  eligible (eligibility_of p) = true →
  Py.int_round (Payout.amount p * 100)%float = None →
  ∃ msg w',
    let exn :=
      ExcOther (if PrimFloat.is_nan (Payout.amount p * 100)%float
                then "ValueError" else "OverflowError") msg in
    _process_single_payout run k event w = (Raise exn, w')
    ∧ new_io w w' = []
    ∧ payouts w' = <[k := routed p]> (payouts w)
    ∧ Payout.status (routed p) = Payout.status p
    ∧ ∀ todo t, process_payouts run event (k :: todo) t w = (Raise exn, w').
Proof.
  intros Hk Hel Hc.
  destruct (_process_single_payout run k event w) as [res w'] eqn:Hrun.
  pose proof Hrun as Hrun0.
  unfold eligibility_of in Hel.
  unfold _process_single_payout, get_payout in Hrun.
  unfold mbind at 1 in Hrun. unfold M_bind at 1 in Hrun.
  rewrite Hk in Hrun. cbv beta iota in Hrun.
  rewrite Hel in Hrun. cbn [negb] in Hrun.
  fold (rail_of p) in Hrun. fold (routed p) in Hrun.
  unfold _cents in Hrun.
  change (Payout.amount (routed p)) with (Payout.amount p) in Hrun.
  rewrite Hc in Hrun. run_session_in Hrun.
  destruct (PrimFloat.is_nan (Payout.amount p * 100)).
  all: run_session_in Hrun; injection Hrun as <- <-.
  all: eexists _, _; cbv zeta; split; [reflexivity|].
  all: split; [by apply new_io_same|].
  all: split; [reflexivity|]; split; [reflexivity|].
  all: intros todo t; by apply process_payouts_raise.
Qed.

(** One iteration of the retry loop on an answer that ends it. *)
Lemma retry_loop_final request max_retries todo attempt delay last_error w r :
  (create_payment_order (provider_state w) request).1 = r →
  final_answer r = true →
  retry_loop (call_provider request) max_retries (S todo) attempt delay
    last_error w
  = (r, with_provider (create_payment_order (provider_state w) request).2
          [IOCall request] w).
Proof.
  intros Hr Hfinal. cbn [retry_loop]. rewrite call_provider_eq, Hr.
  destruct r as [v|[e|c m]]; [done| |done].
  cbn [final_answer] in Hfinal. by rewrite Hfinal.
Qed.

Lemma provider_after_S ps request n :
  (create_payment_order (provider_after ps request n) request).2
  = provider_after ps request (S n).
Proof.
  revert ps. induction n as [|n IH]; intros ps; [done|]. apply IH.
Qed.

(** The wrapper on a script that ends in an exception, either one that
    ends the loop or the one that uses up the budget. *)
Lemma with_retry_raises request max_retries errs exn w :
  Forall (λ e, err_retriable e = true) errs →
  answers (provider_state w) request (map fails errs ++ [Raise exn]) →
  (Z.of_nat (length errs) ≤ max_retries ∧ final_answer (Raise exn) = true)
  ∨ Z.of_nat (length errs) = max_retries →
  with_retry (call_provider request) max_retries w
  = (Raise exn,
     with_provider
       (provider_after (provider_state w) request (S (length errs)))
       (retried request (waits BASE_DELAY errs) ++ [IOCall request]) w).
Proof.
  intros Hall [Hans [Hlast _]]%answers_app Hwhy.
  rewrite length_map in Hlast.
  rewrite (with_retry_failures _ _ errs) by (done || lia).
  destruct (final_answer (Raise exn)) eqn:Hfinal.
  - rewrite (retry_loop_final _ _ _ _ _ _ _ (Raise exn)) by done.
    cbn [provider_state with_provider].
    by rewrite with_provider_with_provider, provider_after_S.
  - destruct Hwhy as [[_ ?]|Hlen]; [done|].
    destruct exn as [e|c m]; [|done]. cbn [final_answer] in Hfinal.
    apply negb_false_iff in Hfinal.
    cbn [retry_loop]. rewrite call_provider_eq.
    cbn [provider_state with_provider]. rewrite Hlast.
    cbv beta iota. rewrite Hfinal. cbn [negb].
    match goal with
    | |- context [?a <? ?b] => destruct (Z.ltb_spec a b); [lia|]
    end.
    by rewrite with_provider_with_provider, provider_after_S.
Qed.

(** X14.  A provider call that ends in an exception makes the transition
    return "failed" and is recorded by the class of the exception: a
    [PermanentError] as "payment_failed_permanent", an exception that is
    no [ProviderError] as "payment_failed_unexpected", and every other
    [ProviderError] as "payment_failed_retries_exhausted" — the sixth
    retriable failure in a row, but also a base [ProviderError] that is
    marked not retriable, which is recorded so after a single call.  The
    trace shows the calls and waits of the retry loop and nothing
    else. *)
Theorem failed_call_is_logged_by_class run k event w p cents errs exn :
  payouts w !! k = Some p →
  eligible (eligibility_of p) = true →
  Py.int_round (Payout.amount p * 100)%float = Some cents →
  Forall (λ e, err_retriable e = true) errs →
  answers (provider_state w)
    (payment_order_request (rail_of p) (routed p) event cents)
    (map fails errs ++ [Raise exn]) →
  ((length errs ≤ 5)%nat ∧ final_answer (Raise exn) = true)
  ∨ length errs = 5%nat →
  ∃ w' p' entry,
    _process_single_payout run k event w = (Return "failed", w')
    ∧ new_io w w'
      = retried (payment_order_request (rail_of p) (routed p) event cents)
          (waits BASE_DELAY errs)
        ++ [IOCall (payment_order_request (rail_of p) (routed p) event cents)]
    ∧ payouts w' !! k = Some p'
    ∧ Payout.status p' = FAILED
    ∧ last (audit_logs w') = Some entry
    ∧ AuditLog.action entry = failure_action exn
    ∧ AuditLog.run_id entry = Some (PayoutRun.id run)
    ∧ AuditLog.payout_id entry = Some (Payout.id p).
Proof.
  intros Hk Hel Hc Hall Hans Hwhy.
  destruct (_process_single_payout run k event w) as [res w'] eqn:Hrun.
  unfold eligibility_of in Hel.
  unfold _process_single_payout, get_payout in Hrun.
  unfold mbind at 1 in Hrun. unfold M_bind at 1 in Hrun.
  rewrite Hk in Hrun. cbv beta iota in Hrun.
  rewrite Hel in Hrun. cbn [negb] in Hrun.
  fold (rail_of p) in Hrun. fold (routed p) in Hrun.
  unfold _cents in Hrun.
  change (Payout.amount (routed p)) with (Payout.amount p) in Hrun.
  rewrite Hc in Hrun. cbv zeta in Hrun. run_session_in Hrun.
  unfold try_except in Hrun.
  match type of Hrun with
  | context [with_retry ?f ?m ?wr] =>
      rewrite (with_retry_raises
                 (payment_order_request (rail_of p) (routed p) event cents)
                 m errs exn wr Hall Hans) in Hrun
  end.
  2: { unfold MAX_RETRIES. destruct Hwhy as [[? ?]|?]; [left|right];
         [split; [lia|done]|lia]. }
  destruct exn as [[m c r|m hint|m c]|c m]; run_session_in Hrun.
  all: injection Hrun as <- <-; eexists _, _, _; split; [reflexivity|].
  all: cbn [payouts with_payouts with_provider with_audit_logs with_clock
              io_trace provider_state audit_logs].
  all: split;
    [unfold new_io;
     cbv [io_trace with_audit_logs with_clock with_payouts with_provider];
     by rewrite drop_app_length|].
  all: split; [apply lookup_insert_eq|].
  all: split; [reflexivity|].
  all: split; [apply last_snoc|].
  all: by split_and!.
Qed.

End FailurePaths.

(* ===================================================================== *)
(** * The summary of a run *)
(* ===================================================================== *)

Lemma counter_incr_total (key : string) (c : list (string * Z)) :
  counter_total (counter_incr key c) = counter_total c + 1.
Proof.
  induction c as [|[k0 n0] c IH]; [done|].
  cbn [counter_incr]. case_bool_decide; cbn [counter_total foldr snd] in *.
  - lia.
  - fold (counter_total (counter_incr key c)). fold (counter_total c).
    rewrite IH. lia.
Qed.

Lemma counter_incr_keys (key : string) (c : list (string * Z)) :
  (counter_incr key c).*1
  = if bool_decide (key ∈ c.*1) then c.*1 else c.*1 ++ [key].
Proof.
  induction c as [|[k0 n0] c IH]; [done|].
  cbn [counter_incr]. destruct (decide (k0 = key)) as [->|Hne].
  - rewrite bool_decide_true by done. rewrite fmap_cons. cbn [fst].
    rewrite bool_decide_true; [done|]. by left.
  - rewrite bool_decide_false by done. rewrite !fmap_cons, IH. cbn [fst].
    destruct (decide (key ∈ c.*1)) as [Hin|Hin].
    + rewrite !bool_decide_true; [done|by right|done].
    + rewrite !bool_decide_false; [done| |done].
      intros [?|?]%elem_of_cons; [by subst|done].
Qed.

Lemma counter_incr_positive (P : string → Prop) (key : string)
    (c : list (string * Z)) :
  P key → Forall (λ kv, P kv.1 ∧ 0 < kv.2) c →
  Forall (λ kv, P kv.1 ∧ 0 < kv.2) (counter_incr key c).
Proof.
  intros Hkey. induction c as [|[k0 n0] c IH]; intros Hall.
  - repeat constructor; done.
  - apply Forall_cons in Hall as [[Hp Hn] Hall]. cbn [fst snd] in *.
    cbn [counter_incr]. case_bool_decide.
    + constructor; [|done]. cbn [fst snd]. split; [done|lia].
    + constructor; [done|]. by apply IH.
Qed.

Lemma counter_incr_ok (key : string) (c : list (string * Z)) (n : Z) :
  key ∈ GATE_REASONS → breakdown_ok c n →
  breakdown_ok (counter_incr key c) (n + 1).
Proof.
  intros Hkey (Htot & Hnd & Hall). split_and!.
  - rewrite counter_incr_total. lia.
  - rewrite counter_incr_keys. case_bool_decide as Hin; [done|].
    apply NoDup_app. split_and!; [done| |apply NoDup_singleton].
    intros x Hx Hx2. apply list_elem_of_singleton in Hx2 as ->. done.
  - by apply (counter_incr_positive (λ s, s ∈ GATE_REASONS)).
Qed.

Section SummaryFacts.
  Context {PS : Type} `{PaymentProvider PS} `{PyRuntime}.
  Implicit Types (w : @World PS) (p : Payout.t) (k : PayoutKey).

(** The gate gives five of the six values of [SkipReason]; WRONG_STATUS
    is not among them. *)
Lemma gate_reason_value pm a ext c eo r :
  skip_reason (check_eligibility pm a ext c eo) = Some r →
  SkipReason_value r ∈ GATE_REASONS.
Proof.
  unfold check_eligibility, GATE_REASONS.
  repeat (match goal with |- context [if ?b then _ else _] => destruct b end;
          [intros [= <-]; cbn [SkipReason_value]; set_solver|]).
  done.
Qed.

  #[local] Opaque check_eligibility select_rail.

(** A transition that returns "skipped" has stored one of the gate's
    reasons. *)
Lemma process_single_skipped_reason run k event w w' p' :
  _process_single_payout run k event w = (Return "skipped", w') →
  payouts w' !! k = Some p' →
  ∃ reason, Payout.skip_reason p' = Some reason ∧ reason ≠ ""
            ∧ reason ∈ GATE_REASONS.
Proof.
  intros Hrun Hp'.
  destruct (payouts w !! k) as [p|] eqn:Hk;
    [|rewrite (process_missing _ _ _ _ Hk) in Hrun; discriminate].
  destruct (eligible (eligibility_of p)) eqn:Hel.
  - pose proof (process_eligible run k event w p Hk Hel) as Hp.
    destruct (Py.int_round (Payout.amount p * 100)%float) as [cents|].
    + cbv zeta in Hp.
      destruct Hp as (wr & r & ps & io & q & w1 & _ & _ & _ & Hrun1 & _).
      rewrite Hrun1 in Hrun. by destruct r.
    + destruct Hp as (e & w1 & Hrun1 & _). congruence.
  - destruct (process_skipped_payout run k event w p Hk Hel)
      as (q & w1 & Hrun1 & Hq & _ & _ & _ & Hreason).
    rewrite Hrun1 in Hrun. injection Hrun as <-.
    rewrite Hq, lookup_insert_eq in Hp'. injection Hp' as <-.
    destruct (ineligible_reason p Hel) as [r Hr].
    rewrite Hreason, Hr. cbn [fmap option_fmap option_map].
    exists (SkipReason_value r). split; [done|].
    split; [by destruct r|].
    unfold eligibility_of in Hr. by eapply gate_reason_value.
Qed.

Lemma process_payouts_breakdown run event todo :
  ∀ t w t' w',
    process_payouts run event todo t w = (Return t', w') →
    breakdown_ok (skip_counts t) (skipped t) →
    breakdown_ok (skip_counts t') (skipped t').
Proof.
  induction todo as [|k todo IH]; intros t w t' w' Hloop Hok.
  - cbn in Hloop. by injection Hloop as <- <-.
  - destruct (_process_single_payout run k event w) as [[result|e] w1] eqn:Hrun.
    2: { rewrite (process_payouts_raise _ _ _ _ _ _ _ _ Hrun) in Hloop.
         discriminate. }
    destruct (process_single_result _ _ _ _ _ _ Hrun) as [Hres [p' Hp']].
    rewrite (process_payouts_step _ _ _ _ _ _ _ _ _ Hrun Hp') in Hloop.
    apply (IH _ _ _ _ Hloop). unfold tally_add.
    destruct Hres as [-> | [-> | ->]]; cbn [bool_decide decide_rel]; try done.
    rewrite bool_decide_false by done. rewrite bool_decide_true by done.
    cbn [skip_counts skipped].
    destruct (process_single_skipped_reason _ _ _ _ _ _ Hrun Hp')
      as (reason & Hreason & Hne & Hin).
    rewrite Hreason. destruct reason as [|c s]; [done|].
    cbn [Py.truthy_str Py.fmt_opt_str]. by apply counter_incr_ok.
Qed.

(** X15.  The skip breakdown of a completed run fits its skipped count:
    the counts of the breakdown add up to [skipped_count], no reason is
    listed twice, every reason listed is one of the five the gate gives
    (never "wrong_status") with a positive count, and the breakdown is
    absent exactly when nothing was skipped. *)
Theorem skip_breakdown_adds_up (liquidation_event_id : string) w run w' :
  execute_run liquidation_event_id w = (Return run, w') →
  PayoutRun.status run = RUN_COMPLETED →
  breakdown_ok (default [] (PayoutRun.skip_breakdown run))
    (PayoutRun.skipped_count run)
  ∧ (PayoutRun.skip_breakdown run = None
     ↔ PayoutRun.skipped_count run = 0).
Proof.
  intros Hrun Hst.
  destruct (completed_run_inv _ _ _ _ Hrun Hst)
    as (event & run0 & w1 & tally & w2 & _ & _ & _ & _ & Hloop & -> & _).
  assert (Hok : breakdown_ok (skip_counts tally) (skipped tally)).
  { apply (process_payouts_breakdown _ _ _ _ _ _ _ Hloop).
    split_and!; [done|constructor|constructor]. }
  cbn [completed_run PayoutRun.skip_breakdown PayoutRun.skipped_count].
  destruct (skip_counts tally) as [|[k0 n0] c] eqn:Hc.
  - split; [done|]. destruct Hok as (Htot & _). split; [done|].
    intros _. reflexivity.
  - split; [done|]. split; [done|].
    destruct Hok as (Htot & _ & Hall). intros Hzero.
    assert (Hpos : ∀ l, Forall (λ kv : string * Z,
                                  kv.1 ∈ GATE_REASONS ∧ 0 < kv.2) l →
                        0 ≤ counter_total l).
    { induction l as [|[k1 n1] l IHl]; [done|].
      intros [[_ Hn] Hl]%Forall_cons. cbn [counter_total foldr snd] in *.
      fold (counter_total l). specialize (IHl Hl). lia. }
    apply Forall_cons in Hall as [[_ Hn] Hall]. specialize (Hpos _ Hall).
    cbn [counter_total foldr snd] in Htot. fold (counter_total c) in Htot.
    cbn [snd] in Hn. lia.
Qed.

(** X16.  An event without recipients: the run completes with all three
    counts zero and no skip breakdown, creates no payout and calls the
    provider not once; the share [total_amount / max(len(investors), 1)]
    is never computed. *)
Theorem run_without_recipients (liquidation_event_id : string) w event :
  liquidation_events w !! liquidation_event_id = Some event →
  investors w = [] →
  ∃ run w',
    execute_run liquidation_event_id w = (Return run, w')
    ∧ PayoutRun.status run = RUN_COMPLETED
    ∧ PayoutRun.created_count run = 0
    ∧ PayoutRun.skipped_count run = 0
    ∧ PayoutRun.failed_count run = 0
    ∧ PayoutRun.skip_breakdown run = None
    ∧ payouts w' = payouts w
    ∧ new_io w w' = [].
Proof.
  intros Hev Hinv. rewrite execute_run_eq, Hev, Hinv.
  destruct (run_started_eq liquidation_event_id w)
    as (entry0 & _ & _ & _ & _ & _ & Hp0 & (Hio0 & _) & _).
  cbn [ensure_payouts process_payouts mret M_ret].
  rewrite bool_decide_true by constructor.
  destruct (close_run_eq "run_completed"
              (completed_run (run_started liquidation_event_id w).1 tally0)
              (completed_details tally0) (run_started liquidation_event_id w).2)
    as (entry & w3 & -> & _ & _ & _ & _ & _ & Hp3 & (Hio3 & _)).
  eexists _, _. split; [reflexivity|]. split_and!; try done; try congruence.
  unfold new_io. rewrite Hio3, Hio0. apply drop_all.
Qed.

End SummaryFacts.

(* ===================================================================== *)
(** * Provider calls and payout rows of a run *)
(* ===================================================================== *)

Section Accounting.
  Context {PS : Type} `{PaymentProvider PS} `{PyRuntime}.
  Implicit Types (w : @World PS) (p : Payout.t) (k : PayoutKey).

  #[local] Opaque check_eligibility select_rail.

(** The wrapper with the default budget makes between one and six
    calls. *)
Lemma with_retry_call_bounds request w r ps io :
  with_retry (call_provider request) MAX_RETRIES w
  = (r, with_provider ps io w) →
  (1 ≤ count_calls io ≤ 6)%nat.
Proof.
  unfold with_retry, MAX_RETRIES. change (Z.to_nat (5 + 1)) with 6%nat.
  assert (Hsum : 0 + Z.of_nat 5 = 5) by done.
  destruct (retry_loop_shape request 5 5 0 BASE_DELAY None w Hsum)
    as (r' & ps' & ws & -> & Hlen).
  intros Heq. apply (f_equal snd) in Heq. cbn [snd] in Heq.
  apply (f_equal io_trace) in Heq. cbn [io_trace with_provider] in Heq.
  apply app_inv_head in Heq. subst io.
  rewrite count_calls_app, count_calls_retried.
  change (count_calls [IOCall request]) with 1%nat. lia.
Qed.

(** The calls of one transition: none for a skipped payout, between one
    and six otherwise. *)
Lemma process_single_calls run k event w result w1 :
  _process_single_payout run k event w = (Return result, w1) →
  ∃ io, io_trace w1 = io_trace w ++ io
        ∧ (result = "skipped" → io = [])
        ∧ (result ≠ "skipped" → (1 ≤ count_calls io ≤ 6)%nat).
Proof.
  intros Hrun.
  destruct (payouts w !! k) as [p|] eqn:Hk;
    [|rewrite (process_missing _ _ _ _ Hk) in Hrun; discriminate].
  destruct (eligible (eligibility_of p)) eqn:Hel.
  - pose proof (process_eligible run k event w p Hk Hel) as Hp.
    destruct (Py.int_round (Payout.amount p * 100)%float) as [cents|].
    + cbv zeta in Hp.
      destruct Hp as (wr & r & ps & io & q & w' & _ & Hretry & _ & Hrun1 & _
                      & Hio & _).
      rewrite Hrun1 in Hrun. injection Hrun as <- <-.
      exists io. split; [done|]. split; [by destruct r|].
      intros _. by eapply with_retry_call_bounds.
    + destruct Hp as (e & w' & Hrun1 & _). congruence.
  - destruct (process_skipped_payout run k event w p Hk Hel)
      as (q & w' & Hrun1 & _ & (Hio & _) & _).
    rewrite Hrun1 in Hrun. injection Hrun as <- <-.
    exists []. rewrite app_nil_r. by split_and!.
Qed.

Lemma process_payouts_calls run event todo :
  ∀ t w t' w',
    process_payouts run event todo t w = (Return t', w') →
    ∃ io, io_trace w' = io_trace w ++ io
          ∧ successes t + failures t ≤ successes t' + failures t'
          ∧ (successes t' + failures t') - (successes t + failures t)
            ≤ Z.of_nat (count_calls io)
          ∧ Z.of_nat (count_calls io)
            ≤ 6 * ((successes t' + failures t')
                   - (successes t + failures t)).
Proof.
  induction todo as [|k todo IH]; intros t w t' w' Hloop.
  - cbn in Hloop. injection Hloop as <- <-. exists [].
    rewrite app_nil_r. split; [done|]. cbn. lia.
  - destruct (_process_single_payout run k event w) as [[result|e] w1] eqn:Hrun.
    2: { rewrite (process_payouts_raise _ _ _ _ _ _ _ _ Hrun) in Hloop.
         discriminate. }
    destruct (process_single_result _ _ _ _ _ _ Hrun) as [Hres [p' Hp']].
    rewrite (process_payouts_step _ _ _ _ _ _ _ _ _ Hrun Hp') in Hloop.
    destruct (IH _ _ _ _ Hloop) as (io2 & Hio2 & Hmono & Hlo & Hhi).
    destruct (process_single_calls _ _ _ _ _ _ Hrun)
      as (io1 & Hio1 & Hskip & Hcall).
    exists (io1 ++ io2). rewrite Hio2, Hio1, app_assoc. split; [done|].
    rewrite count_calls_app. unfold tally_add in *.
    destruct Hres as [-> | [-> | ->]].
    + specialize (Hcall ltac:(done)).
      rewrite bool_decide_true in * by done.
      cbn [successes failures] in *. lia.
    + rewrite (Hskip eq_refl).
      rewrite bool_decide_false in * by done.
      rewrite bool_decide_true in * by done.
      cbn [successes failures count_calls filter length] in *.
      change (count_calls []) with 0%nat. lia.
    + specialize (Hcall ltac:(done)).
      rewrite !(bool_decide_false ("failed" = "created")) in * by done.
      rewrite !(bool_decide_false ("failed" = "skipped")) in * by done.
      rewrite bool_decide_true in * by done.
      cbn [successes failures] in *. lia.
Qed.

(** X17.  The provider calls of a completed run are accounted for by its
    summary: a skipped payout costs no call, every created or failed
    payout between one call and six, so the number of calls lies between
    [created_count + failed_count] and six times that number. *)
Theorem provider_calls_account (liquidation_event_id : string) w run w' :
  execute_run liquidation_event_id w = (Return run, w') →
  PayoutRun.status run = RUN_COMPLETED →
  PayoutRun.created_count run + PayoutRun.failed_count run
    ≤ Z.of_nat (count_calls (new_io w w'))
  ∧ Z.of_nat (count_calls (new_io w w'))
    ≤ 6 * (PayoutRun.created_count run + PayoutRun.failed_count run).
Proof.
  intros Hrun Hst.
  destruct (completed_run_inv _ _ _ _ Hrun Hst)
    as (event & run0 & w1 & tally & w2 & _ & (Hio1 & _) & _ & _ & Hloop & ->
        & (Hio3 & _) & _).
  destruct (process_payouts_calls _ _ _ _ _ _ _ Hloop)
    as (io & Hio & _ & Hlo & Hhi).
  unfold new_io. rewrite Hio3, Hio, Hio1, drop_app_length.
  cbn [completed_run PayoutRun.created_count PayoutRun.failed_count].
  cbn [tally0 successes failures] in *. lia.
Qed.

End Accounting.

Section Rows.
  Context {PS : Type} `{PaymentProvider PS} `{PyRuntime}.
  Implicit Types (w : @World PS) (p : Payout.t) (k : PayoutKey).

(** The world after one turn of the set-up loop. *)
Lemma ensure_payouts_cons_snd run event evid existing n inv todo w :
  (ensure_payouts run event evid existing n (inv :: todo) w).2
  = (ensure_payouts run event evid existing n todo
       match existing (Investor.id inv) with
       | Some p0 =>
           if bool_decide (Payout.status p0 ∉ [COMPLETED; SKIPPED])
           then with_payouts
                  (insert (evid, Investor.id inv)
                     (Payout.set_run_id (Some (PayoutRun.id run)) p0)) w
           else w
       | None =>
           with_payouts
             (insert (evid, Investor.id inv)
                (new_payout run event evid n inv (uuid4_hex (uuids w))))
             (with_uuids (S (uuids w)) w)
       end).2.
Proof.
  destruct (existing (Investor.id inv)) as [p0|] eqn:Hex.
  - rewrite (ensure_payouts_existing _ _ _ _ _ _ _ _ _ Hex).
    by destruct (ensure_payouts _ _ _ _ _ _ _) as [[[keys added]|e] w'].
  - rewrite (ensure_payouts_new _ _ _ _ _ _ _ _ Hex).
    by destruct (ensure_payouts _ _ _ _ _ _ _) as [[[keys added]|e] w'].
Qed.

(** The set-up loop writes the rows of its recipients only. *)
Lemma ensure_payouts_frame run event evid existing n todo :
  ∀ w k0, k0 ∉ payout_keys evid todo →
    payouts (ensure_payouts run event evid existing n todo w).2 !! k0
    = payouts w !! k0.
Proof.
  induction todo as [|inv todo IH]; intros w k0 Hk0; [done|].
  apply not_elem_of_cons in Hk0 as [Hne Hk0].
  rewrite ensure_payouts_cons_snd, (IH _ _ Hk0).
  destruct (existing (Investor.id inv)) as [p0|].
  - destruct (bool_decide (Payout.status p0 ∉ [COMPLETED; SKIPPED])); [|done].
    cbn [payouts with_payouts]. by rewrite lookup_insert_ne.
  - cbn [payouts with_payouts with_uuids]. by rewrite lookup_insert_ne.
Qed.

(** The row of a recipient after the set-up loop: a new row for one
    without a row, the old row attached to the run unless it is completed
    or skipped, and then untouched. *)
Lemma ensure_payouts_row run event evid existing n todo :
  ∀ w inv, inv ∈ todo →
    match existing (Investor.id inv) with
    | None =>
        ∃ inv' h,
          inv' ∈ todo ∧ Investor.id inv' = Investor.id inv
          ∧ payouts (ensure_payouts run event evid existing n todo w).2
              !! (evid, Investor.id inv)
            = Some (new_payout run event evid n inv' h)
    | Some p0 =>
        payouts (ensure_payouts run event evid existing n todo w).2
          !! (evid, Investor.id inv)
        = if bool_decide (Payout.status p0 ∉ [COMPLETED; SKIPPED])
          then Some (Payout.set_run_id (Some (PayoutRun.id run)) p0)
          else payouts w !! (evid, Investor.id inv)
    end.
Proof.
  induction todo as [|inv0 todo IH]; intros w inv Hin;
    [by apply elem_of_nil in Hin|].
  rewrite ensure_payouts_cons_snd.
  destruct (decide (Investor.id inv ∈ Investor.id <$> todo)) as [Hlater|Hlast].
  - apply list_elem_of_fmap in Hlater as (inv1 & Hid & Hin1).
    match goal with
    | |- context [ensure_payouts _ _ _ _ _ _ ?w0] =>
        pose proof (IH w0 inv1 Hin1) as Hrow
    end.
    rewrite <- Hid in Hrow.
    destruct (existing (Investor.id inv)) as [p0|] eqn:Hex.
    + rewrite Hrow.
      destruct (decide (Payout.status p0 ∉ [COMPLETED; SKIPPED])) as [Hst|Hst].
      { by rewrite !bool_decide_true. }
      rewrite (bool_decide_false _ Hst).
      destruct (decide (Investor.id inv0 = Investor.id inv)) as [Heq|Hne].
      * rewrite Heq, Hex. by rewrite (bool_decide_false _ Hst).
      * destruct (existing (Investor.id inv0)) as [q0|].
        -- destruct (bool_decide (Payout.status q0 ∉ [COMPLETED; SKIPPED]));
             [|done].
           cbn [payouts with_payouts]. rewrite lookup_insert_ne; [done|].
           congruence.
        -- cbn [payouts with_payouts with_uuids].
           rewrite lookup_insert_ne; [done|]. congruence.
    + destruct Hrow as (inv' & h & Hin' & Hid' & Hrow).
      exists inv', h. split_and!; [by right|done|done].
  - assert (inv = inv0) as ->.
    { apply elem_of_cons in Hin as [->|Hin]; [done|].
      destruct Hlast. apply list_elem_of_fmap. by exists inv. }
    assert (Hk : (evid, Investor.id inv0) ∉ payout_keys evid todo).
    { intros (inv1 & Heq & Hin1)%list_elem_of_fmap. apply Hlast.
      apply list_elem_of_fmap. exists inv1. split; [congruence|done]. }
    rewrite (ensure_payouts_frame _ _ _ _ _ _ _ _ Hk).
    destruct (existing (Investor.id inv0)) as [p0|].
    + destruct (bool_decide (Payout.status p0 ∉ [COMPLETED; SKIPPED]));
        [|done].
      cbn [payouts with_payouts]. by rewrite lookup_insert_eq.
    + exists inv0, (uuid4_hex (uuids w)). split_and!; [by left|done|].
      cbn [payouts with_payouts with_uuids]. by rewrite lookup_insert_eq.
Qed.

(** The row of a recipient after a run that found its event and
    returned, from the row after the set-up loop. *)
Lemma returned_run_row evid w event run w' inv :
  liquidation_events w !! evid = Some event →
  execute_run evid w = (Return run, w') →
  ∀ p1,
    payouts (ensure_payouts (run_started evid w).1 event evid
               (λ i, payouts w !! (evid, i))
               (Z.of_nat (length (investors w))) (investors w)
               (run_started evid w).2).2 !! (evid, Investor.id inv)
    = Some p1 →
    PayoutRun.id run = PayoutRun.id (run_started evid w).1
    ∧ ∃ p', payouts w' !! (evid, Investor.id inv) = Some p'
            ∧ same_snapshot p1 p' ∧ Payout.run_id p' = Payout.run_id p1.
Proof.
  intros Hev. rewrite execute_run_eq, Hev.
  destruct (ensure_payouts _ _ _ _ _ _ _) as [[[keys added]|e] w1]; [|done].
  destruct (bool_decide (NoDup added)); [|done].
  cbn [snd]. intros Hrun p1 Hp1.
  destruct (process_payouts_keeps (run_started evid w).1 event keys tally0
              w1 _ p1 Hp1) as (p2 & Hp2 & (Hs2 & _) & Hr2).
  destruct (process_payouts _ _ _ _ _) as [[tally|e] w2]; [|done].
  destruct (close_run_eq "run_completed"
              (completed_run (run_started evid w).1 tally)
              (completed_details tally) w2)
    as (entry & w3 & Hclose & _ & _ & _ & _ & _ & Hp3 & _).
  rewrite Hclose in Hrun. injection Hrun as <- <-.
  split; [done|]. exists p2. rewrite Hp3. by split_and!.
Qed.

(** X18.  Equal shares.  A run that returns creates, for every recipient
    without a payout for the event, a payout attached to the run, in USD,
    whose amount is the event's total divided by the number of all
    recipients (with or without a payout) and rounded to cents. *)
Theorem run_creates_equal_shares (liquidation_event_id : string) w event
    run w' inv :
  liquidation_events w !! liquidation_event_id = Some event →
  execute_run liquidation_event_id w = (Return run, w') →
  inv ∈ investors w →
  payouts w !! (liquidation_event_id, Investor.id inv) = None →
  ∃ p',
    payouts w' !! (liquidation_event_id, Investor.id inv) = Some p'
    ∧ Payout.amount p'
      = share_of event (Z.of_nat (length (investors w)))
    ∧ Payout.currency p' = Some "USD"
    ∧ Payout.run_id p' = Some (PayoutRun.id run)
    ∧ Payout.liquidation_event_id p' = liquidation_event_id
    ∧ Payout.investor_id p' = Investor.id inv.
Proof.
  intros Hev Hrun Hin Hnone.
  pose proof (ensure_payouts_row (run_started liquidation_event_id w).1 event
                liquidation_event_id
                (λ i, payouts w !! (liquidation_event_id, i))
                (Z.of_nat (length (investors w))) (investors w)
                (run_started liquidation_event_id w).2 inv Hin) as Hrow.
  cbv beta in Hrow. rewrite Hnone in Hrow.
  destruct Hrow as (inv' & h & _ & Hid & Hrow).
  destruct (returned_run_row _ _ _ _ _ inv Hev Hrun _ Hrow)
    as (Hrid & p' & Hp' & Hsnap & Hr).
  exists p'. split; [done|].
  destruct Hsnap as (_ & He & Hi & _ & Ha & Hc & _).
  rewrite Ha, Hc, Hr, He, Hi, Hrid. by split_and!.
Qed.

(** X19.  A run that finds its event and returns attaches to itself the
    payout of every recipient whose payout was neither completed nor
    skipped at the start (pending, processing or failed ones, for
    instance), and leaves a completed or skipped payout with the run it
    had. *)
Theorem run_attaches_open_payouts (liquidation_event_id : string) w event
    run w' inv p :
  liquidation_events w !! liquidation_event_id = Some event →
  execute_run liquidation_event_id w = (Return run, w') →
  inv ∈ investors w →
  payouts w !! (liquidation_event_id, Investor.id inv) = Some p →
  ∃ p',
    payouts w' !! (liquidation_event_id, Investor.id inv) = Some p'
    ∧ Payout.run_id p'
      = if bool_decide (Payout.status p ∈ [COMPLETED; SKIPPED])
        then Payout.run_id p else Some (PayoutRun.id run).
Proof.
  intros Hev Hrun Hin Hsome.
  pose proof (ensure_payouts_row (run_started liquidation_event_id w).1 event
                liquidation_event_id
                (λ i, payouts w !! (liquidation_event_id, i))
                (Z.of_nat (length (investors w))) (investors w)
                (run_started liquidation_event_id w).2 inv Hin) as Hrow.
  cbv beta in Hrow. rewrite Hsome in Hrow.
  destruct (run_started_eq liquidation_event_id w)
    as (entry0 & _ & _ & _ & _ & _ & Hp0 & _).
  rewrite Hp0, Hsome in Hrow.
  destruct (decide (Payout.status p ∈ [COMPLETED; SKIPPED])) as [Hst|Hst].
  - rewrite bool_decide_false in Hrow by (by intros ?).
    destruct (returned_run_row _ _ _ _ _ inv Hev Hrun _ Hrow)
      as (_ & p' & Hp' & _ & Hr).
    exists p'. by rewrite bool_decide_true.
  - rewrite bool_decide_true in Hrow by done.
    destruct (returned_run_row _ _ _ _ _ inv Hev Hrun _ Hrow)
      as (Hrid & p' & Hp' & _ & Hr).
    exists p'. rewrite bool_decide_false by done.
    split; [done|]. by rewrite Hr, Hrid.
Qed.

End Rows.

(* ===================================================================== *)
(** * Where a run leaves the payouts *)
(* ===================================================================== *)

Section Closing.
  Context {PS : Type} `{PaymentProvider PS} `{PyRuntime}.
  Implicit Types (w : @World PS) (p : Payout.t) (k : PayoutKey).

(** With a budget that is not negative, what the wrapper returns or
    raises is what the provider answered to one of its calls. *)
Lemma retry_loop_answer request max_retries todo :
  ∀ attempt delay last_error w,
    attempt + Z.of_nat todo = max_retries →
    ∃ ps0,
      (create_payment_order ps0 request).1
      = (retry_loop (call_provider request) max_retries (S todo) attempt
           delay last_error w).1.
Proof.
  induction todo as [|todo IH]; intros attempt delay last_error w Hsum.
  - cbn [retry_loop]. rewrite call_provider_eq. exists (provider_state w).
    destruct (create_payment_order (provider_state w) request) as [r ps1].
    cbn [fst snd]. destruct r as [v|[e|c m]]; try done.
    destruct (err_retriable e); cbn [negb]; [|done].
    by destruct (Z.ltb_spec attempt max_retries); [lia|].
  - remember (S todo) as n eqn:Hn. cbn [retry_loop]. subst n.
    rewrite call_provider_eq.
    destruct (create_payment_order (provider_state w) request)
      as [r ps1] eqn:Hcall.
    cbn [fst snd].
    destruct r as [v|[e|c m]];
      [exists (provider_state w); by rewrite Hcall
      | |exists (provider_state w); by rewrite Hcall].
    destruct (err_retriable e); cbn [negb];
      [|exists (provider_state w); by rewrite Hcall].
    destruct (Z.ltb_spec attempt max_retries); [|lia].
    unfold sleep, modify. unfold mbind at 1. unfold M_bind at 1.
    cbv beta iota.
    assert (Hsum' : attempt + 1 + Z.of_nat todo = max_retries) by lia.
    match goal with
    | |- context [retry_loop _ _ _ _ ?d ?l ?w1] =>
        apply (IH (attempt + 1) d l w1 Hsum')
    end.
Qed.

Lemma with_retry_answer request max_retries w :
  0 ≤ max_retries →
  ∃ ps0,
    (create_payment_order ps0 request).1
    = (with_retry (call_provider request) max_retries w).1.
Proof.
  intros Hle. unfold with_retry.
  replace (Z.to_nat (max_retries + 1)) with (S (Z.to_nat max_retries)) by lia.
  apply retry_loop_answer. lia.
Qed.

  #[local] Opaque check_eligibility select_rail.

(** A transition that returns leaves its payout closed. *)
Lemma process_single_closes run k event w result w' :
  gives_order_ids PS →
  _process_single_payout run k event w = (Return result, w') →
  ∃ p', payouts w' = <[k := p']> (payouts w) ∧ closed p'.
Proof.
  intros Hids Hrun.
  destruct (payouts w !! k) as [p|] eqn:Hk;
    [|rewrite (process_missing _ _ _ _ Hk) in Hrun; discriminate].
  destruct (eligible (eligibility_of p)) eqn:Hel.
  - pose proof (process_eligible run k event w p Hk Hel) as Hp.
    destruct (Py.int_round (Payout.amount p * 100)%float) as [cents|].
    + cbv zeta in Hp.
      destruct Hp as (wr & r & ps & io & p' & w1 & _ & Hretry & _ & Hrun1 & Hp'
                      & _ & _ & _ & _ & _ & _ & _ & _ & _ & Hr).
      rewrite Hrun1 in Hrun. injection Hrun as <- <-.
      exists p'. split; [done|].
      destruct r as [response|exn]; destruct Hr as [Hst Hoid].
      * split; [rewrite Hst; set_solver|]. intros _. rewrite Hoid.
        destruct (with_retry_answer
                    (payment_order_request (rail_of p) (routed p) event cents)
                    MAX_RETRIES wr) as [ps0 Hans]; [done|].
        rewrite Hretry in Hans. cbn [fst] in Hans.
        specialize (Hids _ _ _ Hans).
        by destruct (PaymentOrderResponse.payment_order_id response).
      * split; [rewrite Hst; set_solver|]. by rewrite Hst.
    + destruct Hp as (e & w1 & Hrun1 & _). congruence.
  - destruct (process_skipped_payout run k event w p Hk Hel)
      as (p' & w1 & Hrun1 & Hp' & _ & _ & Hst & _).
    rewrite Hrun1 in Hrun. injection Hrun as <- <-.
    exists p'. split; [done|].
    split; [rewrite Hst; set_solver|]. by rewrite Hst.
Qed.

Lemma process_payouts_closes run event todo :
  gives_order_ids PS →
  ∀ t w t' w',
    process_payouts run event todo t w = (Return t', w') →
    ∀ k p, payouts w !! k = Some p →
      ∃ p', payouts w' !! k = Some p' ∧ (k ∈ todo ∨ closed p → closed p').
Proof.
  intros Hids.
  induction todo as [|k todo IH]; intros t w t' w' Hloop.
  - injection Hloop as <- <-. intros k p Hk. exists p. split; [done|].
    by intros [?%elem_of_nil|?].
  - destruct (_process_single_payout run k event w) as [[res|e] w1] eqn:Hstep;
      [|by rewrite (process_payouts_raise _ _ _ _ _ _ _ _ Hstep) in Hloop].
    destruct (process_single_closes _ _ _ _ _ _ Hids Hstep)
      as (pk' & Hp1 & Hclosed).
    assert (Hk1 : payouts w1 !! k = Some pk')
      by (by rewrite Hp1, lookup_insert_eq).
    rewrite (process_payouts_step _ _ _ _ _ _ _ _ _ Hstep Hk1) in Hloop.
    pose proof (IH _ _ _ _ Hloop) as Hrel.
    intros k0 p0 Hk0. destruct (decide (k0 = k)) as [->|Hne].
    + destruct (Hrel k pk' Hk1) as (p'' & Hk'' & Himp).
      exists p''. split; [done|]. intros _. apply Himp. by right.
    + assert (Hk01 : payouts w1 !! k0 = Some p0)
        by (by rewrite Hp1, lookup_insert_ne).
      destruct (Hrel k0 p0 Hk01) as (p'' & Hk'' & Himp).
      exists p''. split; [done|].
      intros [[->|Hin]%elem_of_cons|Hs]; [done|apply Himp; by left|].
      apply Himp. by right.
Qed.

(** X20.  A completed run leaves no payout of a recipient open: with a
    provider whose responses carry order ids that are not empty, after
    the run every recipient has a payout for the event that is completed
    with an order id, skipped, or failed; none is left pending or
    processing. *)
Theorem completed_run_closes_every_payout (liquidation_event_id : string)
    w run w' inv :
  gives_order_ids PS →
  execute_run liquidation_event_id w = (Return run, w') →
  PayoutRun.status run = RUN_COMPLETED →
  inv ∈ investors w →
  ∃ p',
    payouts w' !! (liquidation_event_id, Investor.id inv) = Some p'
    ∧ Payout.status p' ∈ [COMPLETED; SKIPPED; FAILED]
    ∧ (Payout.status p' = COMPLETED →
       Py.truthy_str (Payout.payment_order_id p') = true).
Proof.
  intros Hids Hrun Hst Hin.
  destruct (completed_run_inv _ _ _ _ Hrun Hst)
    as (event & run0 & w1 & tally & w2 & _ & _ & _ & Hkeys & Hloop & _ & _
        & Hp').
  assert (Hk : (liquidation_event_id, Investor.id inv)
               ∈ payout_keys liquidation_event_id (investors w)).
  { apply list_elem_of_fmap. by exists inv. }
  destruct (Hkeys _ Hk) as [p1 Hp1].
  destruct (process_payouts_closes _ _ _ Hids _ _ _ _ Hloop _ _ Hp1)
    as (p2 & Hp2 & Hclosed).
  exists p2. rewrite Hp'. split; [done|]. apply Hclosed. by left.
Qed.

(** X21.  The routing decision is stored before the provider is called
    and stays, whatever the call gives: after the transition of a payout
    that passes the gate the payout carries the subtype, currency, FX
    indicator and label of the decision, and as its rail the subtype of
    the decision, or "wire" for the wire fallback, which has none; the
    rail stored is never "ach". *)
Theorem eligible_payout_is_routed run k event w p :
  payouts w !! k = Some p →
  eligible (eligibility_of p) = true →
  ∃ p',
    payouts (_process_single_payout run k event w).2 !! k = Some p'
    ∧ Payout.rail p'
      = Some (default (payment_type (rail_of p)) (subtype (rail_of p)))
    ∧ Payout.rail_subtype p' = subtype (rail_of p)
    ∧ Payout.rail_currency p' = Some (currency (rail_of p))
    ∧ Payout.fx_indicator p' = fx_indicator (rail_of p)
    ∧ Payout.payment_order_type p' = Some (label (rail_of p))
    ∧ Payout.rail p' ≠ Some "ach".
Proof.
  intros Hk Hel.
  assert (Hrail : Payout.rail (routed p)
                  = Some (default (payment_type (rail_of p))
                            (subtype (rail_of p)))
                  ∧ Payout.rail (routed p) ≠ Some "ach").
  { unfold routed. cbn [Payout.rail Payout.set_routing]. unfold rail_of.
    destruct (select_rail_cases (Payout.country p) (Payout.payment_method p)
                (Py.truthy_int (Payout.has_aba_routing p)))
      as [((Ht & Hs & _) & _)
         |[(cfg & Hcfg & _ & Ht & Hs & _)|((Ht & _ & Hs & _) & _)]];
      rewrite Hs, ?Ht; try done.
    destruct (GLOBAL_ACH_MAP_foreign _ _ Hcfg) as (_ & Htruthy & Hne & _).
    unfold Py.opt_or. rewrite Htruthy. split; [done|]. congruence. }
  destruct Hrail as [Hrail Hne].
  pose proof (process_eligible run k event w p Hk Hel) as Hp.
  destruct (Py.int_round (Payout.amount p * 100)%float) as [cents|].
  - cbv zeta in Hp.
    destruct Hp as (wr & r & ps & io & p' & w1 & _ & _ & _ & -> & Hp'
                    & _ & _ & _ & _ & _ & (Hr1 & Hr2 & Hr3 & Hr4 & Hr5) & _).
    exists p'. cbn [snd]. rewrite Hp', lookup_insert_eq.
    rewrite Hr1, Hr2, Hr3, Hr4, Hr5. by split_and!.
  - destruct Hp as (e & w1 & -> & Hp' & _).
    exists (routed p). cbn [snd]. rewrite Hp', lookup_insert_eq.
    by split_and!.
Qed.

(** X22.  A run for an event that does not exist returns a run with
    status FAILED, all counts zero and its completion time set; it
    creates no payout, although there may be recipients, and does not
    call the provider. *)
Theorem run_for_unknown_event (liquidation_event_id : string) w :
  liquidation_events w !! liquidation_event_id = None →
  ∃ run w',
    execute_run liquidation_event_id w = (Return run, w')
    ∧ PayoutRun.status run = RUN_FAILED
    ∧ PayoutRun.created_count run = 0
    ∧ PayoutRun.skipped_count run = 0
    ∧ PayoutRun.failed_count run = 0
    ∧ PayoutRun.skip_breakdown run = None
    ∧ is_Some (PayoutRun.completed_at run)
    ∧ payouts w' = payouts w
    ∧ new_io w w' = []
    ∧ provider_state w' = provider_state w.
Proof.
  intros Hev. rewrite execute_run_eq, Hev.
  destruct (run_started_eq liquidation_event_id w)
    as (entry0 & _ & _ & _ & _ & _ & Hp0 & (Hio0 & Hps0 & _) & _).
  destruct (close_run_eq "run_failed"
              (failed_run (run_started liquidation_event_id w).1)
              [ ("error", JStr ("Liquidation event not found: "
                                +:+ liquidation_event_id)) ]
              (run_started liquidation_event_id w).2)
    as (entry & w3 & -> & _ & _ & _ & _ & _ & Hp3 & (Hio3 & Hps3 & _)).
  eexists _, _. split; [reflexivity|].
  split_and!; try done; try congruence; try (by eexists).
  unfold new_io. rewrite Hio3, Hio0. apply drop_all.
Qed.

End Closing.

(* ===================================================================== *)
(** * The mock provider behind the wrapper *)
(* ===================================================================== *)

Section Mock.
  Context `{PyRuntime}.

(** What the mock can answer. *)
Lemma mock_answer (self : MockPaymentProvider.t)
    (request : PaymentOrderRequest.t) :
  match (MockPaymentProvider.create_payment_order self request).1 with
  | Return response =>
      PaymentOrderResponse.payment_order_id response ≠ ""
  | Raise (ExcProvider e) =>
      hint_is_nan e = false
      ∧ err_retriable e = negb (is_PermanentError e)
  | Raise (ExcOther _ _) => False
  end.
Proof.
  unfold MockPaymentProvider.create_payment_order.
  repeat (match goal with
          | |- context [if ?b then _ else _] => destruct b
          end; [by cbn|]).
  cbn [fst PaymentOrderResponse.payment_order_id]. discriminate.
Qed.

Lemma mock_gives_order_ids : gives_order_ids MockPaymentProvider.t.
Proof.
  intros ps request response Hret.
  pose proof (mock_answer ps request) as Hans.
  cbn [create_payment_order MockPaymentProvider_provider] in Hret.
  by rewrite Hret in Hans.
Qed.

(** X23.  The answers of the mock provider, whatever its failure rate
    and its random draws.  An error it raises is retriable exactly when
    it is no [PermanentError], and the retry-after hint it carries is no
    NaN; it raises nothing but a [ProviderError].  Behind the retry
    wrapper with a budget that is not negative the calls therefore never
    end in an exception that is no [ProviderError], and an error they
    end in that is not a [PermanentError] is retriable.  Every response
    carries an order id that is not empty.  (The latency that the mock
    simulates before it answers has no part in its answer.) *)
Theorem mock_behind_retry (request : PaymentOrderRequest.t)
    (max_retries : Z) (w : @World MockPaymentProvider.t) :
  (∀ self : MockPaymentProvider.t,
     match (create_payment_order self request).1 with
     | Return response =>
         PaymentOrderResponse.payment_order_id response ≠ ""
     | Raise (ExcProvider e) =>
         hint_is_nan e = false
         ∧ err_retriable e = negb (is_PermanentError e)
     | Raise (ExcOther _ _) => False
     end)
  ∧ (0 ≤ max_retries →
     match (with_retry (call_provider request) max_retries w).1 with
     | Return response =>
         PaymentOrderResponse.payment_order_id response ≠ ""
     | Raise (ExcProvider e) =>
         is_PermanentError e = false → err_retriable e = true
     | Raise (ExcOther _ _) => False
     end)
  ∧ gives_order_ids MockPaymentProvider.t.
Proof.
  split_and!.
  - intros self. pose proof (mock_answer self request) as Hans.
    cbn [create_payment_order MockPaymentProvider_provider].
    by destruct (MockPaymentProvider.create_payment_order self request).1
      as [response|[e|c m]].
  - intros Hle. destruct (with_retry_answer request max_retries w Hle)
      as [ps0 <-].
    pose proof (mock_answer ps0 request) as Hans.
    cbn [create_payment_order MockPaymentProvider_provider].
    destruct (MockPaymentProvider.create_payment_order ps0 request).1
      as [response|[e|c m]]; [done| |done].
    destruct Hans as [_ ->]. by intros ->.
  - apply mock_gives_order_ids.
Qed.

End Mock.

(* ===================================================================== *)
(** * Seeding *)
(* ===================================================================== *)

Lemma INVESTORS_ids_NoDup : NoDup (Investor.id <$> INVESTORS).
Proof.
  apply (bool_decide_unpack (NoDup (Investor.id <$> INVESTORS))).
  by vm_compute.
Qed.

Lemma INVESTORS_first : "INV-001" ∈ Investor.id <$> INVESTORS.
Proof. unfold INVESTORS. rewrite fmap_cons. by left. Qed.

Section SeedFacts.
  Context {PS : Type} `{PaymentProvider PS} `{PyRuntime}.
  Implicit Types (w : @World PS).

(** X24.  Seeding is idempotent: after a seeding that returns, seeding
    again returns and changes nothing; a seeding that raises leaves the
    database as it was. *)
Theorem seed_is_idempotent w :
  match seed w with
  | (Return _, w1) => seed w1 = (Return tt, w1)
  | (Raise _, w1) => w1 = w
  end.
Proof.
  unfold seed.
  destruct (bool_decide ("INV-001" ∈ Investor.id <$> investors w)) eqn:Hseeded.
  - by rewrite Hseeded.
  - destruct (bool_decide (NoDup _ ∧ _)); [|done].
    cbn [investors with_seed]. rewrite bool_decide_true; [done|].
    rewrite fmap_app. apply elem_of_app. right. apply INVESTORS_first.
Qed.

(** X25.  On a database without investors and events the seeding
    returns; it stores the 48 entries of INVESTORS, in order and with
    pairwise distinct ids, and the two liquidation events, and creates no
    payout. *)
Theorem seed_fresh_database w :
  investors w = [] → liquidation_events w = ∅ →
  ∃ w',
    seed w = (Return tt, w')
    ∧ investors w' = INVESTORS
    ∧ length (investors w') = 48%nat
    ∧ NoDup (Investor.id <$> investors w')
    ∧ (∀ e, e ∈ LIQUIDATION_EVENTS →
            liquidation_events w' !! LiquidationEvent.id e = Some e)
    ∧ payouts w' = payouts w.
Proof.
  intros Hinv Hev. unfold seed. rewrite Hinv, Hev.
  rewrite bool_decide_false by (by intros ?%elem_of_nil).
  rewrite bool_decide_true.
  2: { split_and!.
       - apply INVESTORS_ids_NoDup.
       - apply Forall_forall. by intros i _ ?%elem_of_nil.
       - apply (bool_decide_unpack
                  (NoDup (LiquidationEvent.id <$> LIQUIDATION_EVENTS))).
         by vm_compute.
       - rewrite dom_empty_L. apply Forall_forall. set_solver. }
  eexists. split; [reflexivity|].
  cbn [investors with_seed liquidation_events payouts]. rewrite Hinv, Hev.
  split_and!; try done.
  - apply INVESTORS_ids_NoDup.
  - intros e He. unfold LIQUIDATION_EVENTS in *. cbn [foldl].
    apply elem_of_cons in He as [->|He].
    { rewrite lookup_insert_ne by done. by rewrite lookup_insert_eq. }
    apply list_elem_of_singleton in He as ->. by rewrite lookup_insert_eq.
Qed.

(** X26.  The guard of the seeding looks for the first investor only: on
    a database that holds another investor of INVESTORS but not
    "INV-001", the seeding raises IntegrityError and stores nothing. *)
Theorem seed_guard_checks_first_investor_only w (i : string) :
  "INV-001" ∉ Investor.id <$> investors w →
  i ∈ Investor.id <$> investors w →
  i ∈ Investor.id <$> INVESTORS →
  seed w = (Raise (ExcOther "IntegrityError" "UNIQUE constraint failed"), w).
Proof.
  intros Hfirst Hold Hnew. unfold seed.
  rewrite bool_decide_false by done.
  rewrite bool_decide_false; [done|].
  intros (_ & Hfree & _). rewrite Forall_forall in Hfree.
  by apply (Hfree i).
Qed.

End SeedFacts.

(* ===================================================================== *)
(** * The mock provider *)
(* ===================================================================== *)

Lemma mock_order_id_nonempty (s1 s2 : string) : "po_" +:+ s1 +:+ "_" +:+ s2 ≠ "".
Proof. discriminate. Qed.

(** [MockPaymentProvider(failure_rate=0.0)] always succeeds, with an order
    id that starts with "po_". *)
Lemma mock_succeeds `{PyRuntime} :
  succeeds_from (PS := MockPaymentProvider.t) mock_never_fails.
Proof.
  intros ps request [Hrate Hroll].
  cbn [create_payment_order MockPaymentProvider_provider].
  unfold MockPaymentProvider.create_payment_order. rewrite Hrate.
  change (0 * 0x1.3333333333333p-2)%float with 0%float.
  change (0 * 0x1.3333333333333p-1)%float with 0%float.
  rewrite !Hroll. cbn [fst snd].
  eexists. split; [reflexivity|]. split; [apply mock_order_id_nonempty|].
  by split.
Qed.

(* ===================================================================== *)
(** * The claims at concrete inputs *)
(* ===================================================================== *)

Import Sample Examples.

(** C1 as stated fails for an order id that is the empty string: the
    payout has a non-null order id, yet it is submitted to the provider. *)
Lemma empty_order_id_is_resubmitted :
  payouts w_empty_id !! key1 = Some (payout "INV-001" PENDING (Some "") None)
  ∧ Payout.payment_order_id (payout "INV-001" PENDING (Some "") None) ≠ None
  ∧ (_process_single_payout run key1 event w_empty_id).1 = Return "created"
  ∧ count_calls
      (new_io w_empty_id (_process_single_payout run key1 event w_empty_id).2)
    = 1%nat
  ∧ count_calls (new_io w_empty_id (execute_run evid w_empty_id).2) = 1%nat.
Proof. split_and!; [by vm_compute|done|by vm_compute..]. Qed.

Lemma existing_order_never_resubmitted_witness :
  ∃ w', _process_single_payout run key1 event w_paid = (Return "skipped", w')
        ∧ new_io w_paid w' = [].
Proof.
  assert (Hp : payouts w_paid !! key1
               = Some (payout "INV-001" COMPLETED (Some "po_123") (Some "paid")))
    by (vm_compute; reflexivity).
  assert (Ht : Py.truthy_str
                 (Payout.payment_order_id
                    (payout "INV-001" COMPLETED (Some "po_123") (Some "paid")))
               = true) by reflexivity.
  destruct (existing_order_never_resubmitted run event key1 w_paid _ Hp Ht)
    as (w' & p' & Hstep & Hio & _).
  exists w'. split; [exact Hstep|exact Hio].
Defined.

(** C2 as stated fails when the first run skipped a payout: the second run
    skips that payout again, so its skipped_count is the number of
    recipients, not the number of payouts the first run created. *)
Lemma second_run_skips_the_skipped_too :
  PayoutRun.created_count (returned run (execute_run evid w_two).1) = 1
  ∧ PayoutRun.skipped_count (returned run (execute_run evid w_two).1) = 1
  ∧ (execute_run evid (execute_run evid w_two).2).1
    = Return (returned run (execute_run evid (execute_run evid w_two).2).1)
  ∧ PayoutRun.created_count
      (returned run (execute_run evid (execute_run evid w_two).2).1) = 0
  ∧ PayoutRun.skipped_count
      (returned run (execute_run evid (execute_run evid w_two).2).1) = 2.
Proof. split_and!; by vm_compute. Qed.

Lemma second_run_skips_every_payout_witness :
  ∃ run2 w2,
    execute_run evid (execute_run evid w_two).2 = (Return run2, w2)
    ∧ PayoutRun.created_count run2 = 0
    ∧ PayoutRun.skipped_count run2 = 2.
Proof.
  assert (Hgood : mock_never_fails (provider_state w_two)).
  { split; [reflexivity|]. intros n. vm_compute. reflexivity. }
  assert (Hrun1 : execute_run evid w_two
                  = (Return (returned run (execute_run evid w_two).1),
                     (execute_run evid w_two).2))
    by (vm_compute; reflexivity).
  assert (Hst1 : PayoutRun.status (returned run (execute_run evid w_two).1)
                 = RUN_COMPLETED)
    by (vm_compute; reflexivity).
  destruct (second_run_skips_every_payout mock_never_fails evid w_two _ _
              mock_succeeds Hgood Hrun1 Hst1)
    as (run2 & w2 & Hrun2 & _ & Hc & _ & Hs & _).
  exists run2, w2. split; [exact Hrun2|]. split; [exact Hc|].
  rewrite Hs. vm_compute. reflexivity.
Defined.

(** C3 as stated fails for a completed payout: the run puts it through
    the gate again, which turns its status to skipped, sets its skip
    reason and appends a note. *)
Lemma completed_payout_is_reprocessed :
  Payout.status (payout "INV-001" COMPLETED (Some "po_123") (Some "paid"))
    = COMPLETED
  ∧ payouts w_paid !! key1
    = Some (payout "INV-001" COMPLETED (Some "po_123") (Some "paid"))
  ∧ (Payout.status <$> payouts (execute_run evid w_paid).2 !! key1)
    = Some SKIPPED
  ∧ (Payout.skip_reason <$> payouts (execute_run evid w_paid).2 !! key1)
    = Some (Some "existing_payment_order")
  ∧ (Payout.notes <$> payouts (execute_run evid w_paid).2 !! key1)
    ≠ Some (Some "paid").
Proof. split_and!; by vm_compute. Qed.

Lemma terminal_payout_is_skipped_again_witness :
  ∃ p', payouts (execute_run evid w_paid).2 !! key1 = Some p'
        ∧ Payout.run_id p' = Some "an-earlier-run"
        ∧ Payout.status p' = SKIPPED
        ∧ note_appended (Some "paid") (Payout.notes p')
            ("Skipped: "
             +:+ message
                   (eligibility_of
                      (payout "INV-001" COMPLETED (Some "po_123")
                         (Some "paid")))).
Proof.
  assert (Hin : investor "INV-001" "US" "ACH" (Some "ext_us_001") 0
                ∈ investors w_paid) by left.
  assert (Hp : payouts w_paid !! key1
               = Some (payout "INV-001" COMPLETED (Some "po_123") (Some "paid")))
    by (vm_compute; reflexivity).
  assert (Hst : Payout.status
                  (payout "INV-001" COMPLETED (Some "po_123") (Some "paid"))
                ∈ [COMPLETED; SKIPPED]) by left.
  assert (Hel : eligible
                  (eligibility_of
                     (payout "INV-001" COMPLETED (Some "po_123") (Some "paid")))
                = false) by reflexivity.
  assert (Hrun : execute_run evid w_paid
                 = (Return (returned run (execute_run evid w_paid).1),
                    (execute_run evid w_paid).2))
    by (vm_compute; reflexivity).
  assert (Hstr : PayoutRun.status (returned run (execute_run evid w_paid).1)
                 = RUN_COMPLETED)
    by (vm_compute; reflexivity).
  destruct (terminal_payout_is_skipped_again evid w_paid _ _ _ _
              Hin Hp Hst Hel Hrun Hstr)
    as (p' & Hp' & Hrid & _ & _ & Hst' & _ & Hnote & _).
  exists p'. split; [exact Hp'|]. split; [exact Hrid|].
  split; [exact Hst'|exact Hnote].
Defined.

(** C6 at a concrete input: two retriable failures, then a success. *)
Lemma with_retry_default_attempts_witness :
  ∃ w', with_retry (call_provider request) MAX_RETRIES
          (w_script [fails unavailable; fails (rate_limited None);
                     Return response])
        = (Return response, w')
        ∧ count_calls
            (new_io (w_script [fails unavailable; fails (rate_limited None);
                               Return response]) w') = 3%nat.
Proof.
  apply (proj1 (with_retry_default_attempts request
                  (w_script [fails unavailable; fails (rate_limited None);
                             Return response]))
           [unavailable; rate_limited None] response).
  - simpl. lia.
  - by repeat constructor.
  - by simpl.
Defined.

(** C7 as stated fails for a rate-limit error whose hint is zero: the code
    waits the computed delay of 1, not [min(0, 30)]. *)
Lemma zero_retry_after_is_ignored :
  sleeps_of
    (new_io (w_script [fails (rate_limited (Some 0%float)); Return response])
       (with_retry (call_provider request) MAX_RETRIES
          (w_script [fails (rate_limited (Some 0%float)); Return response])).2)
  ≠ imap (λ i e, RetrySpec.claimed_wait (S i) e) [rate_limited (Some 0%float)].
Proof.
  intros Heq.
  apply (f_equal (λ l, match l with
                       | [d] => PrimFloat.eqb d 0%float
                       | _ => false
                       end)) in Heq.
  vm_compute in Heq. discriminate.
Qed.

Lemma with_retry_waits_witness :
  sleeps_of
    (new_io (w_script [fails unavailable; fails (rate_limited (Some 7%float));
                       fails unavailable; Return response])
       (with_retry (call_provider request) MAX_RETRIES
          (w_script [fails unavailable; fails (rate_limited (Some 7%float));
                     fails unavailable; Return response])).2)
  = [1%float; 7%float; 4%float].
Proof.
  rewrite (proj1 (with_retry_waits request MAX_RETRIES
                    [unavailable; rate_limited (Some 7%float); unavailable]
                    (w_script [fails unavailable;
                               fails (rate_limited (Some 7%float));
                               fails unavailable; Return response])
                    ltac:(by repeat constructor)
                    ltac:(by vm_compute)) response ltac:(by simpl)).
  by vm_compute.
Defined.

(** C8 at the fixture of the tests: 6 created, 2 skipped, 8 recipients. *)
Lemma completed_run_counts_recipients_witness :
  PayoutRun.created_count (returned run (execute_run evid w_seeded).1)
  + PayoutRun.skipped_count (returned run (execute_run evid w_seeded).1)
  + PayoutRun.failed_count (returned run (execute_run evid w_seeded).1)
  = 8.
Proof.
  assert (Hrun : execute_run evid w_seeded
                 = (Return (returned run (execute_run evid w_seeded).1),
                    (execute_run evid w_seeded).2))
    by (vm_compute; reflexivity).
  assert (Hst : PayoutRun.status (returned run (execute_run evid w_seeded).1)
                = RUN_COMPLETED)
    by (vm_compute; reflexivity).
  exact (proj1 (completed_run_counts_recipients evid w_seeded _ _ Hrun Hst)).
Defined.

(* ===================================================================== *)
(** * Further properties at concrete inputs *)
(* ===================================================================== *)

Import MoreExamples.

Lemma with_retry_without_attempts_witness :
  with_retry (call_provider request) (-1) (w_script [Return response])
  = (Raise (ExcProvider
              (BaseProviderError "Unknown error after retries" 500 true)),
     w_script [Return response]).
Proof. apply with_retry_without_attempts. lia. Defined.

Lemma with_retry_trace_shape_witness :
  ∃ ws,
    new_io (w_script [fails unavailable; Return response])
      (with_retry (call_provider request) 5
         (w_script [fails unavailable; Return response])).2
    = retried request ws ++ [IOCall request]
    ∧ Z.of_nat (length ws) ≤ 5.
Proof.
  assert (Hle : 0 ≤ 5) by lia.
  destruct (with_retry_trace_shape request 5
              (w_script [fails unavailable; Return response]) Hle)
    as (ws & Hio & Hlen & _).
  exists ws. split; [exact Hio|exact Hlen].
Defined.

(** A time-out after one retriable failure is not retried. *)
Lemma with_retry_stops_at_final_answer_witness :
  (with_retry (call_provider request) 5
     (w_script [fails unavailable; Raise timed_out; Return response])).1
  = Raise timed_out.
Proof.
  assert (Hall : Forall (λ e, err_retriable e = true) [unavailable])
    by (by repeat constructor).
  assert (Hle : Z.of_nat (length [unavailable]) ≤ 5) by (simpl; lia).
  assert (Hfinal : final_answer (Raise timed_out) = true) by reflexivity.
  assert (Hans : answers
                   (provider_state
                      (w_script [fails unavailable; Raise timed_out;
                                 Return response]))
                   request (map fails [unavailable] ++ [Raise timed_out]))
    by (by simpl).
  rewrite (with_retry_stops_at_final_answer request 5 [unavailable]
             (Raise timed_out) _ Hall Hle Hfinal Hans).
  reflexivity.
Defined.

(** The mock at a failure rate of 1 with rate limits only: five waits,
    none above the cap. *)
Lemma with_retry_waits_capped_witness :
  Forall (λ d, PrimFloat.leb d MAX_DELAY = true)
    (sleeps_of (new_io w_rate_limited
                  (with_retry (call_provider request) 5 w_rate_limited).2))
  ∧ length (sleeps_of (new_io w_rate_limited
                         (with_retry (call_provider request) 5
                            w_rate_limited).2)) = 5%nat.
Proof.
  split; [|by vm_compute].
  apply with_retry_waits_capped. intros ps e He.
  pose proof (mock_answer ps request) as Hans.
  cbn [create_payment_order MockPaymentProvider_provider] in He.
  rewrite He in Hans. apply Hans.
Defined.

Lemma run_audit_trail_witness :
  ∃ started mid finished,
    audit_logs (execute_run evid w_two).2
    = audit_logs w_two ++ started :: mid ++ [finished]
    ∧ AuditLog.action started = "run_started"
    ∧ AuditLog.action finished = "run_completed".
Proof.
  assert (Hrun : execute_run evid w_two
                 = (Return (returned run (execute_run evid w_two).1),
                    (execute_run evid w_two).2))
    by (vm_compute; reflexivity).
  destruct (run_audit_trail evid w_two _ _ Hrun)
    as (started & mid & finished & Hlog & Hs & Hf & _).
  exists started, mid, finished.
  split; [exact Hlog|]. split; [exact Hs|]. rewrite Hf. by vm_compute.
Defined.

Lemma order_id_is_never_overwritten_witness :
  ∃ p', payouts (execute_run evid w_paid).2 !! key1 = Some p'
        ∧ Payout.payment_order_id p' = Some "po_123".
Proof.
  assert (Hp : payouts w_paid !! key1
               = Some (payout "INV-001" COMPLETED (Some "po_123") (Some "paid")))
    by (vm_compute; reflexivity).
  destruct (order_id_is_never_overwritten evid w_paid key1 _ Hp)
    as (p' & Hp' & _ & Hoid).
  exists p'. split; [exact Hp'|exact (Hoid eq_refl)].
Defined.

Lemma transition_result_matches_status_witness :
  ∃ p p',
    payouts w_paid !! key1 = Some p
    ∧ payouts (_process_single_payout run key1 event w_paid).2 !! key1
      = Some p'.
Proof.
  assert (Hrun : _process_single_payout run key1 event w_paid
                 = (Return "skipped",
                    (_process_single_payout run key1 event w_paid).2))
    by (vm_compute; reflexivity).
  destruct (transition_result_matches_status run key1 event w_paid _ _ Hrun)
    as (p & p' & Hp & Hp' & _).
  exists p, p'. split; [exact Hp|exact Hp'].
Defined.

(** An infinite amount: the transition raises OverflowError. *)
Lemma non_finite_amount_aborts_transition_witness :
  ∃ msg w',
    _process_single_payout run key1 event w_infinite
    = (Raise (ExcOther "OverflowError" msg), w')
    ∧ new_io w_infinite w' = [].
Proof.
  assert (Hp : payouts w_infinite !! key1 = Some infinite_payout)
    by (vm_compute; reflexivity).
  assert (Hel : eligible (eligibility_of infinite_payout) = true)
    by (vm_compute; reflexivity).
  assert (Hc : Py.int_round (Payout.amount infinite_payout * 100)%float = None)
    by (vm_compute; reflexivity).
  destruct (non_finite_amount_aborts_transition run key1 event w_infinite _
              Hp Hel Hc) as (msg & w' & Hrun & Hio & _).
  exists msg, w'. split; [exact Hrun|exact Hio].
Defined.

(** A base [ProviderError] marked not retriable is recorded as
    "payment_failed_retries_exhausted" after one call. *)
Lemma failed_call_is_logged_by_class_witness :
  ∃ w' entry,
    _process_single_payout run key1 event (w_pending [fails rejected])
    = (Return "failed", w')
    ∧ count_calls (new_io (w_pending [fails rejected]) w') = 1%nat
    ∧ last (audit_logs w') = Some entry
    ∧ AuditLog.action entry = "payment_failed_retries_exhausted".
Proof.
  assert (Hp : payouts (w_pending [fails rejected]) !! key1
               = Some (payout "INV-001" PENDING None None))
    by (vm_compute; reflexivity).
  assert (Hel : eligible (eligibility_of (payout "INV-001" PENDING None None))
                = true) by (vm_compute; reflexivity).
  assert (Hc : Py.int_round
                 (Payout.amount (payout "INV-001" PENDING None None) * 100)%float
               = Some 100000) by (vm_compute; reflexivity).
  assert (Hall : Forall (λ e, err_retriable e = true) []) by constructor.
  assert (Hans : answers (provider_state (w_pending [fails rejected]))
                   (payment_order_request
                      (rail_of (payout "INV-001" PENDING None None))
                      (routed (payout "INV-001" PENDING None None))
                      event 100000)
                   (map fails [] ++ [Raise (ExcProvider rejected)]))
    by (by simpl).
  assert (Hwhy : ((length (@nil ProviderError) ≤ 5)%nat
                  ∧ final_answer (Raise (ExcProvider rejected)) = true)
                 ∨ length (@nil ProviderError) = 5%nat)
    by (left; split; [simpl; lia|reflexivity]).
  destruct (failed_call_is_logged_by_class run key1 event
              (w_pending [fails rejected]) _ 100000 [] (ExcProvider rejected)
              Hp Hel Hc Hall Hans Hwhy)
    as (w' & p' & entry & Hrun & Hio & _ & _ & Hlast & Hact & _).
  exists w', entry. split; [exact Hrun|]. split; [by rewrite Hio|].
  split; [exact Hlast|exact Hact].
Defined.

(** The fixture of the tests: two payouts skipped, for two reasons. *)
Lemma skip_breakdown_adds_up_witness :
  counter_total
    (default [] (PayoutRun.skip_breakdown
                   (returned run (execute_run evid w_seeded).1)))
  = PayoutRun.skipped_count (returned run (execute_run evid w_seeded).1).
Proof.
  assert (Hrun : execute_run evid w_seeded
                 = (Return (returned run (execute_run evid w_seeded).1),
                    (execute_run evid w_seeded).2))
    by (vm_compute; reflexivity).
  assert (Hst : PayoutRun.status (returned run (execute_run evid w_seeded).1)
                = RUN_COMPLETED)
    by (vm_compute; reflexivity).
  exact (proj1 (proj1 (skip_breakdown_adds_up evid w_seeded _ _ Hrun Hst))).
Defined.

Lemma run_without_recipients_witness :
  ∃ run0 w',
    execute_run evid w_no_recipients = (Return run0, w')
    ∧ PayoutRun.status run0 = RUN_COMPLETED
    ∧ PayoutRun.skip_breakdown run0 = None.
Proof.
  assert (Hev : liquidation_events w_no_recipients !! evid = Some event)
    by (vm_compute; reflexivity).
  assert (Hinv : investors w_no_recipients = []) by reflexivity.
  destruct (run_without_recipients evid w_no_recipients event Hev Hinv)
    as (run0 & w' & Hrun & Hst & _ & _ & _ & Hbd & _).
  exists run0, w'. split; [exact Hrun|]. split; [exact Hst|exact Hbd].
Defined.

Lemma provider_calls_account_witness :
  PayoutRun.created_count (returned run (execute_run evid w_seeded).1)
  + PayoutRun.failed_count (returned run (execute_run evid w_seeded).1)
  ≤ Z.of_nat (count_calls (new_io w_seeded (execute_run evid w_seeded).2)).
Proof.
  assert (Hrun : execute_run evid w_seeded
                 = (Return (returned run (execute_run evid w_seeded).1),
                    (execute_run evid w_seeded).2))
    by (vm_compute; reflexivity).
  assert (Hst : PayoutRun.status (returned run (execute_run evid w_seeded).1)
                = RUN_COMPLETED)
    by (vm_compute; reflexivity).
  exact (proj1 (provider_calls_account evid w_seeded _ _ Hrun Hst)).
Defined.

Lemma run_creates_equal_shares_witness :
  ∃ p', payouts (execute_run evid w_two).2 !! key1 = Some p'
        ∧ Payout.amount p' = share_of event 2
        ∧ Payout.currency p' = Some "USD".
Proof.
  assert (Hev : liquidation_events w_two !! evid = Some event)
    by (vm_compute; reflexivity).
  assert (Hrun : execute_run evid w_two
                 = (Return (returned run (execute_run evid w_two).1),
                    (execute_run evid w_two).2))
    by (vm_compute; reflexivity).
  assert (Hin : inv1 ∈ investors w_two) by left.
  assert (Hnone : payouts w_two !! (evid, Investor.id inv1) = None)
    by (vm_compute; reflexivity).
  destruct (run_creates_equal_shares evid w_two event _ _ inv1
              Hev Hrun Hin Hnone) as (p' & Hp' & Ha & Hc & _).
  exists p'. split; [exact Hp'|]. split; [exact Ha|exact Hc].
Defined.

(** A payout that failed in an earlier run is attached to the new run. *)
Lemma run_attaches_open_payouts_witness :
  ∃ p', payouts (execute_run evid w_failed).2 !! key1 = Some p'
        ∧ Payout.run_id p'
          = Some (PayoutRun.id (returned run (execute_run evid w_failed).1)).
Proof.
  assert (Hev : liquidation_events w_failed !! evid = Some event)
    by (vm_compute; reflexivity).
  assert (Hrun : execute_run evid w_failed
                 = (Return (returned run (execute_run evid w_failed).1),
                    (execute_run evid w_failed).2))
    by (vm_compute; reflexivity).
  assert (Hin : inv1 ∈ investors w_failed) by left.
  assert (Hp : payouts w_failed !! (evid, Investor.id inv1)
               = Some (payout "INV-001" FAILED None None))
    by (vm_compute; reflexivity).
  destruct (run_attaches_open_payouts evid w_failed event _ _ inv1 _
              Hev Hrun Hin Hp) as (p' & Hp' & Hrid).
  exists p'. split; [exact Hp'|exact Hrid].
Defined.

Lemma completed_run_closes_every_payout_witness :
  ∃ p', payouts (execute_run evid w_two).2 !! key1 = Some p'
        ∧ Payout.status p' ∈ [COMPLETED; SKIPPED; FAILED].
Proof.
  assert (Hrun : execute_run evid w_two
                 = (Return (returned run (execute_run evid w_two).1),
                    (execute_run evid w_two).2))
    by (vm_compute; reflexivity).
  assert (Hst : PayoutRun.status (returned run (execute_run evid w_two).1)
                = RUN_COMPLETED)
    by (vm_compute; reflexivity).
  assert (Hin : inv1 ∈ investors w_two) by left.
  destruct (completed_run_closes_every_payout evid w_two _ _ inv1
              mock_gives_order_ids Hrun Hst Hin) as (p' & Hp' & Hcl & _).
  exists p'. split; [exact Hp'|exact Hcl].
Defined.

Lemma eligible_payout_is_routed_witness :
  ∃ p',
    payouts (_process_single_payout run key1 event w_empty_id).2 !! key1
    = Some p'
    ∧ Payout.rail p' = Some "CCD".
Proof.
  assert (Hp : payouts w_empty_id !! key1
               = Some (payout "INV-001" PENDING (Some "") None))
    by (vm_compute; reflexivity).
  assert (Hel : eligible
                  (eligibility_of (payout "INV-001" PENDING (Some "") None))
                = true) by (vm_compute; reflexivity).
  destruct (eligible_payout_is_routed run key1 event w_empty_id _ Hp Hel)
    as (p' & Hp' & Hrail & _).
  exists p'. split; [exact Hp'|]. rewrite Hrail. by vm_compute.
Defined.

Lemma run_for_unknown_event_witness :
  ∃ run0 w',
    execute_run "LIQ-404" w_two = (Return run0, w')
    ∧ PayoutRun.status run0 = RUN_FAILED
    ∧ payouts w' = payouts w_two.
Proof.
  assert (Hev : liquidation_events w_two !! "LIQ-404" = None)
    by (vm_compute; reflexivity).
  destruct (run_for_unknown_event "LIQ-404" w_two Hev)
    as (run0 & w' & Hrun & Hst & _ & _ & _ & _ & _ & Hp & _).
  exists run0, w'. split; [exact Hrun|]. split; [exact Hst|exact Hp].
Defined.

Lemma seed_fresh_database_witness :
  ∃ w', seed w_blank = (Return tt, w')
        ∧ length (investors w') = 48%nat.
Proof.
  assert (Hinv : investors w_blank = []) by reflexivity.
  assert (Hev : liquidation_events w_blank = ∅) by reflexivity.
  destruct (seed_fresh_database w_blank Hinv Hev)
    as (w' & Hseed & _ & Hlen & _).
  exists w'. split; [exact Hseed|exact Hlen].
Defined.

Lemma seed_guard_checks_first_investor_only_witness :
  seed w_half_seeded
  = (Raise (ExcOther "IntegrityError" "UNIQUE constraint failed"),
     w_half_seeded).
Proof.
  assert (Hfirst : "INV-001" ∉ Investor.id <$> investors w_half_seeded)
    by (by intros ?%list_elem_of_singleton).
  assert (Hold : "INV-002" ∈ Investor.id <$> investors w_half_seeded) by left.
  assert (Hnew : "INV-002" ∈ Investor.id <$> INVESTORS)
    by (unfold INVESTORS; rewrite !fmap_cons; right; left).
  exact (seed_guard_checks_first_investor_only w_half_seeded "INV-002"
           Hfirst Hold Hnew).
Defined.
